(** * Kowalski: the ZTF alert ingester and the API auth middleware

    A shallow embedding of [kowalski/alert_watcher_ztf.py] and
    [kowalski/middlewares.py].  Python values are a small dynamic universe
    ([value]); dictionaries keep insertion order and are association lists
    with unique keys; a raised exception is the [Raise] branch of [result].
    Everything the repository only calls (the document store's query engine,
    the Avro decoder, the ML runtime, [utils], PyJWT, the HTTP session) is a
    field of [externals]. *)

From Stdlib Require Import ZArith String Ascii List Floats.
From stdpp Require Import base option list strings gmap pretty relations.

Set Warnings "-inexact-float".
Local Open Scope Z_scope.

(** ** Exceptions and results *)

Inductive exn :=
| KeyError | IndexError | TypeError | AttributeError | ValueError
| OverflowError | AssertionError | UnicodeDecodeError
| DecodeError | ExpiredSignatureError | InvalidTokenError
| WriteError | DuplicateKeyError | OperationFailure
| RequestException | EopError | KeyboardInterrupt | SystemExit.

(** [except Exception] catches everything but the two [BaseException]s. *)
Definition is_Exception (e : exn) : bool :=
  match e with
  | KeyboardInterrupt | SystemExit => false
  | _ => true
  end.

Inductive result (A : Type) :=
| Ok (a : A)
| Raise (e : exn).
Arguments Ok {A} a.
Arguments Raise {A} e.

#[global] Instance result_ret : MRet result := fun _ a => Ok a.
#[global] Instance result_bind : MBind result := fun _ _ f m =>
  match m with
  | Ok a => f a
  | Raise e => Raise e
  end.

Definition is_Ok {A} (r : result A) : bool :=
  match r with Ok _ => true | Raise _ => false end.

(** ** Python / BSON values *)

#[local] Unset Elimination Schemes.
Inductive value :=
| VNone
| VBool (b : bool)
| VInt (n : Z)
| VFloat (x : float)
| VStr (s : string)
| VOid (n : N)
| VList (l : list value)
| VDict (d : list (string * value)).
#[local] Set Elimination Schemes.

Abbreviation pydict := (list (string * value)).

Fixpoint value_eqb (x y : value) {struct x} : bool :=
  match x, y with
  | VNone, VNone => true
  | VBool a, VBool b => Bool.eqb a b
  | VInt a, VInt b => Z.eqb a b
  | VFloat a, VFloat b => PrimFloat.Leibniz.eqb a b
  | VStr a, VStr b => String.eqb a b
  | VOid a, VOid b => N.eqb a b
  | VList a, VList b =>
      (fix go (a b : list value) {struct a} : bool :=
         match a, b with
         | [], [] => true
         | x :: a', y :: b' => value_eqb x y && go a' b'
         | _, _ => false
         end) a b
  | VDict a, VDict b =>
      (fix go (a b : pydict) {struct a} : bool :=
         match a, b with
         | [], [] => true
         | (k, x) :: a', (k', y) :: b' =>
             String.eqb k k' && value_eqb x y && go a' b'
         | _, _ => false
         end) a b
  | _, _ => false
  end.

(** Membership for the store's equality, [x in l]. *)
Definition value_inb (x : value) (l : list value) : bool :=
  existsb (value_eqb x) l.

(** Python truthiness, as [if v:] / [not v] use it. *)
Definition truthy (v : value) : bool :=
  match v with
  | VNone => false
  | VBool b => b
  | VInt n => negb (n =? 0)
  | VFloat x => negb (PrimFloat.eqb x 0%float)
  | VStr s => negb (String.eqb s "")
  | VOid _ => true
  | VList l => match l with [] => false | _ => true end
  | VDict d => match d with [] => false | _ => true end
  end.

(** ** Dictionaries: insertion-ordered, unique keys *)

Fixpoint dict_get {V} (k : string) (d : list (string * V)) : option V :=
  match d with
  | [] => None
  | (k', v) :: d' => if String.eqb k k' then Some v else dict_get k d'
  end.

(** [d[k] = v]: overwrite in place, or append a new key. *)
Fixpoint dict_set {V} (k : string) (v : V) (d : list (string * V))
  : list (string * V) :=
  match d with
  | [] => [(k, v)]
  | (k', v') :: d' =>
      if String.eqb k k' then (k, v) :: d' else (k', v') :: dict_set k v d'
  end.

(** [d.pop(k, None)] for its effect on [d]: no entry for [k] is left. *)
Fixpoint dict_pop {V} (k : string) (d : list (string * V))
  : list (string * V) :=
  match d with
  | [] => []
  | (k', v') :: d' =>
      if String.eqb k k' then dict_pop k d' else (k', v') :: dict_pop k d'
  end.

Definition dict_has {V} (k : string) (d : list (string * V)) : bool :=
  match dict_get k d with Some _ => true | None => false end.

(** [{**a, **b}] *)
Definition dict_merge {V} (a b : list (string * V)) : list (string * V) :=
  fold_left (fun acc kv => dict_set kv.1 kv.2 acc) b a.

(** [v[k]] with a string key. *)
Definition getitem (v : value) (k : string) : result value :=
  match v with
  | VDict d =>
      match dict_get k d with
      | Some x => Ok x
      | None => Raise KeyError
      end
  | _ => Raise TypeError
  end.

(** [v[k1][k2] = x], returning the updated [v]. *)
Definition setitem2 (d : pydict) (k1 k2 : string) (x : value) : result pydict :=
  inner ← getitem (VDict d) k1;
  match inner with
  | VDict i => Ok (dict_set k1 (VDict (dict_set k2 x i)) d)
  | _ => Raise TypeError
  end.

(** The dictionary that [dict] makes of an iterable of pairs.  A pair is
    whatever iterates to two elements: a list of two values, a string of two
    characters, a dictionary of two keys.  An element that cannot be iterated
    is a [TypeError], one of another length a [ValueError], an unhashable key
    a [TypeError].  The dictionaries of [value] have strings as keys, as
    documents do, so a pair whose key is another hashable value has no result
    here and is given [TypeError] too. *)
Fixpoint dict_of_pairs (pairs : list value) (acc : pydict) : result pydict :=
  match pairs with
  | [] => Ok acc
  | item :: rest =>
      kv ← match item with
           | VList [k; x] => Ok (k, x)
           | VStr (String a (String b EmptyString)) =>
               Ok (VStr (String a ""), VStr (String b ""))
           | VDict [(k, _); (k', _)] => Ok (VStr k, VStr k')
           | VList _ | VStr _ | VDict _ => Raise ValueError
           | _ => Raise TypeError
           end;
      match kv.1 with
      | VStr k => dict_of_pairs rest (dict_set k kv.2 acc)
      | _ => Raise TypeError
      end
  end.

(** [dict(v)]: a copy of a dictionary, or the dictionary of an iterable of
    pairs; a string iterates to its characters. *)
Definition py_dict (v : value) : result pydict :=
  match v with
  | VDict d => Ok d
  | VList pairs => dict_of_pairs pairs []
  | VStr EmptyString => Ok []
  | VStr _ => Raise ValueError
  | _ => Raise TypeError
  end.

(** ** Numbers *)

Definition float_of_Z (n : Z) : result float :=
  let x := SF2Prim (binary_normalize prec emax n 0 false) in
  if PrimFloat.is_infinity x then Raise OverflowError else Ok x.

(** [float(v)]; parsing a string is the runtime's, passed as [parse]. *)
Definition py_float (parse : string → result float) (v : value) : result float :=
  match v with
  | VFloat x => Ok x
  | VInt n => float_of_Z n
  | VBool b => Ok (if b then 1%float else 0%float)
  | VStr s => parse s
  | _ => Raise TypeError
  end.

(** [v - y] for a float literal [y]. *)
Definition py_sub_float (v : value) (y : float) : result value :=
  match v with
  | VFloat x => Ok (VFloat (x - y)%float)
  | VInt n => x ← float_of_Z n; Ok (VFloat (x - y)%float)
  | VBool b => Ok (VFloat ((if b then 1 else 0) - y)%float)
  | _ => Raise TypeError
  end.

(** [v < k] for an integer literal [k] that a double holds exactly. *)
Definition py_lt_int (v : value) (k : Z) : result bool :=
  match v with
  | VFloat x =>
      Ok (PrimFloat.ltb x (SF2Prim (binary_normalize prec emax k 0 false)))
  | VInt n => Ok (n <? k)
  | VBool b => Ok ((if b then 1 else 0) <? k)
  | _ => Raise TypeError
  end.

(** [k * v] for a small integer literal [k]. *)
Definition py_mul_int (k : Z) (v : value) : result value :=
  match v with
  | VFloat x =>
      Ok (VFloat (SF2Prim (binary_normalize prec emax k 0 false) * x)%float)
  | VInt n => Ok (VInt (k * n))
  | VBool b => Ok (VInt (k * (if b then 1 else 0)))
  | _ => Raise TypeError
  end.

(** ** Strings *)

Fixpoint substringb (needle hay : string) : bool :=
  if String.prefix needle hay then true
  else match hay with
       | EmptyString => false
       | String _ hay' => substringb needle hay'
       end.

(** A [string] stands for the Python [str] with the same code points, one
    character for each: the text of the model is the text whose code points
    are below 256.

    [str.lower] on such a character: the letters [A]-[Z] and the capital
    letters of Latin-1, 192 to 222 but for the multiplication sign 215, move
    up by 32; every other character stays. *)
Definition ascii_lower (c : ascii) : ascii :=
  let n := nat_of_ascii c in
  if ((Nat.leb 65 n && Nat.leb n 90)
      || (Nat.leb 192 n && Nat.leb n 222 && negb (Nat.eqb n 215)))%bool
  then ascii_of_nat (n + 32) else c.

Fixpoint lower (s : string) : string :=
  match s with
  | EmptyString => EmptyString
  | String c s' => String (ascii_lower c) (lower s')
  end.

(** [str.isspace] on a character, which is where [str.split()] cuts: the
    blank, tab to carriage return (9 to 13), the four separators 28 to 31,
    next line (133) and the no-break space (160). *)
Definition is_space (c : ascii) : bool :=
  let n := nat_of_ascii c in
  (Nat.eqb n 32 || (Nat.leb 9 n && Nat.leb n 13) || (Nat.leb 28 n && Nat.leb n 31)
   || Nat.eqb n 133 || Nat.eqb n 160)%bool.

(** [s.split()]: maximal runs of characters that are not white space.
    [cur] is the word being read, in order. *)
Fixpoint split_go (cur : string) (s : string) : list string :=
  match s with
  | EmptyString => if String.eqb cur "" then [] else [cur]
  | String c s' =>
      if is_space c
      then (if String.eqb cur "" then split_go "" s' else cur :: split_go "" s')
      else split_go (cur +:+ String c "") s'
  end.

Definition split (s : string) : list string := split_go "" s.

Fixpoint ends_with_slash (s : string) : bool :=
  match s with
  | EmptyString => false
  | String c EmptyString => Ascii.eqb c "/"
  | String _ s' => ends_with_slash s'
  end.

(** [os.path.join(a, b)] on POSIX. *)
Definition path_join (a b : string) : string :=
  if String.prefix "/" b then b
  else if (String.eqb a "" || ends_with_slash a)%bool then a +:+ b
  else a +:+ "/" +:+ b.

(** [needle in v] *)
Definition py_contains (needle : string) (v : value) : result bool :=
  match v with
  | VStr s => Ok (substringb needle s)
  | VList l => Ok (value_inb (VStr needle) l)
  | VDict d => Ok (dict_has needle d)
  | _ => Raise TypeError
  end.

(** Iterating a value with [for x in v]. *)
Definition py_iter (v : value) : result (list value) :=
  match v with
  | VList l => Ok l
  | VDict d => Ok (map (fun kv => VStr kv.1) d)
  | VStr s => Ok (map (fun c => VStr (String c "")) (list_ascii_of_string s))
  | _ => Raise TypeError
  end.

(** ** What the repository calls but does not define *)

Record externals := Externals {
  (** [utils]: sexagesimal formatting and galactic coordinates *)
  deg2hms : value → result value;
  deg2dms : value → result value;
  radec2lb : value → value → result (value * value);
  (** [utils.in_ellipse], [utils.great_circle_distance], [round(_, 2)] *)
  in_ellipse : float → float → value → value → value → value → value → result bool;
  great_circle_distance : float → float → value → value → result float;
  round2 : float → float;
  (** [float(str)] and [str(v)] beyond integers and strings *)
  parse_float : string → result float;
  str_other : value → string;
  (** [make_triplet] followed by the Keras model's [predict], by model name *)
  ml_predict : string → value → result float;
  (** Keras [load_model] of the file of a model name and version *)
  load_model : string → value → result unit;
  (** the store's [find] with a [$geoWithin $centerSphere] query: documents of
      the collection, catalog filter, projection, centre and radius *)
  find_geo : list value → pydict → pydict → float → float → float → result (list value);
  (** the store's [aggregate]: all collections, collection name, pipeline,
      [maxTimeMS] *)
  aggregate : gmap string (list value) → string → value → Z → result (list value);
  (** BSON's [$max] over the values of a group *)
  bson_max : list value → value;
  (** [bson.json_util.loads] and [dumps] *)
  loads : value → result value;
  dumps : value → result string;
  (** [jwt.decode token secret algorithms] *)
  jwt_decode : string → string → string → result value;
  (** the SkyPortal bodies and the session's [post] with [resp.json()] *)
  make_photometry : value → result value;
  make_thumbnail : value → string → string → result value;
  session_post : string → value → result unit
}.

(** [config_ingester.json], as far as the ingester reads it. *)
Record config := Config {
  collection_alerts : string;
  collection_alerts_aux : string;
  collection_filters : string;
  (** model name and configured version *)
  cfg_ml_models : list (string * value);
  (** catalog name, filter and projection *)
  xmatch_catalogs : list (string * (pydict * pydict));
  (** already converted to radians at import time *)
  cone_search_radius : float;
  filter_pipeline_upstream : value;
  post_to_skyportal : bool;
  skyportal_url : string
}.

(** What [__init__] leaves on the consumer object and [poll] only reads. *)
Record consumer := Consumer {
  topic : string;
  ml_models : pydict;
  filter_templates : list value
}.

(** One call of the broker's [poll()]: the callbacks it runs, then the
    message it returns, if any. *)
Inductive callback :=
| OnAssign (partitions : list Z)
| ErrorCb (code : Z).

Record message := Message {
  msg_error : option Z;
  msg_partition : Z;
  msg_value : string;
  (** what [decodeMessage] hands back for [msg_value], iterated *)
  msg_decoded : result (list value)
}.

Definition poll_event : Type := list callback * option message.

Inductive ctl := Continue | Exit.

(** ** The world a worker acts on *)

Inductive file :=
| FBytes (b : string)
| FJson (v : value).

Record world := World {
  db : gmap string (list value);
  files : gmap string file;
  posts : list (string * value);
  next_oid : N;
  num_partitions : Z;
  num_disconnected_partitions : Z
}.

Definition set_db (d : gmap string (list value)) (w : world) : world :=
  World d (files w) (posts w) (next_oid w) (num_partitions w)
        (num_disconnected_partitions w).
Definition set_files (f : gmap string file) (w : world) : world :=
  World (db w) f (posts w) (next_oid w) (num_partitions w)
        (num_disconnected_partitions w).
Definition set_posts (p : list (string * value)) (w : world) : world :=
  World (db w) (files w) p (next_oid w) (num_partitions w)
        (num_disconnected_partitions w).
Definition set_next_oid (n : N) (w : world) : world :=
  World (db w) (files w) (posts w) n (num_partitions w)
        (num_disconnected_partitions w).
Definition set_num_partitions (n : Z) (w : world) : world :=
  World (db w) (files w) (posts w) (next_oid w) n
        (num_disconnected_partitions w).
Definition set_num_disconnected_partitions (n : Z) (w : world) : world :=
  World (db w) (files w) (posts w) (next_oid w) (num_partitions w) n.

(** State passing with exceptions: the state survives a raise. *)
Definition act (A : Type) : Type := world → world * result A.

#[global] Instance act_ret : MRet act := fun _ a w => (w, Ok a).
#[global] Instance act_bind : MBind act := fun _ _ f m w =>
  match m w with
  | (w', Ok a) => f a w'
  | (w', Raise e) => (w', Raise e)
  end.

Definition lift {A} (r : result A) : act A := fun w => (w, r).
Definition reads {A} (f : world → A) : act A := fun w => (w, Ok (f w)).
Definition modify (f : world → world) : act unit := fun w => (f w, Ok tt).

(** [try: body / except Exception: handler] *)
Definition try_except {A} (body : act A) (handler : exn → act A) : act A :=
  fun w =>
    match body w with
    | (w', Ok a) => (w', Ok a)
    | (w', Raise e) => if is_Exception e then handler e w' else (w', Raise e)
    end.

(** The same for code that touches no state. *)
Definition try_pure {A} (body : result A) (handler : exn → result A) : result A :=
  match body with
  | Ok a => Ok a
  | Raise e => if is_Exception e then handler e else Raise e
  end.

(** ** The document store

    A collection is the list of its documents in insertion order; a name
    that was never written is the empty collection.  A query [{field: v}]
    is an equality match, and [null] also matches a missing field. *)

Definition coll (name : string) (d : gmap string (list value)) : list value :=
  default [] (d !! name).

Definition match_field (field : string) (v : value) (doc : value) : bool :=
  match doc with
  | VDict d =>
      match dict_get field d with
      | Some x => value_eqb x v
      | None => value_eqb VNone v
      end
  | _ => false
  end.

(** [count_documents({field: v}, limit=1)] *)
Definition count_documents (name field : string) (v : value) : act Z :=
  reads (fun w => if existsb (match_field field v) (coll name (db w)) then 1 else 0).

(** [insert_one]: the driver gives a document without [_id] a generated
    ObjectId, unique by construction; a supplied [_id] must be new. *)
Definition insert_one (name : string) (doc : pydict) : act pydict :=
  match dict_get "_id" doc with
  | None =>
      n ← reads next_oid;
      let doc' := dict_set "_id" (VOid n) doc in
      modify (fun w => set_next_oid (N.succ n)
                (set_db (<[name := coll name (db w) ++ [VDict doc']]> (db w)) w));;
      mret doc'
  | Some id =>
      dup ← reads (fun w => existsb (match_field "_id" id) (coll name (db w)));
      if (dup : bool) then lift (Raise DuplicateKeyError)
      else
        modify (fun w => set_db (<[name := coll name (db w) ++ [VDict doc]]> (db w)) w);;
        mret doc
  end.

(** [$addToSet] with [$each]: append what is not there yet. *)
Definition addToSet (l items : list value) : list value :=
  fold_left (fun acc x => if value_inb x acc then acc else acc ++ [x]) items l.

Definition addToSet_doc (field : string) (items : list value) (doc : value)
  : result value :=
  match doc with
  | VDict d =>
      match dict_get field d with
      | None => Ok (VDict (dict_set field (VList (addToSet [] items)) d))
      | Some (VList l) => Ok (VDict (dict_set field (VList (addToSet l items)) d))
      | Some _ => Raise WriteError
      end
  | _ => Raise WriteError
  end.

(** Apply [f] to the first document that matches; [None] when none does. *)
Fixpoint update_first (p : value → bool) (f : value → result value)
    (docs : list value) : option (result (list value)) :=
  match docs with
  | [] => None
  | doc :: rest =>
      if p doc then Some (doc' ← f doc; Ok (doc' :: rest))
      else
        match update_first p f rest with
        | None => None
        | Some r => Some (rest' ← r; Ok (doc :: rest'))
        end
  end.

(** [update_one({'_id': id}, {'$addToSet': {field: {'$each': items}}},
    upsert=True)] *)
Definition update_one_addToSet (name : string) (id : value) (field : string)
    (items : list value) : act unit :=
  docs ← reads (fun w => coll name (db w));
  match update_first (match_field "_id" id) (addToSet_doc field items) docs with
  | Some r =>
      docs' ← lift r;
      modify (fun w => set_db (<[name := docs']> (db w)) w)
  | None =>
      modify (fun w => set_db
        (<[name := docs ++ [VDict [("_id", id); (field, VList (addToSet [] items))]]]>
           (db w)) w)
  end.

(** [find({'_id': id}, {field: 1}, limit=1)], as a list *)
Definition find_one_projected (name : string) (id : value) (field : string)
  : act (list value) :=
  reads (fun w =>
    match filter (fun doc => match_field "_id" id doc = true) (coll name (db w)) with
    | VDict d :: _ =>
        [VDict (match dict_get "_id" d with Some i => [("_id", i)] | None => [] end
                ++ match dict_get field d with Some x => [(field, x)] | None => [] end)]
    | _ => []
    end).

(** ** [AlertConsumer] *)

Section AlertConsumer.
Context (E : externals) (cfg : config).

(** The ['''Coordinates:'''] block of [alert_mongify], lines 331-352. *)
Definition mongify_coordinates (doc : pydict) : result pydict :=
  let doc := dict_set "coordinates" (VDict []) doc in
  cand ← getitem (VDict doc) "candidate";
  _ra ← getitem cand "ra";
  cand ← getitem (VDict doc) "candidate";
  _dec ← getitem cand "dec";
  hms ← deg2hms E _ra;
  dms ← deg2dms E _dec;
  let _radec_str := VList [hms; dms] in
  doc ← setitem2 doc "coordinates" "radec_str" _radec_str;
  ra180 ← py_sub_float _ra 180%float;
  let _radec_geojson := VList [ra180; _dec] in
  doc ← setitem2 doc "coordinates" "radec_geojson"
          (VDict [("type", VStr "Point"); ("coordinates", _radec_geojson)]);
  cand ← getitem (VDict doc) "candidate";
  ra ← getitem cand "ra";
  cand ← getitem (VDict doc) "candidate";
  dec ← getitem cand "dec";
  '(l, b) ← radec2lb E ra dec;
  doc ← setitem2 doc "coordinates" "l" l;
  setitem2 doc "coordinates" "b" b.

Definition alert_mongify (alert : value) : result (pydict * value) :=
  doc ← py_dict alert;
  let doc := dict_set "classifications" (VDict []) doc in
  doc ← mongify_coordinates doc;
  prv_candidates ← getitem (VDict doc) "prv_candidates";
  let doc := dict_pop "prv_candidates" doc in
  let prv_candidates :=
    match prv_candidates with VNone => VList [] | v => v end in
  Ok (doc, prv_candidates).

(** [ml_models] as [__init__] fills it: the configured models whose file
    loaded, each with its version. *)
Definition alert_filter__ml (alert : value) (ml_models : pydict) : result pydict :=
  match try_pure
          (braai ← ml_predict E "braai" alert;
           m ← getitem (VDict ml_models) "braai";
           Ok (Some (braai, m)))
          (fun _ => Ok None) with
  | Raise e => Raise e
  | Ok None => Ok []
  | Ok (Some (braai, m)) =>
      let scores := [("braai", VFloat braai)] in
      try_pure (v ← getitem m "version"; Ok (dict_set "braai_version" v scores))
               (fun _ => Ok scores)
  end.

(** The catalog loop of [alert_filter__xmatch]; what was matched before a
    failing query stays in [xmatches]. *)
Fixpoint xmatch_loop (database : gmap string (list value)) (ra_geojson dec_geojson : float)
    (catalogs : list (string * (pydict * pydict))) (xmatches : pydict)
  : pydict * result unit :=
  match catalogs with
  | [] => (xmatches, Ok tt)
  | (catalog, (catalog_filter, catalog_projection)) :: rest =>
      match find_geo E (coll catalog database) catalog_filter catalog_projection
              ra_geojson dec_geojson (cone_search_radius cfg) with
      | Ok s => xmatch_loop database ra_geojson dec_geojson rest
                  (dict_set catalog (VList s) xmatches)
      | Raise e => (xmatches, Raise e)
      end
  end.

Definition alert_filter__xmatch (database : gmap string (list value)) (alert : pydict)
  : result pydict :=
  match (cand ← getitem (VDict alert) "candidate";
         ra ← getitem cand "ra";
         ra ← py_float (parse_float E) ra;
         let ra_geojson := (ra - 180)%float in
         cand ← getitem (VDict alert) "candidate";
         dec ← getitem cand "dec";
         dec_geojson ← py_float (parse_float E) dec;
         Ok (ra_geojson, dec_geojson)) with
  | Ok (ra_geojson, dec_geojson) =>
      match xmatch_loop database ra_geojson dec_geojson (xmatch_catalogs cfg) [] with
      | (xmatches, Ok _) => Ok xmatches
      | (xmatches, Raise e) => if is_Exception e then Ok xmatches else Raise e
      end
  | Raise e => if is_Exception e then Ok [] else Raise e
  end.

(** [3.0 * (np.pi / 180.0)] *)
Definition cone_search_radius_clu : float := (3 * (0x1.921fb54442d18p+1 / 180))%float.

Definition M31 : value :=
  VDict [("_id", VInt 596900); ("name", VStr "PGC2557");
         ("ra", VFloat 10.6847); ("dec", VFloat 41.26901); ("a", VFloat 6.35156);
         ("b2a", VFloat 0.32); ("pa", VFloat 35); ("sfr_fuv", VNone);
         ("mstar", VFloat 253816876.412914); ("sfr_ha", VInt 0);
         ("coordinates",
          VDict [("radec_geojson", VList [VStr "00:42:44.3503"; VStr "41:16:08.634"])])].

Definition M33 : value :=
  VDict [("_id", VInt 597543); ("name", VStr "PGC5818");
         ("ra", VFloat 23.46204); ("dec", VFloat 30.66022); ("a", VFloat 2.35983);
         ("b2a", VFloat 0.59); ("pa", VFloat 23); ("sfr_fuv", VNone);
         ("mstar", VFloat 4502777.420493); ("sfr_ha", VInt 0);
         ("coordinates",
          VDict [("radec_geojson", VList [VStr "01:33:50.8900"; VStr "30:39:36.800"])])].

Definition clu_projection : pydict :=
  [("_id", VInt 1); ("name", VInt 1); ("ra", VInt 1); ("dec", VInt 1);
   ("a", VInt 1); ("b2a", VInt 1); ("pa", VInt 1); ("z", VInt 1);
   ("sfr_fuv", VInt 1); ("mstar", VInt 1); ("sfr_ha", VInt 1);
   ("coordinates.radec_str", VInt 1)].

(** One galaxy of the elliptical match: [Some] the annotated match, or
    [None] when the alert is outside the ellipse. *)
Definition clu_match (ra dec : float) (size_margin : Z) (galaxy : value)
  : result (option value) :=
  alpha1 ← getitem galaxy "ra";
  delta01 ← getitem galaxy "dec";
  d0 ← getitem galaxy "a";
  axis_ratio ← getitem galaxy "b2a";
  PA0 ← getitem galaxy "pa";
  c ← py_lt_int d0 (-990);
  let d0 := if (c : bool) then VFloat 0.0265889 else d0 in
  c ← py_lt_int axis_ratio (-990);
  let axis_ratio := if (c : bool) then VFloat 0.61 else axis_ratio in
  c ← py_lt_int PA0 (-990);
  let PA0 := if (c : bool) then VFloat 86 else PA0 in
  a ← py_mul_int size_margin d0;
  in_galaxy ← in_ellipse E ra dec alpha1 delta01 a axis_ratio PA0;
  if (in_galaxy : bool) then
    dist ← great_circle_distance E ra dec alpha1 delta01;
    let distance_arcsec := round2 E (dist * 3600)%float in
    g ← py_dict galaxy;
    g ← setitem2 g "coordinates" "distance_arcsec" (VFloat distance_arcsec);
    Ok (Some (VDict g))
  else Ok None.

Fixpoint clu_matches (ra dec : float) (size_margin : Z) (galaxies : list value)
  : result (list value) :=
  match galaxies with
  | [] => Ok []
  | galaxy :: rest =>
      m ← clu_match ra dec size_margin galaxy;
      ms ← clu_matches ra dec size_margin rest;
      Ok (match m with Some g => g :: ms | None => ms end)
  end.

Definition alert_filter__xmatch_clu (database : gmap string (list value))
    (alert : pydict) (size_margin : Z) (clu_version : string) : result pydict :=
  try_pure
    (cand ← getitem (VDict alert) "candidate";
     ra ← getitem cand "ra";
     ra ← py_float (parse_float E) ra;
     cand ← getitem (VDict alert) "candidate";
     dec ← getitem cand "dec";
     dec ← py_float (parse_float E) dec;
     let ra_geojson := (ra - 180)%float in
     let dec_geojson := dec in
     galaxies ← find_geo E (coll clu_version database) [] clu_projection
                  ra_geojson dec_geojson cone_search_radius_clu;
     matches ← clu_matches ra dec size_margin (galaxies ++ [M31; M33]);
     Ok [(clu_version, VList matches)])
    (fun _ => Ok []).

(** [v[0]] *)
Definition py_index0 (v : value) : result value :=
  match v with
  | VList (x :: _) => Ok x
  | VList [] => Raise IndexError
  | VStr (String c _) => Ok (VStr (String c ""))
  | VStr EmptyString => Raise IndexError
  | VDict _ => Raise KeyError
  | _ => Raise TypeError
  end.

(** [_filter['pipeline'][0]["$match"]["candid"] = candid], giving the
    pipeline of the copy. *)
Definition rebind_candid (_filter : value) (candid : value) : result value :=
  pipeline ← getitem _filter "pipeline";
  stage0 ← py_index0 pipeline;
  m ← getitem stage0 "$match";
  match pipeline, stage0, m with
  | VList (_ :: stages), VDict s0, VDict md =>
      Ok (VList (VDict (dict_set "$match" (VDict (dict_set "candid" candid md)) s0)
                 :: stages))
  | _, _, _ => Raise TypeError
  end.

Definition hashable (v : value) : bool :=
  match v with VList _ | VDict _ => false | _ => true end.

(** The integer that a float is, if it is one: the comparison of an [int]
    with a [float] is exact. *)
Definition float_Z (x : float) : option Z :=
  match Prim2SF x with
  | S754_zero _ => Some 0
  | S754_finite s m e =>
      let n := Z.pos m in
      let a := if 0 <=? e then Some (n * 2 ^ e)
               else if Z.shiftl (Z.shiftr n (- e)) (- e) =? n then Some (Z.shiftr n (- e))
               else None in
      (fun v : Z => if s then - v else v) <$> a
  | _ => None
  end.

(** Keys of a [dict] are told apart by [hash] and [==].  Numbers are one
    key when they are equal as numbers, whatever their type: [True], [1] and
    [1.0] are the same key, [0.0] and [-0.0] too.  [key_norm] gives each key
    its representative: the integer for a [bool], an [int] and a float that
    is an integer, the value itself otherwise.  There is none for a list or a
    dictionary, which are not hashable, and none for NaN, which equals no
    key (a NaN is found again only as the very same object, and values here
    have no identity). *)
Definition key_norm (k : value) : option value :=
  match k with
  | VBool b => Some (VInt (if b then 1 else 0))
  | VFloat x =>
      match float_Z x with
      | Some n => Some (VInt n)
      | None => if PrimFloat.eqb x x then Some k else None
      end
  | VList _ | VDict _ => None
  | _ => Some k
  end.

Definition key_eqb (k k' : value) : bool :=
  match key_norm k, key_norm k' with
  | Some a, Some b => value_eqb a b
  | _, _ => false
  end.

(** A dictionary keyed by arbitrary hashable values, [passed_filters]:
    [d[k] = v] replaces the value under a key equal to [k] and leaves that
    key as it is. *)
Fixpoint vdict_set (k v : value) (d : list (value * value)) : list (value * value) :=
  match d with
  | [] => [(k, v)]
  | (k', v') :: d' =>
      if key_eqb k k' then (k', v) :: d' else (k', v') :: vdict_set k v d'
  end.

Fixpoint vdict_get (k : value) (d : list (value * value)) : option value :=
  match d with
  | [] => None
  | (k', v) :: d' => if key_eqb k k' then Some v else vdict_get k d'
  end.

(** The [try] body of [alert_filter__user_defined] for one template:
    [Some (id, first result)] when the filter passed. *)
Definition run_filter (database : gmap string (list value)) (filter_template alert : value)
    (catalog : string) (max_time_ms : Z) : result (option (value * value)) :=
  let _filter := filter_template in
  candid ← getitem alert "candid";
  pipeline ← rebind_candid _filter candid;
  passed_filter ← aggregate E database catalog pipeline max_time_ms;
  match passed_filter with
  | [] => Ok None
  | first :: _ =>
      id ← getitem _filter "_id";
      if hashable id then Ok (Some (id, first)) else Raise TypeError
  end.

Fixpoint user_defined_loop (database : gmap string (list value))
    (filter_templates : list value) (alert : value) (catalog : string)
    (max_time_ms : Z) (passed_filters : list (value * value))
  : result (list (value * value)) :=
  match filter_templates with
  | [] => Ok passed_filters
  | filter_template :: rest =>
      match run_filter database filter_template alert catalog max_time_ms with
      | Ok None =>
          user_defined_loop database rest alert catalog max_time_ms passed_filters
      | Ok (Some (id, first)) =>
          user_defined_loop database rest alert catalog max_time_ms
            (vdict_set id first passed_filters)
      | Raise e =>
          if is_Exception e then
            (* the handler's message reads both keys *)
            _ ← getitem filter_template "_id";
            _ ← getitem alert "candid";
            user_defined_loop database rest alert catalog max_time_ms passed_filters
          else Raise e
      end
  end.

Definition alert_filter__user_defined (database : gmap string (list value))
    (filter_templates : list value) (alert : value)
  : result (list (value * value)) :=
  user_defined_loop database filter_templates alert "ZTF_alerts" 500 [].

(** [str(v)] as an f-string renders it. *)
Definition py_str (v : value) : string :=
  match v with
  | VInt n => pretty n
  | VStr s => s
  | VNone => "None"
  | VBool true => "True"
  | VBool false => "False"
  | _ => str_other E v
  end.

(** [d.get(k)] / [d.get(k, default)] *)
Definition py_get (v : value) (k : string) (dflt : value) : result value :=
  match v with
  | VDict d => Ok (default dflt (dict_get k d))
  | _ => Raise AttributeError
  end.

(** [{kk: vv for kk, vv in prv_candidate.items() if vv is not None}] *)
Definition pop_nulls (prv_candidate : value) : result value :=
  match prv_candidate with
  | VDict d =>
      Ok (VDict (List.filter
                   (fun kv => match kv.2 with VNone => false | _ => true end) d))
  | _ => Raise AttributeError
  end.

Fixpoint pop_nulls_all (prv_candidates : list value) : result (list value) :=
  match prv_candidates with
  | [] => Ok []
  | p :: rest => p' ← pop_nulls p; rest' ← pop_nulls_all rest; Ok (p' :: rest')
  end.

Definition write_file (path : string) (content : file) : act unit :=
  modify (fun w => set_files (<[path := content]> (files w)) w).

(** [session.post(url, json=body, ...)] and [resp.json()] *)
Definition post (endpoint : string) (body : value) : act unit :=
  lift (session_post E (skyportal_url cfg +:+ endpoint) body);;
  modify (fun w => set_posts (posts w ++ [(endpoint, body)]) w).

Fixpoint post_thumbnails (alert : value) (types : list (string * string)) : act unit :=
  match types with
  | [] => mret tt
  | (ttype, ztftype) :: rest =>
      thumb ← lift (make_thumbnail E alert ttype ztftype);
      post "/api/thumbnail" thumb;;
      post_thumbnails alert rest
  end.

(** [insert_db_entry]: a failed insert is printed, not raised.  The entry
    comes back as the driver left it, with its [_id]. *)
Definition insert_db_entry (_collection : string) (_db_entry : pydict) : act pydict :=
  try_except (insert_one _collection _db_entry) (fun _ => mret _db_entry).

(** Lines 446-475: the TESS dump; returns [alert] as the block leaves it. *)
Definition tess_dump (objectId : value) (prv_candidates : list value) (alert : pydict)
    (path_tess datestr : string) (save_packets : bool) : act pydict :=
  let alert := dict_set "prv_candidates" (VList prv_candidates) alert in
  xmatches ← find_one_projected (collection_alerts_aux cfg) objectId "cross_matches";
  xmatches ← lift (match xmatches with x :: _ => py_dict x | [] => Raise IndexError end);
  let xmatches := dict_pop "CLU_20190625" xmatches in
  cross_matches ← lift (getitem (VDict xmatches) "cross_matches");
  let alert := dict_set "cross_matches" cross_matches alert in
  (if save_packets then
     let path_tess_dir := path_join path_tess datestr in
     candid ← lift (getitem (VDict alert) "candid");
     let path_json := path_join path_tess_dir (py_str candid +:+ ".json") in
     try_except
       (write_file path_json (FBytes "");;
        _ ← lift (dumps E (VDict alert));
        write_file path_json (FJson (VDict alert)))
       (fun _ => mret tt)
   else mret tt);;
  mret alert.

(** Lines 484-546: metadata, photometry and three thumbnails. *)
Definition post_to_portal (prv_candidates : list value) (alert : pydict) : act unit :=
  id ← lift (getitem (VDict alert) "objectId");
  cand ← lift (getitem (VDict alert) "candidate");
  ra ← lift (py_get cand "ra" VNone);
  dec ← lift (py_get cand "dec" VNone);
  rb ← lift (getitem cand "rb");
  score ← lift (py_get cand "drb" rb);
  let alert_thin := VDict [("id", id); ("ra", ra); ("dec", dec); ("score", score)] in
  post "/api/sources" alert_thin;;
  let alert := dict_set "prv_candidates" (VList prv_candidates) alert in
  photometry ← lift (make_photometry E (VDict alert));
  post "/api/photometry" photometry;;
  post_thumbnails (VDict alert)
    [("new", "Science"); ("ref", "Template"); ("sub", "Difference")].

(** Lines 423-444: the auxiliary document of [objectId] is created with the
    cross-matches, or its [prv_candidates] are added to. *)
Definition store_aux (objectId : value) (alert : pydict) (prv_candidates : list value)
  : act unit :=
  n_aux ← count_documents (collection_alerts_aux cfg) "_id" objectId;
  if n_aux =? 0 then
    database ← reads db;
    xmatches ← lift (alert_filter__xmatch database alert);
    xmatches_clu ← lift (alert_filter__xmatch_clu database alert 3 "CLU_20190625");
    let xmatches := dict_merge xmatches xmatches_clu in
    let alert_aux := [("_id", objectId); ("cross_matches", VDict xmatches);
                      ("prv_candidates", VList prv_candidates)] in
    insert_db_entry (collection_alerts_aux cfg) alert_aux;; mret tt
  else
    update_one_addToSet (collection_alerts_aux cfg) objectId
                        "prv_candidates" prv_candidates.

(** Lines 446-546: the TESS dump, the user filters and the portal. *)
Definition after_store (c : consumer) (objectId : value) (prv_candidates : list value)
    (alert : pydict) (path_tess datestr : string) (save_packets : bool) : act unit :=
  cand ← lift (getitem (VDict alert) "candidate");
  programpi ← lift (getitem cand "programpi");
  is_tess ← lift (py_contains "TESS" programpi);
  alert ← (if (is_tess : bool)
           then tess_dump objectId prv_candidates alert path_tess datestr save_packets
           else mret alert);
  database ← reads db;
  passed_filters ← lift (alert_filter__user_defined database (filter_templates c)
                           (VDict alert));
  if post_to_skyportal cfg then post_to_portal prv_candidates alert else mret tt.

(** The body of [for record in msg_decoded], lines 386-546. *)
Definition ingest_record (c : consumer) (path_alerts path_tess datestr : string)
    (save_packets : bool) (msg_value : string) (record : value) : act unit :=
  candid ← lift (getitem record "candid");
  objectId ← lift (getitem record "objectId");
  n ← count_documents (collection_alerts cfg) "candid" candid;
  if n =? 0 then
    (if save_packets then
       let path_alert_dir := path_join path_alerts datestr in
       write_file (path_join path_alert_dir (py_str candid +:+ ".avro"))
                  (FBytes msg_value)
     else mret tt);;
    '(alert, prv_candidates) ← lift (alert_mongify record);
    scores ← lift (alert_filter__ml record (ml_models c));
    let alert := dict_set "classifications" (VDict scores) alert in
    alert ← insert_db_entry (collection_alerts cfg) alert;
    prv_candidates ← lift (prv_candidates ← py_iter prv_candidates;
                           pop_nulls_all prv_candidates);
    store_aux objectId alert prv_candidates;;
    after_store c objectId prv_candidates alert path_tess datestr save_packets
  else mret tt.

Fixpoint ingest_records (c : consumer) (path_alerts path_tess datestr : string)
    (save_packets : bool) (msg_value : string) (records : list value) : act unit :=
  match records with
  | [] => mret tt
  | record :: rest =>
      ingest_record c path_alerts path_tess datestr save_packets msg_value record;;
      ingest_records c path_alerts path_tess datestr save_packets msg_value rest
  end.

(** The callbacks [__init__] registers. *)
Definition error_cb (code : Z) : act unit :=
  if code =? -195 then
    modify (fun w => set_num_disconnected_partitions
                       (num_disconnected_partitions w + 1) w);;
    nd ← reads num_disconnected_partitions;
    np ← reads num_partitions;
    if nd =? np then lift (Raise SystemExit) else mret tt
  else mret tt.

Definition on_assign (partitions : list Z) : act unit :=
  modify (fun w => set_num_partitions
                     (num_partitions w + Z.of_nat (length partitions)) w).

Fixpoint run_callbacks (cbs : list callback) : act unit :=
  match cbs with
  | [] => mret tt
  | OnAssign parts :: rest => on_assign parts;; run_callbacks rest
  | ErrorCb code :: rest => error_cb code;; run_callbacks rest
  end.

(** [self.consumer.poll()] *)
Definition consumer_poll (ev : poll_event) : act (option message) :=
  run_callbacks ev.1;; mret ev.2.

(** [AlertConsumer.poll] *)
Definition poll (c : consumer) (path_alerts path_tess datestr : string)
    (save_packets : bool) (ev : poll_event) : act unit :=
  msg ← consumer_poll ev;
  match msg with
  | None =>
      (* [print(... 'msg is None')], then [msg.error()] on [None] *)
      lift (Raise AttributeError)
  | Some m =>
      match msg_error m with
      | Some _ => lift (Raise EopError)
      | None =>
          try_except
            (msg_decoded ← lift (msg_decoded m);
             ingest_records c path_alerts path_tess datestr save_packets
                            (msg_value m) msg_decoded)
            (fun _ => mret tt)
      end
  end.

(** One turn of [while True] in [listener]. *)
Definition listener_step (c : consumer) (path_alerts path_tess datestr : string)
    (save_packets test : bool) (ev : poll_event) (w : world) : world * ctl :=
  match poll c path_alerts path_tess datestr save_packets ev w with
  | (w', Ok _) => (w', Continue)
  | (w', Raise EopError) => (w', if test then Exit else Continue)
  | (w', Raise IndexError) => (w', Continue)
  | (w', Raise UnicodeDecodeError) => (w', Continue)
  | (w', Raise _) => (w', Exit)
  end.

(** The loop over what the broker delivers; [Continue] when the worker is
    still polling after the last event. *)
Fixpoint listener_loop (c : consumer) (path_alerts path_tess datestr : string)
    (save_packets test : bool) (evs : list poll_event) (w : world) : world * ctl :=
  match evs with
  | [] => (w, Continue)
  | ev :: rest =>
      match listener_step c path_alerts path_tess datestr save_packets test ev w with
      | (w', Continue) =>
          listener_loop c path_alerts path_tess datestr save_packets test rest w'
      | (w', Exit) => (w', Exit)
      end
  end.

(** *** Loading the filter templates in [__init__]

    The store's reading of the three literal stages: a string operand is a
    field path when it starts with [$], the whole document when it is
    [$$ROOT], and a constant otherwise. *)

Inductive expr :=
| ELit (v : value)
| EPath (p : string)
| ERoot.

Definition expr_of (v : value) : expr :=
  match v with
  | VStr s =>
      if String.eqb s "$$ROOT" then ERoot
      else match s with
           | String "$" p => EPath p
           | _ => ELit v
           end
  | _ => ELit v
  end.

Definition eval_expr (e : expr) (doc : value) : value :=
  match e with
  | ELit v => v
  | EPath p =>
      match doc with
      | VDict d => default VNone (dict_get p d)
      | _ => VNone
      end
  | ERoot => doc
  end.

(** Groups in order of first appearance, members in input order. *)
Fixpoint group_add (k doc : value) (groups : list (value * list value))
  : list (value * list value) :=
  match groups with
  | [] => [(k, [doc])]
  | (k', members) :: rest =>
      if value_eqb k k' then (k', members ++ [doc]) :: rest
      else (k', members) :: group_add k doc rest
  end.

Definition group_by (key : expr) (docs : list value) : list (value * list value) :=
  fold_left (fun groups doc => group_add (eval_expr key doc) doc groups) docs [].

(** [{'$group': {'_id': key, 'created': {'$max': mx}, 'tmp': {'$last': lst}}}] *)
Definition group_max_last (key mx lst : value) (docs : list value) : list value :=
  map (fun g : value * list value =>
         VDict [("_id", g.1);
                ("created", bson_max E (map (eval_expr (expr_of mx)) g.2));
                ("tmp", eval_expr (expr_of lst) (List.last g.2 VNone))])
      (group_by (expr_of key) docs).

(** [{'$group': {'_id': None, 'filters': {'$push': '$tmp'}}}] *)
Definition group_push_all (operand : value) (docs : list value) : list value :=
  match docs with
  | [] => []
  | _ => [VDict [("_id", VNone);
                 ("filters", VList (map (eval_expr (expr_of operand)) docs))]]
  end.

(** [self.filter_pipeline_upstream + loads(filter_template['pipeline'])] *)
Definition prepend_upstream (filter_template : value) : result value :=
  p ← getitem filter_template "pipeline";
  parsed ← loads E p;
  match filter_pipeline_upstream cfg, parsed, filter_template with
  | VList up, VList stages, VDict d =>
      Ok (VDict (dict_set "pipeline" (VList (up ++ stages)) d))
  | _, _, _ => Raise TypeError
  end.

Fixpoint prepend_upstream_all (fts : list value) : result (list value) :=
  match fts with
  | [] => Ok []
  | ft :: rest =>
      ft' ← prepend_upstream ft;
      rest' ← prepend_upstream_all rest;
      Ok (ft' :: rest')
  end.

(** Lines 224-237 of [__init__]. *)
Definition load_filter_templates (database : gmap string (list value))
  : result (list value) :=
  let matched := List.filter (match_field "catalog" (VStr (collection_alerts cfg)))
                             (coll (collection_filters cfg) database) in
  let grouped := group_max_last (VStr "science_program_id") (VStr "$created")
                                (VStr "$$ROOT") matched in
  let filter_templates := group_push_all (VStr "$tmp") grouped in
  filter_templates ←
    match filter_templates with
    | first :: _ => f ← getitem first "filters"; py_iter f
    | [] => Ok []
    end;
  prepend_upstream_all filter_templates.

(** Lines 199-210 of [__init__]: a model that fails to load is left out. *)
Fixpoint load_ml_models (models : list (string * value)) (acc : pydict) : result pydict :=
  match models with
  | [] => Ok acc
  | (m, m_v) :: rest =>
      match load_model E m m_v with
      | Ok _ => load_ml_models rest (dict_set m (VDict [("version", m_v)]) acc)
      | Raise e => if is_Exception e then load_ml_models rest acc else Raise e
      end
  end.

Definition AlertConsumer_init (topic : string) : act consumer :=
  modify (set_num_disconnected_partitions 0);;
  modify (set_num_partitions 0);;
  ml_models ← lift (load_ml_models (cfg_ml_models cfg) []);
  database ← reads db;
  filter_templates ← lift (load_filter_templates database);
  mret (Consumer topic ml_models filter_templates).

(** [topic.split('_')[1]] *)
Fixpoint split_on_go (sep : ascii) (cur : string) (s : string) : list string :=
  match s with
  | EmptyString => [cur]
  | String c s' =>
      if Ascii.eqb c sep then cur :: split_on_go sep "" s'
      else split_on_go sep (cur +:+ String c "") s'
  end.

Definition datestr_of (topic : string) : result string :=
  match split_on_go "_" "" topic with
  | _ :: d :: _ => Ok d
  | _ => Raise IndexError
  end.

(** [listener]: start-up, then the loop.  An exception at start-up ends the
    process. *)
Definition listener (topic path_alerts path_tess : string) (save_packets test : bool)
    (evs : list poll_event) (w : world) : world * ctl :=
  match (datestr ← lift (datestr_of topic);
         stream_reader ← AlertConsumer_init topic;
         mret (datestr, stream_reader)) w with
  | (w', Ok (datestr, stream_reader)) =>
      listener_loop stream_reader path_alerts path_tess datestr save_packets test evs w'
  | (w', Raise _) => (w', Exit)
  end.

End AlertConsumer.

(** ** The watchdog, [ingester]

    The watchdog keeps [topics_on_watch], a dictionary from topic to the
    listener process started for it.  A process is named by a number; what
    was started and what was killed is logged.  One turn of [while True]
    sees the output of [kafka-topics.sh], the clock, and the processes. *)

Record watchdog := Watchdog {
  topics_on_watch : list (string * N);
  next_pid : N;
  started : list (N * string);
  killed : list N
}.

Record pass_env := PassEnv {
  (** [subprocess.run(kafka_cmd, stdout=PIPE).stdout.decode('utf-8')], on the
      production or on the test stream *)
  kafka_topics : bool → result string;
  (** [datetime.datetime.utcnow().strftime('%Y%m%d')] *)
  utcnow : string;
  (** [Process.start()] and [Process.is_alive()] *)
  start : N → string → result unit;
  is_alive : N → result bool
}.

(** [out.split('\n')[:-1]] *)
Definition lines (out : string) : list string :=
  removelast (split_on_go "010" "" out).

(** [(datestr in t) and ('programid' in t) and ('zuds' not in t)] *)
Definition tonight (datestr t : string) : bool :=
  substringb datestr t && substringb "programid" t && negb (substringb "zuds" t).

(** The body of [for t in topics_tonight], lines 976-1005. *)
Definition watch (env : pass_env) (t : string) (s : watchdog) : watchdog * result unit :=
  match dict_get t (topics_on_watch s) with
  | None =>
      let p := next_pid s in
      let s := Watchdog (dict_set t p (topics_on_watch s)) (N.succ p)
                        (started s) (killed s) in
      match start env p t with
      | Ok _ => (Watchdog (topics_on_watch s) (next_pid s) (started s ++ [(p, t)])
                          (killed s), Ok tt)
      | Raise e => (s, Raise e)
      end
  | Some p =>
      match is_alive env p with
      | Ok true => (s, Ok tt)
      | Ok false =>
          (Watchdog (dict_pop t (topics_on_watch s)) (next_pid s) (started s) (killed s),
           Ok tt)
      | Raise e => if is_Exception e then (s, Ok tt) else (s, Raise e)
      end
  end.

Fixpoint watch_all (env : pass_env) (topics_tonight : list string) (s : watchdog)
  : watchdog * result unit :=
  match topics_tonight with
  | [] => (s, Ok tt)
  | t :: rest =>
      match watch env t s with
      | (s', Ok _) => watch_all env rest s'
      | (s', Raise e) => (s', Raise e)
      end
  end.

(** [for t in topics_on_watch: topics_on_watch[t].kill()] *)
Definition kill_all (s : watchdog) : watchdog :=
  Watchdog (topics_on_watch s) (next_pid s) (started s)
           (killed s ++ map snd (topics_on_watch s)).

(** One turn of [while True] in [ingester], lines 954-1024: [Ok Exit] is
    the [break] of a test run, [Raise] an exception that [except Exception]
    does not catch. *)
Definition ingester_pass (obs_date : option string) (test : bool) (env : pass_env)
    (s : watchdog) : watchdog * result ctl :=
  match kafka_topics env test with
  | Raise e => if is_Exception e then (s, Ok Continue) else (s, Raise e)
  | Ok out =>
      let topics := lines out in
      let datestr := match obs_date with None => utcnow env | Some d => d end in
      let topics_tonight := List.filter (tonight datestr) topics in
      match watch_all env topics_tonight s with
      | (s', Ok _) => if test then (kill_all s', Ok Exit) else (s', Ok Continue)
      | (s', Raise e) => if is_Exception e then (s', Ok Continue) else (s', Raise e)
      end
  end.

(** [ingester], over what the turns of its loop see; [topics_on_watch]
    starts empty. *)
Fixpoint ingester_loop (obs_date : option string) (test : bool) (envs : list pass_env)
    (s : watchdog) : watchdog * result ctl :=
  match envs with
  | [] => (s, Ok Continue)
  | env :: rest =>
      match ingester_pass obs_date test env s with
      | (s', Ok Continue) => ingester_loop obs_date test rest s'
      | (s', r) => (s', r)
      end
  end.

Definition ingester (obs_date : option string) (test : bool) (envs : list pass_env)
  : watchdog * result ctl :=
  ingester_loop obs_date test envs (Watchdog [] 0 [] []).

(** ** [middlewares.py] *)

Record request := Request {
  headers : list (string * string);
  jwt_secret : string;
  jwt_algorithm : string;
  user : value
}.

Definition set_user (u : value) (r : request) : request :=
  Request (headers r) (jwt_secret r) (jwt_algorithm r) u.

Record response := Response {
  status : Z;
  body : value
}.

(** [web.json_response({'status': 'error', 'message': message}, status=status)] *)
Definition json_error (message : string) (status : Z) : response :=
  Response status (VDict [("status", VStr "error"); ("message", VStr message)]).

(** [request.headers.get(name, None)]; header names compare without case. *)
Fixpoint header_get (name : string) (hs : list (string * string)) : option string :=
  match hs with
  | [] => None
  | (k, v) :: rest =>
      if String.eqb (lower k) (lower name) then Some v else header_get name rest
  end.

(** Lines 21-22: both [Authorization: Bearer <token>] and
    [Authorization: <token>] are accepted. *)
Definition bearer_token (jwt_token : string) : result string :=
  if substringb "bearer" (lower jwt_token)
  then match split jwt_token with
       | _ :: t :: _ => Ok t
       | _ => Raise IndexError
       end
  else Ok jwt_token.

Section Middlewares.
Context (E : externals).

Definition auth_middleware (req : request) (handler : request → result response)
  : result response :=
  let req := set_user VNone req in
  match header_get "authorization" (headers req) with
  | Some jwt_token =>
      if String.eqb jwt_token "" then handler req
      else
        match (jwt_token ← bearer_token jwt_token;
               jwt_decode E jwt_token (jwt_secret req) (jwt_algorithm req)) with
        | Raise DecodeError | Raise ExpiredSignatureError =>
            Ok (json_error "token is invalid" 400)
        | Raise e => Raise e
        | Ok payload =>
            user_id ← getitem payload "user_id";
            handler (set_user user_id req)
        end
  | None => handler req
  end.

Definition auth_required (func : request → result response)
  : request → result response :=
  fun req =>
    if negb (truthy (user req)) then Ok (json_error "auth required" 401)
    else func req.

Definition admin_required (admin : string) (func : request → result response)
  : request → result response :=
  fun req =>
    if negb (truthy (user req)) then Ok (json_error "auth required" 401)
    else if negb (value_eqb (user req) (VStr admin))
         then Ok (json_error "admin rights required" 403)
         else func req.

End Middlewares.

(** ** Vocabulary of the properties *)

Section ValueInd.
Variable P : value → Prop.
Hypothesis HNone : P VNone.
Hypothesis HBool : ∀ b, P (VBool b).
Hypothesis HInt : ∀ n, P (VInt n).
Hypothesis HFloat : ∀ x, P (VFloat x).
Hypothesis HStr : ∀ s, P (VStr s).
Hypothesis HOid : ∀ n, P (VOid n).
Hypothesis HList : ∀ l, Forall P l → P (VList l).
Hypothesis HDict : ∀ d, Forall (fun kv => P kv.2) d → P (VDict d).

Fixpoint value_ind (v : value) : P v :=
  match v with
  | VNone => HNone
  | VBool b => HBool b
  | VInt n => HInt n
  | VFloat x => HFloat x
  | VStr s => HStr s
  | VOid n => HOid n
  | VList l =>
      HList l ((fix go (l : list value) : Forall P l :=
                  match l with
                  | [] => @List.Forall_nil _ P
                  | x :: l' => @List.Forall_cons _ P x l' (value_ind x) (go l')
                  end) l)
  | VDict d =>
      HDict d ((fix go (d : pydict) : Forall (fun kv => P kv.2) d :=
                  match d with
                  | [] => @List.Forall_nil _ _
                  | kv :: d' => @List.Forall_cons _ (fun kv => P kv.2) kv d' (value_ind kv.2) (go d')
                  end) d)
  end.
End ValueInd.

(** The two ways the ingester changes a collection. *)
Inductive docs_step : list value → list value → Prop :=
| step_append docs doc : docs_step docs (docs ++ [doc])
| step_addToSet docs id items docs' :
    update_first (match_field "_id" id) (addToSet_doc "prv_candidates" items) docs
      = Some (Ok docs') →
    docs_step docs docs'.

Inductive db_step (D D' : gmap string (list value)) : Prop :=
| DbStep name docs' :
    docs_step (coll name D) docs' → D' = <[name := docs']> D → db_step D D'.

Definition db_steps : relation (gmap string (list value)) := rtc db_step.

(** [m] changes the store only along [R]. *)
Definition keeps (R : relation (gmap string (list value))) {A} (m : act A) : Prop :=
  ∀ w, R (db w) (db (m w).1).

(** [m] sees of the world only the store: on two worlds with the same
    store it gives the same result and leaves the same store. *)
Definition by_db {A} (m : act A) : Prop :=
  ∀ w w', db w = db w' → (m w).2 = (m w').2 ∧ db (m w).1 = db (m w').1.

(** The [prv_candidates] array of the first document with [_id = oid]. *)
Definition prv_of (docs : list value) (oid : value) : option (list value) :=
  match List.find (match_field "_id" oid) docs with
  | Some (VDict d) =>
      match dict_get "prv_candidates" d with
      | Some (VList l) => Some l
      | _ => None
      end
  | _ => None
  end.

Definition aux_prv (cfg : config) (D : gmap string (list value)) (oid : value)
  : option (list value) :=
  prv_of (coll (collection_alerts_aux cfg) D) oid.

(** A document whose [candidate] has coordinates carries the GeoJSON point
    made from them. *)
Definition radec_geojson_ok (doc : value) : Prop :=
  ∀ cand ra dec,
    getitem doc "candidate" = Ok cand →
    getitem cand "ra" = Ok ra → getitem cand "dec" = Ok dec →
    ∃ ra180,
      py_sub_float ra 180%float = Ok ra180 ∧
      (coordinates ← getitem doc "coordinates"; getitem coordinates "radec_geojson")
        = Ok (VDict [("type", VStr "Point"); ("coordinates", VList [ra180; dec])]).

Section Vocabulary.
Context (E : externals) (cfg : config).

Definition present (D : gmap string (list value)) (candid : value) : bool :=
  existsb (match_field "candid" candid) (coll (collection_alerts cfg) D).

(** A record is settled in a store when ingesting it again cannot change
    the store: its [candid] is in the primary collection, or else its
    primary insert is refused as a duplicate [_id] and its prior candidates
    are all in the auxiliary document already. *)
Definition settled (D : gmap string (list value)) (record : value) : Prop :=
  ∀ candid, getitem record "candid" = Ok candid →
    present D candid = true ∨
    ((∀ alert prv, alert_mongify E record = Ok (alert, prv) →
        ∃ id, dict_get "_id" alert = Some id ∧
              existsb (match_field "_id" id) (coll (collection_alerts cfg) D) = true) ∧
     (∀ objectId alert prv items,
        getitem record "objectId" = Ok objectId →
        alert_mongify E record = Ok (alert, prv) →
        (prv ← py_iter prv; pop_nulls_all prv) = Ok items →
        ∃ l, aux_prv cfg D objectId = Some l ∧ ∀ x, x ∈ items → x ∈ l)).

(** The primary collection keeps [radec_geojson_ok]. *)
Definition geo_rel : relation (gmap string (list value)) :=
  fun D D' =>
    Forall radec_geojson_ok (coll (collection_alerts cfg) D) →
    Forall radec_geojson_ok (coll (collection_alerts cfg) D').

End Vocabulary.

(** The [_id]s of a list of templates, and whether they differ pairwise as
    keys of a dictionary, as the [_id]s of one collection do. *)
Definition filter_ids (fts : list value) : list value :=
  map (fun ft => match getitem ft "_id" with Ok id => id | Raise _ => VNone end) fts.

Fixpoint ids_distinct (ids : list value) : bool :=
  match ids with
  | [] => true
  | id :: rest => negb (existsb (key_eqb id) rest) && ids_distinct rest
  end.

Section FilterVocabulary.
Context (E : externals) (database : gmap string (list value)) (alert : value).

(** A template passes under [id] with [first]: its pipeline is a list
    whose first stage has a [$match]; with the alert's [candid] put into that
    [$match], and nothing else changed, the store returns within the time
    budget a non-empty result that starts with [first]; and [id] is the
    template's [_id], hashable as a key must be. *)
Definition passes (filter_template id first : value) : Prop :=
  ∃ candid stage0 m stages rest,
    getitem alert "candid" = Ok candid ∧
    getitem filter_template "pipeline" = Ok (VList (VDict stage0 :: stages)) ∧
    dict_get "$match" stage0 = Some (VDict m) ∧
    aggregate E database "ZTF_alerts"
      (VList (VDict (dict_set "$match" (VDict (dict_set "candid" candid m)) stage0)
              :: stages)) 500
      = Ok (first :: rest) ∧
    getitem filter_template "_id" = Ok id ∧ hashable id = true.

(** The result of the last template of [fts] that passes under a key equal
    to [id]. *)
Fixpoint last_pass (fts : list value) (id : value) : option value :=
  match fts with
  | [] => None
  | ft :: rest =>
      match last_pass rest id with
      | Some first => Some first
      | None =>
          match run_filter E database ft alert "ZTF_alerts" 500 with
          | Ok (Some (id', first)) => if key_eqb id id' then Some first else None
          | _ => None
          end
      end
  end.

(** A template the evaluator can always get past: its [_id] is there for
    the error message and is not NaN, and what it raises is an
    [Exception]. *)
Definition well_formed (ft : value) : Prop :=
  is_Ok (getitem ft "_id") = true ∧
  (∀ x, getitem ft "_id" = Ok (VFloat x) → PrimFloat.eqb x x = true) ∧
  ∀ e, run_filter E database ft alert "ZTF_alerts" 500 = Raise e → is_Exception e = true.

End FilterVocabulary.

(** ** Vocabulary of further properties *)

(** [m] leaves the observation [f] of the world as it was. *)
Definition stable {X A} (f : world → X) (m : act A) : Prop :=
  ∀ w, f (m w).1 = f w.

(** Two documents that agree on every field but [prv_candidates]. *)
Definition same_but_prv (doc doc' : value) : Prop :=
  ∀ k, k ≠ "prv_candidates" → getitem doc' k = getitem doc k.

(** The last character of a string. *)
Fixpoint last_char (s : string) : option ascii :=
  match s with
  | EmptyString => None
  | String c EmptyString => Some c
  | String _ s' => last_char s'
  end.

(** A string without white space, as a token is: [str.split()] has nothing to
    cut in it. *)
Fixpoint no_blank (s : string) : bool :=
  match s with
  | EmptyString => true
  | String c s' => negb (is_space c) && no_blank s'
  end.

(** A string in which the character [sep] does not occur. *)
Fixpoint free_of (sep : ascii) (s : string) : bool :=
  match s with
  | EmptyString => true
  | String c s' => negb (Ascii.eqb c sep) && free_of sep s'
  end.

(** A prior candidate as it is stored: a dictionary without a null. *)
Definition null_free (prv_candidate : value) : bool :=
  match prv_candidate with
  | VDict d => forallb (fun kv => match kv.2 with VNone => false | _ => true end) d
  | _ => false
  end.

(** A document whose [prv_candidates], if it has them, are free of nulls. *)
Definition prv_null_free (doc : value) : Prop :=
  ∀ l, getitem doc "prv_candidates" = Ok (VList l) →
       Forall (fun p => null_free p = true) l.

Definition null_rel (name : string) : relation (gmap string (list value)) :=
  fun D D' =>
    Forall prv_null_free (coll name D) → Forall prv_null_free (coll name D').

(** ** A concrete deployment, for running the model *)

Module Demo.

Definition token_payload : value := VDict [("user_id", VStr "rita")].

(** A store whose aggregation fails on a [$fail] stage, returns the [$emit]
    stage's operand, returns the [candid] that the first stage matches on an
    [$echo] stage, and finds nothing otherwise. *)
Definition aggregate0 (_ : gmap string (list value)) (_ : string) (pipeline : value)
    (_ : Z) : result (list value) :=
  match pipeline with
  | VList (_ :: VDict [("$fail", _)] :: _) => Raise OperationFailure
  | VList (_ :: VDict [("$emit", VList out)] :: _) => Ok out
  | VList (VDict [("$match", VDict [("candid", candid)])] :: VDict [("$echo", _)] :: _) =>
      Ok [candid]
  | _ => Ok []
  end.

Definition E0 : externals := {|
  deg2hms := fun _ => Ok (VStr "00:40:00.0000");
  deg2dms := fun _ => Ok (VStr "20:00:00.000");
  radec2lb := fun _ _ => Ok (VFloat 0, VFloat 0);
  in_ellipse := fun _ _ _ _ _ _ _ => Ok false;
  great_circle_distance := fun _ _ _ _ => Ok 0%float;
  round2 := fun x => x;
  parse_float := fun _ => Raise ValueError;
  str_other := fun _ => "";
  ml_predict := fun _ _ => Ok 1%float;
  load_model := fun _ _ => Ok tt;
  find_geo := fun _ _ _ _ _ _ => Ok [];
  aggregate := aggregate0;
  bson_max := fun l => List.last l VNone;
  loads := fun v => match v with
                     | VStr "[]" => Ok (VList [])
                     | VStr _ => Raise ValueError
                     | _ => Raise TypeError
                     end;
  dumps := fun _ => Ok "";
  jwt_decode := fun token _ _ =>
    if String.eqb token "good" then Ok token_payload
    else if String.eqb token "old" then Raise ExpiredSignatureError
    else Raise DecodeError;
  make_photometry := fun _ => Ok VNone;
  make_thumbnail := fun _ _ _ => Ok VNone;
  session_post := fun _ _ => Ok tt
|}.

Definition cfg0 : config := {|
  collection_alerts := "ZTF_alerts";
  collection_alerts_aux := "ZTF_alerts_aux";
  collection_filters := "filters";
  cfg_ml_models := [("braai", VStr "d6_m9")];
  xmatch_catalogs := [("2MASS_PSC", ([], []))];
  cone_search_radius := 0x1.45f306dc9c883p-15;
  filter_pipeline_upstream := VList [VDict [("$match", VDict [("candid", VNone)])]];
  post_to_skyportal := false;
  skyportal_url := "https://localhost:443"
|}.

Definition w0 : world := World ∅ ∅ [] 0 0 0.

Definition c0 : consumer :=
  Consumer "ztf_20200301_programid1" [("braai", VDict [("version", VStr "d6_m9")])] [].

(** An alert record with the fields the ingester reads. *)
Definition alert_record (candid : Z) (objectId : string) (ra dec : float)
    (programpi : value) (prv : value) : value :=
  VDict [("candid", VInt candid); ("objectId", VStr objectId);
         ("candidate", VDict [("ra", VFloat ra); ("dec", VFloat dec);
                              ("programpi", programpi); ("rb", VFloat 0.9)]);
         ("prv_candidates", prv)].

Definition message_of (records : list value) : message :=
  Message None 0 "avro-bytes" (Ok records).

Definition one_message (records : list value) : poll_event :=
  ([], Some (message_of records)).

(** Scenarios 1 and 4 of the specification, and a record whose
    [prv_candidates] field is missing altogether. *)
Definition fresh_record : value :=
  alert_record 1001 "ZTF01" 10 20 (VStr "ZTF") (VList []).

Definition tess_record : value :=
  alert_record 2000 "ZTF02" 10 20 (VStr "TESS Guest Investigator") (VList []).

Definition record_without_prv : value :=
  VDict [("candid", VInt 1001); ("objectId", VStr "ZTF01");
         ("candidate", VDict [("ra", VFloat 10); ("dec", VFloat 20);
                              ("programpi", VStr "ZTF"); ("rb", VFloat 0.9)])].

Definition fresh_doc : pydict :=
  Eval vm_compute in
    match alert_mongify E0 fresh_record with
    | Ok (doc, _) => doc
    | Raise _ => []
    end.

(** A record whose [programpi] is null, as the alert schema allows, and a
    record of another object. *)
Definition null_programpi_record : value :=
  alert_record 1001 "ZTF01" 10 20 VNone (VList []).

Definition other_record : value :=
  alert_record 1002 "ZTF02" 30 40 (VStr "ZTF") (VList []).

(** Two alerts of one object; each reports the prior detection 1001, with
    different photometry. *)
Definition prior (magpsf : float) : value :=
  VDict [("candid", VInt 1001); ("magpsf", VFloat magpsf); ("nid", VNone)].

Definition stored_prior (magpsf : float) : value :=
  VDict [("candid", VInt 1001); ("magpsf", VFloat magpsf)].

Definition second_alert : value :=
  alert_record 1002 "ZTF01" 10 20 (VStr "ZTF") (VList [prior 18]).

Definition third_alert : value :=
  alert_record 1003 "ZTF01" 10 20 (VStr "ZTF") (VList [prior 18.5]).

Definition run (evs : list poll_event) (w : world) : world :=
  (listener_loop E0 cfg0 c0 "/alerts" "/tess" "20200301" true false evs w).1.

(** A message that only signals the end of a partition. *)
Definition eof_message (partition : Z) : message :=
  Message (Some (-191)) partition "" (Ok []).

(** A template as the [filters] collection stores it. *)
Definition stored_template (id program created : Z) : value :=
  VDict [("_id", VInt id); ("catalog", VStr "ZTF_alerts");
         ("science_program_id", VInt program); ("created", VInt created);
         ("pipeline", VStr "[]")].

(** Two science programs with one template each. *)
Definition filters_db : gmap string (list value) :=
  {[ "filters" := [stored_template 10 1 200; stored_template 11 2 100] ]}.

Definition request_with (authorization : option string) : request :=
  Request (match authorization with
           | Some a => [("Authorization", a)]
           | None => []
           end) "secret" "HS256" VNone.

(** A loaded filter template: the upstream [$match] and one more stage. *)
Definition template (id : Z) (stage : list (string * value)) : value :=
  VDict [("_id", VInt id);
         ("pipeline", VList [VDict [("$match", VDict [("candid", VNone)])]; VDict stage])].

(** A handler that answers with the user it was called for. *)
Definition whoami (req : request) : result response :=
  Ok (Response 200 (user req)).

(** A listing of two topics, one of them of ZUDS, and processes that all
    are alive, or all dead. *)
Definition watch_env (alive : bool) : pass_env :=
  PassEnv (fun _ => Ok (fold_right (fun t acc => t +:+ String "010" acc) ""
                          ["ztf_20200301_programid1"; "ztf_20200301_programid2_zuds"]))
          "20200301" (fun _ _ => Ok tt) (fun _ => Ok alive).

(** Externals whose [load_model] is [f], and a configuration that names the
    models [models]. *)
Definition with_load_model (f : string → value → result unit) (E : externals) : externals := {|
  deg2hms := deg2hms E; deg2dms := deg2dms E; radec2lb := radec2lb E;
  in_ellipse := in_ellipse E; great_circle_distance := great_circle_distance E;
  round2 := round2 E; parse_float := parse_float E; str_other := str_other E;
  ml_predict := ml_predict E; load_model := f; find_geo := find_geo E;
  aggregate := aggregate E; bson_max := bson_max E; loads := loads E; dumps := dumps E;
  jwt_decode := jwt_decode E; make_photometry := make_photometry E;
  make_thumbnail := make_thumbnail E; session_post := session_post E
|}.

Definition with_ml_models (models : list (string * value)) (cfg : config) : config := {|
  collection_alerts := collection_alerts cfg;
  collection_alerts_aux := collection_alerts_aux cfg;
  collection_filters := collection_filters cfg;
  cfg_ml_models := models;
  xmatch_catalogs := xmatch_catalogs cfg;
  cone_search_radius := cone_search_radius cfg;
  filter_pipeline_upstream := filter_pipeline_upstream cfg;
  post_to_skyportal := post_to_skyportal cfg;
  skyportal_url := skyportal_url cfg
|}.

(** The file of [braai] is there, the file of [acai] is not a model. *)
Definition only_braai_loads (m : string) (m_v : value) : result unit :=
  if String.eqb m "braai" then Ok tt else Raise ValueError.

End Demo.

(** * Properties *)

(** ** Values and dictionaries *)


Lemma value_eqb_eq (x y : value) : value_eqb x y = true ↔ x = y.
Proof.
  revert y. induction x as [| | | | | |l IH|d IH] using value_ind;
    intros [] ; simpl; try (split; [discriminate | congruence]); try tauto.
  - rewrite Bool.eqb_true_iff. split; congruence.
  - rewrite Z.eqb_eq. split; congruence.
  - rewrite FloatAxioms.Leibniz.eqb_spec. split; congruence.
  - rewrite String.eqb_eq. split; congruence.
  - rewrite N.eqb_eq. split; congruence.
  - rename l0 into l'. revert l'.
    induction IH as [|x l Hx _ IHl]; intros [|y l']; simpl;
      try (split; [discriminate | congruence]); try tauto.
    rewrite andb_true_iff, Hx, IHl. split; [intros [-> [= ->]]; done | intros [= -> ->]; done].
  - rename d0 into d'. revert d'.
    induction IH as [|[k x] d Hx _ IHd]; intros [|[k' y] d']; simpl;
      try (split; [discriminate | congruence]); try tauto.
    simpl in Hx. rewrite !andb_true_iff, String.eqb_eq, Hx, IHd.
    split; [intros [[-> ->] [= ->]]; done | intros [= -> -> ->]; done].
Qed.

Lemma value_eqb_refl (x : value) : value_eqb x x = true.
Proof. by apply value_eqb_eq. Qed.

Lemma value_eqb_neq (x y : value) : value_eqb x y = false ↔ x ≠ y.
Proof.
  rewrite <- value_eqb_eq. destruct (value_eqb x y); split; congruence.
Qed.

Lemma value_inb_In (x : value) (l : list value) : value_inb x l = true ↔ x ∈ l.
Proof.
  unfold value_inb. rewrite existsb_exists, list_elem_of_In. split.
  - intros (y & Hy & Heq). apply value_eqb_eq in Heq. by subst.
  - intros Hx. exists x. split; [done | apply value_eqb_refl].
Qed.

Lemma dict_get_set_eq {V} (k : string) (v : V) (d : list (string * V)) :
  dict_get k (dict_set k v d) = Some v.
Proof.
  induction d as [|[k' v'] d IH]; simpl.
  - by rewrite String.eqb_refl.
  - destruct (String.eqb k k') eqn:Hk; simpl; by rewrite ?String.eqb_refl, ?Hk.
Qed.

Lemma dict_get_set_ne {V} (k k' : string) (v : V) (d : list (string * V)) :
  k ≠ k' → dict_get k' (dict_set k v d) = dict_get k' d.
Proof.
  intros Hne. induction d as [|[k0 v0] d IH]; simpl.
  - destruct (String.eqb_spec k' k); congruence.
  - destruct (String.eqb_spec k k0) as [->|]; simpl.
    + destruct (String.eqb_spec k' k0); congruence.
    + by rewrite IH.
Qed.

Lemma dict_get_pop_eq {V} (k : string) (d : list (string * V)) :
  dict_get k (dict_pop k d) = None.
Proof.
  induction d as [|[k0 v0] d IH]; simpl; [done|].
  destruct (String.eqb k k0) eqn:Hk; [done|]. simpl. by rewrite Hk.
Qed.

Lemma dict_get_pop_ne {V} (k k' : string) (d : list (string * V)) :
  k ≠ k' → dict_get k' (dict_pop k d) = dict_get k' d.
Proof.
  intros Hne. induction d as [|[k0 v0] d IH]; simpl; [done|].
  destruct (String.eqb_spec k k0) as [->|]; simpl.
  - destruct (String.eqb_spec k' k0); congruence.
  - by rewrite IH.
Qed.

Lemma dict_set_set {V} (k : string) (v v' : V) (d : list (string * V)) :
  dict_set k v (dict_set k v' d) = dict_set k v d.
Proof.
  induction d as [|[k0 v0] d IH]; simpl.
  - by rewrite String.eqb_refl.
  - destruct (String.eqb k k0) eqn:Hk; simpl.
    + by rewrite String.eqb_refl.
    + by rewrite Hk, IH.
Qed.

(** ** Inverting the result monad *)

Lemma bind_Ok {A B} (m : result A) (f : A → result B) (b : B) :
  m ≫= f = Ok b → ∃ a, m = Ok a ∧ f a = Ok b.
Proof. destruct m as [a|e]; simpl; [eauto | discriminate]. Qed.

Lemma bind_Ok_l {A B} (a : A) (f : A → result B) : Ok a ≫= f = f a.
Proof. reflexivity. Qed.

Ltac inv_bind H :=
  repeat match type of H with
         | (_ ≫= _) = Ok _ =>
             let a := fresh "a" in let Ha := fresh "Ha" in
             apply bind_Ok in H as (a & Ha & H)
         end.

Lemma getitem_Ok (v : value) (k : string) (x : value) :
  getitem v k = Ok x ↔ ∃ d, v = VDict d ∧ dict_get k d = Some x.
Proof.
  destruct v; simpl; try (split; [discriminate | intros (? & [=] & _)]).
  destruct (dict_get k d) eqn:Hd.
  - split; [intros [= ->]; eauto | intros (? & [= <-] & ?); congruence].
  - split; [discriminate | intros (? & [= <-] & ?); congruence].
Qed.

Lemma setitem2_Ok (d : pydict) (k1 k2 : string) (x : value) (d' : pydict) :
  setitem2 d k1 k2 x = Ok d' →
  ∃ i, dict_get k1 d = Some (VDict i) ∧ d' = dict_set k1 (VDict (dict_set k2 x i)) d.
Proof.
  unfold setitem2. intros H. apply bind_Ok in H as (inner & Hi & H).
  apply getitem_Ok in Hi as (? & [= <-] & Hi).
  destruct inner; try discriminate. injection H as <-. eauto.
Qed.

(** ** The alert normaliser *)

Section Normaliser.
Context (E : externals).

Lemma mongify_coordinates_Ok (doc doc' : pydict) :
  mongify_coordinates E doc = Ok doc' →
  ∃ cand ra dec hms dms ra180 l b,
    dict_get "candidate" doc = Some cand ∧
    getitem cand "ra" = Ok ra ∧ getitem cand "dec" = Ok dec ∧
    deg2hms E ra = Ok hms ∧ deg2dms E dec = Ok dms ∧
    py_sub_float ra 180%float = Ok ra180 ∧
    radec2lb E ra dec = Ok (l, b) ∧
    doc' = dict_set "coordinates"
             (VDict [("radec_str", VList [hms; dms]);
                     ("radec_geojson",
                      VDict [("type", VStr "Point"); ("coordinates", VList [ra180; dec])]);
                     ("l", l); ("b", b)]) doc.
Proof.
  unfold mongify_coordinates. intros H.
  inv_bind H. destruct a12 as [l b]. inv_bind H.
  apply getitem_Ok in Ha as (? & [= <-] & Ha), Ha1 as (? & [= <-] & Ha1).
  rewrite dict_get_set_ne in Ha, Ha1 by done.
  assert (a1 = a) as -> by congruence.
  apply setitem2_Ok in Ha5 as (i5 & Hi5 & ->).
  rewrite dict_get_set_eq in Hi5. injection Hi5 as <-.
  rewrite dict_set_set in Ha7.
  apply setitem2_Ok in Ha7 as (i7 & Hi7 & ->).
  rewrite dict_get_set_eq in Hi7. injection Hi7 as <-.
  rewrite dict_set_set in Ha8, Ha10, Ha13.
  apply getitem_Ok in Ha8 as (? & [= <-] & Ha8), Ha10 as (? & [= <-] & Ha10).
  rewrite dict_get_set_ne in Ha8, Ha10 by done.
  assert (a8 = a) as -> by congruence. assert (a10 = a) as -> by congruence.
  assert (a9 = a0) as -> by congruence. assert (a11 = a2) as -> by congruence.
  apply setitem2_Ok in Ha13 as (i & Hi & ->).
  rewrite dict_get_set_eq in Hi. injection Hi as <-.
  rewrite dict_set_set in H.
  apply setitem2_Ok in H as (i & Hi & ->).
  rewrite dict_get_set_eq in Hi. injection Hi as <-.
  rewrite dict_set_set. simpl.
  exists a, a0, a2, a3, a4, a6, l, b. done.
Qed.

(** The converse: these are the only ways the block can fail. *)
Lemma mongify_coordinates_complete (doc : pydict) (cand ra dec hms dms ra180 l b : value) :
  dict_get "candidate" doc = Some cand →
  getitem cand "ra" = Ok ra → getitem cand "dec" = Ok dec →
  deg2hms E ra = Ok hms → deg2dms E dec = Ok dms →
  py_sub_float ra 180%float = Ok ra180 →
  radec2lb E ra dec = Ok (l, b) →
  mongify_coordinates E doc =
    Ok (dict_set "coordinates"
          (VDict [("radec_str", VList [hms; dms]);
                  ("radec_geojson",
                   VDict [("type", VStr "Point"); ("coordinates", VList [ra180; dec])]);
                  ("l", l); ("b", b)]) doc).
Proof.
  intros Hc Hra Hdec Hh Hd Hs Hlb. unfold mongify_coordinates.
  assert (Hg : ∀ x, getitem (VDict (dict_set "coordinates" x doc)) "candidate" = Ok cand).
  { intros x. simpl. by rewrite dict_get_set_ne, Hc. }
  assert (Hset : ∀ k x i, setitem2 (dict_set "coordinates" (VDict i) doc) "coordinates" k x
                 = Ok (dict_set "coordinates" (VDict (dict_set k x i)) doc)).
  { intros k x i. unfold setitem2. simpl. rewrite dict_get_set_eq. simpl.
    by rewrite dict_set_set. }
  cbv zeta.
  repeat (progress rewrite ?bind_Ok_l, ?Hg, ?Hra, ?Hdec, ?Hh, ?Hd, ?Hset, ?Hs, ?Hlb).
  done.
Qed.

(** What can be indexed by a name is a dictionary, and [dict] copies it. *)
Lemma getitem_py_dict (v : value) (k : string) (x : value) (d : pydict) :
  getitem v k = Ok x → py_dict v = Ok d → v = VDict d.
Proof. destruct v; try discriminate. by intros _ [= ->]. Qed.

Lemma alert_mongify_Ok (alert : value) (doc : pydict) (prv : value) :
  alert_mongify E alert = Ok (doc, prv) →
  ∃ d0 d1 v,
    py_dict alert = Ok d0 ∧
    mongify_coordinates E (dict_set "classifications" (VDict []) d0) = Ok d1 ∧
    dict_get "prv_candidates" d1 = Some v ∧
    doc = dict_pop "prv_candidates" d1 ∧
    prv = match v with VNone => VList [] | _ => v end.
Proof.
  unfold alert_mongify. intros H. inv_bind H.
  apply getitem_Ok in Ha1 as (? & [= <-] & Ha1).
  injection H as <- <-. eauto 10.
Qed.

(** What the normaliser leaves under [coordinates]. *)
Lemma alert_mongify_coordinates (alert : value) (doc : pydict) (prv : value) :
  alert_mongify E alert = Ok (doc, prv) →
  ∃ d cand ra dec hms dms ra180 l b,
    py_dict alert = Ok d ∧ dict_get "candidate" d = Some cand ∧
    getitem cand "ra" = Ok ra ∧ getitem cand "dec" = Ok dec ∧
    py_sub_float ra 180%float = Ok ra180 ∧
    dict_get "coordinates" doc =
      Some (VDict [("radec_str", VList [hms; dms]);
                   ("radec_geojson",
                    VDict [("type", VStr "Point"); ("coordinates", VList [ra180; dec])]);
                   ("l", l); ("b", b)]).
Proof.
  intros H.
  apply alert_mongify_Ok in H as (d0 & d1 & v & Hd0 & Hm & _ & -> & _).
  apply mongify_coordinates_Ok in Hm
    as (cand & ra & dec & hms & dms & ra180 & l & b
        & Hc & Hra & Hdec & _ & _ & Hsub & _ & ->).
  rewrite dict_get_set_ne in Hc by done.
  exists d0, cand, ra, dec, hms, dms, ra180, l, b. repeat split; try done.
  rewrite dict_get_pop_ne by done. by rewrite dict_get_set_eq.
Qed.

(** C4. For every alert that the normaliser accepts, with candidate
    coordinates [ra] and [dec], the primary document's
    [coordinates.radec_geojson] is the GeoJSON point
    [{type: "Point", coordinates: [ra - 180.0, dec]}]: the first coordinate
    is Python's [ra - 180.0] and the second is [dec] itself. *)
Theorem alert_mongify_radec_geojson (alert : value) (doc : pydict) (prv cand ra dec : value) :
  alert_mongify E alert = Ok (doc, prv) →
  getitem alert "candidate" = Ok cand →
  getitem cand "ra" = Ok ra →
  getitem cand "dec" = Ok dec →
  ∃ ra180,
    py_sub_float ra 180%float = Ok ra180 ∧
    (∀ x, ra = VFloat x → ra180 = VFloat (x - 180)%float) ∧
    (coordinates ← getitem (VDict doc) "coordinates";
     getitem coordinates "radec_geojson") =
      Ok (VDict [("type", VStr "Point"); ("coordinates", VList [ra180; dec])]).
Proof.
  intros H Hc Hra Hdec.
  apply alert_mongify_coordinates in H
    as (d & cand' & ra' & dec' & hms & dms & ra180 & l & b
        & Hd & Hc' & Hra' & Hdec' & Hsub & Hco).
  apply (getitem_py_dict _ _ _ _ Hc) in Hd as ->.
  simpl in Hc. rewrite Hc' in Hc. injection Hc as ->.
  assert (ra' = ra) as -> by congruence. assert (dec' = dec) as -> by congruence.
  exists ra180. split; [done|]. split.
  - intros x ->. simpl in Hsub. congruence.
  - simpl. by rewrite Hco.
Qed.

(** C9, as the code has it.  For every raw alert record that carries the
    [prv_candidates] field and whose coordinates normalise, [alert_mongify]
    returns without raising: the primary document has no [prv_candidates]
    key, and the prior observations come back separately, as the empty list
    when the field is null and as the field's own value otherwise. *)
Theorem alert_mongify_prv_candidates (d : pydict) (v cand ra dec hms dms ra180 l b : value) :
  dict_get "prv_candidates" d = Some v →
  dict_get "candidate" d = Some cand →
  getitem cand "ra" = Ok ra → getitem cand "dec" = Ok dec →
  deg2hms E ra = Ok hms → deg2dms E dec = Ok dms →
  py_sub_float ra 180%float = Ok ra180 →
  radec2lb E ra dec = Ok (l, b) →
  ∃ doc,
    alert_mongify E (VDict d) =
      Ok (doc, match v with VNone => VList [] | _ => v end) ∧
    dict_get "prv_candidates" doc = None ∧
    (∀ k, k ≠ "prv_candidates" → k ≠ "classifications" → k ≠ "coordinates" →
          dict_get k doc = dict_get k d).
Proof.
  intros Hv Hc Hra Hdec Hh Hd Hs Hlb. unfold alert_mongify. simpl.
  erewrite mongify_coordinates_complete; eauto.
  2: { by rewrite dict_get_set_ne. }
  simpl. rewrite !dict_get_set_ne by done. rewrite Hv.
  eexists. split; [reflexivity|]. split.
  - apply dict_get_pop_eq.
  - intros k H1 H2 H3. rewrite dict_get_pop_ne by done.
    by rewrite !dict_get_set_ne.
Qed.

End Normaliser.

Lemma alert_mongify_radec_geojson_witness :
  alert_mongify Demo.E0 Demo.fresh_record = Ok (Demo.fresh_doc, VList []) ∧
  ∃ ra180,
    py_sub_float (VFloat 10) 180%float = Ok ra180 ∧
    (∀ x, VFloat 10 = VFloat x → ra180 = VFloat (x - 180)%float) ∧
    (coordinates ← getitem (VDict Demo.fresh_doc) "coordinates";
     getitem coordinates "radec_geojson") =
      Ok (VDict [("type", VStr "Point"); ("coordinates", VList [ra180; VFloat 20])]).
Proof.
  split; [vm_compute; reflexivity|].
  eapply (alert_mongify_radec_geojson Demo.E0 Demo.fresh_record Demo.fresh_doc (VList []));
    vm_compute; reflexivity.
Defined.

(** Scenario 1: [ra = 10.0], [dec = 20.0] give [[-170.0, 20.0]]. *)
Example fresh_record_geojson :
  (coordinates ← getitem (VDict Demo.fresh_doc) "coordinates";
   getitem coordinates "radec_geojson") =
    Ok (VDict [("type", VStr "Point");
               ("coordinates", VList [VFloat (-170); VFloat 20])]).
Proof. vm_compute. reflexivity. Qed.

(** C9 fails as stated: a record without the [prv_candidates] key is not
    normalised to an empty list, the lookup raises [KeyError]. *)
Lemma alert_mongify_absent_prv_raises :
  dict_get "prv_candidates"
    (match Demo.record_without_prv with VDict d => d | _ => [] end) = None ∧
  alert_mongify Demo.E0 Demo.record_without_prv = Raise KeyError.
Proof. split; vm_compute; reflexivity. Qed.

Lemma alert_mongify_prv_candidates_witness :
  ∃ doc,
    alert_mongify Demo.E0
      (Demo.alert_record 1001 "ZTF01" 10 20 (VStr "ZTF") VNone) = Ok (doc, VList []) ∧
    dict_get "prv_candidates" doc = None.
Proof.
  destruct (alert_mongify_prv_candidates Demo.E0
              [("candid", VInt 1001); ("objectId", VStr "ZTF01");
               ("candidate", VDict [("ra", VFloat 10); ("dec", VFloat 20);
                                    ("programpi", VStr "ZTF"); ("rb", VFloat 0.9)]);
               ("prv_candidates", VNone)]
              VNone
              (VDict [("ra", VFloat 10); ("dec", VFloat 20);
                      ("programpi", VStr "ZTF"); ("rb", VFloat 0.9)])
              (VFloat 10) (VFloat 20) (VStr "00:40:00.0000") (VStr "20:00:00.000")
              (VFloat (-170)) (VFloat 0) (VFloat 0))
    as (doc & Hdoc & Hnone & _); try (vm_compute; reflexivity).
  exists doc. split; [exact Hdoc | exact Hnone].
Defined.

(** ** The auth middleware *)

Section MiddlewareProperties.
Context (E : externals).


End MiddlewareProperties.



(** ** The filter evaluator *)

Lemma key_eqb_norm (k k' : value) :
  key_eqb k k' = true ↔ ∃ a, key_norm k = Some a ∧ key_norm k' = Some a.
Proof.
  unfold key_eqb. split.
  - destruct (key_norm k) as [a|], (key_norm k') as [b|]; try discriminate.
    intros ->%value_eqb_eq. eauto.
  - intros (a & -> & ->). apply value_eqb_refl.
Qed.

Lemma key_eqb_sym (k k' : value) : key_eqb k k' = key_eqb k' k.
Proof.
  destruct (key_eqb k k') eqn:H, (key_eqb k' k) eqn:H'; try done.
  - apply key_eqb_norm in H as (a & Ha & Ha').
    rewrite (proj2 (key_eqb_norm k' k)) in H' by eauto. done.
  - apply key_eqb_norm in H' as (a & Ha & Ha').
    rewrite (proj2 (key_eqb_norm k k')) in H by eauto. done.
Qed.

Lemma key_eqb_trans (k a b : value) : key_eqb a b = true → key_eqb k a = key_eqb k b.
Proof.
  intros (n & Ha & Hb)%key_eqb_norm. unfold key_eqb. by rewrite Ha, Hb.
Qed.

(** A hashable value that is not NaN is a key equal to itself. *)
Lemma key_eqb_refl (id : value) :
  hashable id = true → (∀ x, id = VFloat x → PrimFloat.eqb x x = true) →
  key_eqb id id = true.
Proof.
  intros Hh Hnan. apply key_eqb_norm.
  destruct id as [| | |x| | | |]; simpl in *; try discriminate; eauto.
  destruct (float_Z x); [eauto|]. rewrite (Hnan x eq_refl). eauto.
Qed.

Lemma vdict_get_set (k k' v : value) (d : list (value * value)) :
  vdict_get k (vdict_set k' v d) = if key_eqb k k' then Some v else vdict_get k d.
Proof.
  induction d as [|[k0 v0] d IH]; simpl; [done|].
  destruct (key_eqb k' k0) eqn:Hk; simpl.
  - rewrite (key_eqb_trans k k' k0 Hk). by destruct (key_eqb k k0).
  - rewrite IH. destruct (key_eqb k k') eqn:Hkk; [|done].
    rewrite (key_eqb_sym k k0), (key_eqb_trans k0 k k' Hkk), (key_eqb_sym k0 k'), Hk.
    done.
Qed.

(** Equal keys find the same entry. *)
Lemma vdict_get_key (k k' : value) (d : list (value * value)) :
  key_eqb k k' = true → vdict_get k d = vdict_get k' d.
Proof.
  intros Hk. induction d as [|[k0 v0] d IH]; simpl; [done|].
  by rewrite (key_eqb_sym k k0), (key_eqb_trans k0 k k' Hk), (key_eqb_sym k0 k'), IH.
Qed.

Lemma rebind_candid_Ok (ft candid pipeline : value) :
  rebind_candid ft candid = Ok pipeline ↔
  ∃ stage0 m stages,
    getitem ft "pipeline" = Ok (VList (VDict stage0 :: stages)) ∧
    dict_get "$match" stage0 = Some (VDict m) ∧
    pipeline = VList (VDict (dict_set "$match" (VDict (dict_set "candid" candid m)) stage0)
                      :: stages).
Proof.
  unfold rebind_candid. split.
  - intros H. apply bind_Ok in H as (p & Hp & H). apply bind_Ok in H as (s0 & Hs0 & H).
    apply bind_Ok in H as (m & Hm & H).
    destruct p as [| | | | | |[|x stages]|]; try discriminate.
    injection Hs0 as ->.
    destruct s0 as [| | | | | | |stage0]; try discriminate.
    destruct m as [| | | | | | |md]; try discriminate.
    injection H as <-. exists stage0, md, stages. split; [done|]. split; [|done].
    simpl in Hm. by destruct (dict_get "$match" stage0); [injection Hm as ->|].
  - intros (stage0 & m & stages & -> & Hm & ->). simpl. by rewrite Hm.
Qed.

Section FilterEvaluator.
Context (E : externals) (database : gmap string (list value)) (alert : value).

Lemma run_filter_passes (ft id first : value) :
  run_filter E database ft alert "ZTF_alerts" 500 = Ok (Some (id, first)) ↔
  passes E database alert ft id first.
Proof.
  unfold run_filter, passes. split.
  - intros H. apply bind_Ok in H as (candid & Hc & H).
    apply bind_Ok in H as (pipeline & Hp & H).
    apply bind_Ok in H as (passed_filter & Ha & H).
    destruct passed_filter as [|f rest]; [discriminate|].
    apply bind_Ok in H as (id' & Hid & H).
    destruct (hashable id') eqn:Hh; [|discriminate]. injection H as <- <-.
    apply rebind_candid_Ok in Hp as (stage0 & m & stages & Hpl & Hm & ->).
    exists candid, stage0, m, stages, rest. done.
  - intros (candid & stage0 & m & stages & rest & -> & Hpl & Hm & Ha & Hi & Hh). simpl.
    assert (rebind_candid ft candid
            = Ok (VList (VDict (dict_set "$match" (VDict (dict_set "candid" candid m)) stage0)
                         :: stages))) as ->.
    { apply rebind_candid_Ok. by exists stage0, m, stages. }
    simpl. rewrite Ha. simpl. rewrite Hi. simpl. by rewrite Hh.
Qed.

Lemma user_defined_loop_spec (fts : list value) (acc : list (value * value)) :
  is_Ok (getitem alert "candid") = true →
  Forall (well_formed E database alert) fts →
  ∃ passed,
    user_defined_loop E database fts alert "ZTF_alerts" 500 acc = Ok passed ∧
    ∀ id, vdict_get id passed =
          match last_pass E database alert fts id with
          | Some first => Some first
          | None => vdict_get id acc
          end.
Proof.
  intros Hc Hwf. revert acc.
  induction Hwf as [|ft fts (Hid & _ & Hex) _ IH]; intros acc; simpl.
  - eauto.
  - destruct (run_filter E database ft alert "ZTF_alerts" 500) as [[[id first]|]|e] eqn:Hr.
    + destruct (IH (vdict_set id first acc)) as (passed & -> & Hp).
      exists passed. split; [done|]. intros k. rewrite Hp, vdict_get_set.
      by destruct (last_pass E database alert fts k), (key_eqb k id).
    + destruct (IH acc) as (passed & -> & Hp). exists passed. split; [done|].
      intros k. rewrite Hp. by destruct (last_pass E database alert fts k).
    + rewrite (Hex e eq_refl).
      destruct (getitem ft "_id"); [|discriminate].
      destruct (getitem alert "candid"); [|discriminate]. simpl.
      destruct (IH acc) as (passed & -> & Hp). exists passed. split; [done|].
      intros k. rewrite Hp. by destruct (last_pass E database alert fts k).
Qed.

(** [last_pass] finds the result of a template that passes under a key
    equal to [id], after which no template passes under such a key. *)
Lemma last_pass_Some (fts : list value) (id first : value) :
  last_pass E database alert fts id = Some first ↔
  ∃ i ft id', fts !! i = Some ft ∧ key_eqb id id' = true ∧
              passes E database alert ft id' first ∧
              ∀ j ft' id'' first', (i < j)%nat → fts !! j = Some ft' →
                passes E database alert ft' id'' first' → key_eqb id id'' = false.
Proof.
  revert first. induction fts as [|ft fts IH]; intros first; simpl.
  - split; [discriminate | intros (i & ft & ? & Hi & _); by destruct i].
  - destruct (last_pass E database alert fts id) as [f|] eqn:Hl.
    + split.
      * intros [= ->].
        destruct (proj1 (IH first) eq_refl) as (i & ft' & id' & Hi & Hk & Hp & Hlast).
        exists (S i), ft', id'. split; [done|]. split; [done|]. split; [done|].
        intros [|j] ft'' id'' first' Hj; [lia|]. simpl. apply Hlast. lia.
      * intros ([|i] & ft' & id' & Hi & Hk & Hp & Hlast); simpl in Hi.
        -- destruct (proj1 (IH f) eq_refl) as (j & ft'' & id'' & Hj & Hk' & Hp' & _).
           rewrite (Hlast (S j) ft'' id'' f) in Hk'; [done | lia | done | done].
        -- apply (IH first). exists i, ft', id'. split; [done|]. split; [done|].
           split; [done|].
           intros j ft'' id'' first' Hj Hj'. apply (Hlast (S j)); [lia | done].
    + assert (Hnone : ∀ j ft' id' first', fts !! j = Some ft' →
                passes E database alert ft' id' first' → key_eqb id id' = false).
      { intros j ft' id' first' Hj Hp. destruct (key_eqb id id') eqn:Hk; [|done].
        assert (Hex : ∃ f, last_pass E database alert fts id = Some f);
          [|destruct Hex; congruence].
        clear IH Hl. revert j Hj. induction fts as [|g fts IHf]; intros j Hj; [by destruct j|].
        simpl. destruct (last_pass E database alert fts id) eqn:Hl'; [eauto|].
        destruct j as [|j]; simpl in Hj.
        - injection Hj as ->. apply run_filter_passes in Hp. rewrite Hp, Hk. eauto.
        - destruct (IHf j Hj) as [? ?]. congruence. }
      split.
      * intros H.
        destruct (run_filter E database ft alert "ZTF_alerts" 500) as [[[id' f]|]|] eqn:Hr;
          try discriminate.
        destruct (key_eqb id id') eqn:Hid; [|discriminate]. injection H as ->.
        exists 0%nat, ft, id'. split; [done|]. split; [done|].
        split; [by apply run_filter_passes|].
        intros [|j] ft' id'' first' Hj; [lia|]. simpl. apply Hnone.
      * intros ([|i] & ft' & id' & Hi & Hk & Hp & Hlast); simpl in Hi.
        -- injection Hi as ->. apply run_filter_passes in Hp. by rewrite Hp, Hk.
        -- rewrite (Hnone i ft' id' first Hi Hp) in Hk. done.
Qed.

Lemma ids_distinct_lookup (ids : list value) (i j : nat) (a b : value) :
  ids_distinct ids = true → ids !! i = Some a → ids !! j = Some b →
  key_eqb a b = true → i = j.
Proof.
  assert (Hlt : ∀ ids i j a b, ids_distinct ids = true → ids !! i = Some a →
                  ids !! j = Some b → key_eqb a b = true → (i < j)%nat → False).
  { clear. intros ids. induction ids as [|id ids IH]; intros i j a b Hd Hi Hj Hk Hlt;
      [by destruct i|].
    simpl in Hd. apply andb_true_iff in Hd as [Hin Hd]. apply negb_true_iff in Hin.
    destruct j as [|j]; [lia|]. destruct i as [|i]; simpl in Hi, Hj.
    - injection Hi as ->.
      assert (existsb (key_eqb a) ids = true); [|congruence].
      apply existsb_exists. exists b. split; [|done].
      apply list_elem_of_In, list_elem_of_lookup. eauto.
    - apply (IH i j a b); [done | done | done | done | lia]. }
  intros Hd Hi Hj Hk. destruct (lt_eq_lt_dec i j) as [[Hij | Hij] | Hij]; [|done|].
  - destruct (Hlt ids i j a b); done.
  - rewrite key_eqb_sym in Hk. destruct (Hlt ids j i b a); done.
Qed.

Lemma filter_ids_lookup (fts : list value) (i : nat) (ft id : value) :
  fts !! i = Some ft → getitem ft "_id" = Ok id → filter_ids fts !! i = Some id.
Proof.
  intros Hi Hid. unfold filter_ids. by rewrite list_lookup_fmap, Hi; simpl; rewrite Hid.
Qed.

Lemma passes_id (ft id first : value) :
  passes E database alert ft id first → getitem ft "_id" = Ok id ∧ hashable id = true.
Proof. by intros (? & ? & ? & ? & ? & _ & _ & _ & _ & ? & ?). Qed.

(** C6.  For every alert and every list of filter templates (each
    carrying its [_id], each either returning or raising an [Exception]),
    the evaluator returns a map, having visited every template.  An entry
    of the map always comes from a template that passes: with the alert's
    [candid] put into the [$match] of its first stage, its pipeline returned
    a non-empty result, and the entry is that result's first element; a
    template that raises, times out or returns nothing contributes no entry.
    A template that passes has its first result under its [_id], whatever
    the other templates do, unless a later template passes under an [_id]
    that is the same key and overwrites it.  So when the [_id]s differ
    pairwise, the map has under each template's [_id] the first result of
    that template exactly when it passes, and nothing otherwise.  Keys are
    compared as a dictionary compares them: [1], [1.0] and [True] are one
    key. *)
Theorem filter_isolation (fts : list value) :
  is_Ok (getitem alert "candid") = true →
  Forall (well_formed E database alert) fts →
  ∃ passed,
    alert_filter__user_defined E database fts alert = Ok passed ∧
    (∀ id first, vdict_get id passed = Some first →
       ∃ ft id', ft ∈ fts ∧ key_eqb id id' = true ∧
                 passes E database alert ft id' first) ∧
    (∀ i ft id first,
       fts !! i = Some ft → passes E database alert ft id first →
       (∀ j ft' id' first', (i < j)%nat → fts !! j = Some ft' →
                            passes E database alert ft' id' first' →
                            key_eqb id id' = false) →
       vdict_get id passed = Some first) ∧
    (ids_distinct (filter_ids fts) = true →
     ∀ ft id first, ft ∈ fts → getitem ft "_id" = Ok id →
       (vdict_get id passed = Some first ↔ passes E database alert ft id first)).
Proof.
  intros Hc Hwf.
  destruct (user_defined_loop_spec fts [] Hc Hwf) as (passed & Hl & Hp).
  assert (Hrefl : ∀ i ft id first, fts !! i = Some ft →
            passes E database alert ft id first → key_eqb id id = true).
  { intros i ft id first Hi [Hid Hh]%passes_id.
    rewrite Forall_forall in Hwf.
    destruct (Hwf ft ltac:(apply list_elem_of_lookup; eauto)) as (_ & Hnan & _).
    apply key_eqb_refl; [done|]. intros x ->. by apply Hnan. }
  assert (Hsound : ∀ id first, vdict_get id passed = Some first →
            ∃ i ft id', fts !! i = Some ft ∧ key_eqb id id' = true ∧
                        passes E database alert ft id' first).
  { intros id first Hg. rewrite Hp in Hg. simpl in Hg.
    destruct (last_pass E database alert fts id) as [f|] eqn:Hlast; [|discriminate].
    injection Hg as ->.
    apply last_pass_Some in Hlast as (i & ft & id' & Hi & Hk & Hpass & _). eauto 10. }
  assert (Hcomplete : ∀ i ft id first,
            fts !! i = Some ft → passes E database alert ft id first →
            (∀ j ft' id' first', (i < j)%nat → fts !! j = Some ft' →
                                 passes E database alert ft' id' first' →
                                 key_eqb id id' = false) →
            vdict_get id passed = Some first).
  { intros i ft id first Hi Hpass Hlater. rewrite Hp.
    assert (last_pass E database alert fts id = Some first) as ->; [|done].
    apply last_pass_Some. exists i, ft, id. split; [done|].
    split; [by eapply Hrefl|]. done. }
  exists passed. split; [exact Hl|]. split; [|split; [exact Hcomplete|]].
  - intros id first Hg. destruct (Hsound id first Hg) as (i & ft & id' & Hi & Hk & Hpass).
    exists ft, id'. split; [|done]. apply list_elem_of_lookup. eauto.
  - intros Hdistinct ft id first [i Hi]%list_elem_of_lookup Hid.
    assert (Hsame : ∀ j ft' id' first', fts !! j = Some ft' →
              passes E database alert ft' id' first' → key_eqb id id' = true → j = i).
    { intros j ft' id' first' Hj [Hid' _]%passes_id Hk.
      apply (ids_distinct_lookup (filter_ids fts) j i id' id Hdistinct);
        [by eapply filter_ids_lookup | by eapply filter_ids_lookup |].
      by rewrite key_eqb_sym. }
    split.
    + intros Hg. destruct (Hsound id first Hg) as (j & ft' & id' & Hj & Hk & Hpass).
      rewrite (Hsame j ft' id' first Hj Hpass Hk) in Hj.
      assert (ft' = ft) as -> by congruence.
      destruct (passes_id _ _ _ Hpass) as [Hid' _]. congruence.
    + intros Hpass. apply (Hcomplete i ft); [done | done |].
      intros j ft' id' first' Hlt Hj Hpass'. destruct (key_eqb id id') eqn:Hk; [|done].
      specialize (Hsame j ft' id' first' Hj Hpass' Hk). lia.
Qed.

End FilterEvaluator.

Lemma filter_isolation_witness :
  ∃ passed,
    alert_filter__user_defined Demo.E0 ∅
      [Demo.template 1 [("$fail", VNone)];
       Demo.template 2 [("$echo", VNone)];
       Demo.template 3 []]
      (VDict [("candid", VInt 5)]) = Ok passed ∧
    vdict_get (VInt 1) passed = None ∧
    vdict_get (VInt 2) passed = Some (VInt 5) ∧
    vdict_get (VFloat 2) passed = Some (VInt 5) ∧
    vdict_get (VInt 3) passed = None.
Proof.
  pose (fts := [Demo.template 1 [("$fail", VNone)];
                Demo.template 2 [("$echo", VNone)];
                Demo.template 3 []]).
  assert (Hpass : ∀ ft id first,
            passes Demo.E0 ∅ (VDict [("candid", VInt 5)]) ft id first →
            run_filter Demo.E0 ∅ ft (VDict [("candid", VInt 5)]) "ZTF_alerts" 500
            = Ok (Some (id, first))).
  { intros ft id first. apply run_filter_passes. }
  destruct (filter_isolation Demo.E0 ∅ (VDict [("candid", VInt 5)]) fts)
    as (passed & Hrun & Hsound & Hcomplete & Hdistinct).
  - reflexivity.
  - repeat constructor; try discriminate; intros e; vm_compute; intros [= <-]; reflexivity.
  - specialize (Hdistinct eq_refl).
    assert (Hnone : ∀ ft id, ft ∈ fts → getitem ft "_id" = Ok id →
              run_filter Demo.E0 ∅ ft (VDict [("candid", VInt 5)]) "ZTF_alerts" 500
              ≠ Ok (Some (id, default VNone (vdict_get id passed))) →
              vdict_get id passed = None).
    { intros ft id Hin Hid Hne. destruct (vdict_get id passed) as [first|] eqn:Hg; [|done].
      apply (Hdistinct ft id first Hin Hid), Hpass in Hg. done. }
    assert (H2 : vdict_get (VInt 2) passed = Some (VInt 5)).
    { apply (Hdistinct (Demo.template 2 [("$echo", VNone)])); [apply list_elem_of_In; simpl; auto | reflexivity |].
      apply run_filter_passes. reflexivity. }
    exists passed. split; [exact Hrun|]. repeat split.
    + apply (Hnone (Demo.template 1 [("$fail", VNone)])); [apply list_elem_of_In; simpl; auto | reflexivity |].
      discriminate.
    + exact H2.
    + by rewrite (vdict_get_key (VFloat 2) (VInt 2)).
    + apply (Hnone (Demo.template 3 [])); [apply list_elem_of_In; simpl; auto | reflexivity |]. discriminate.
Defined.

(** ** The worker loop *)

Section Listener.
Context (E : externals) (cfg : config) (c : consumer).
Context (path_alerts path_tess datestr : string) (save_packets : bool).

(** C8, at the failing input: when the broker's [poll()] returns no
    message, [poll] prints and then calls [msg.error()] on [None]; the
    [AttributeError] reaches the last handler of [listener], which exits the
    worker, in test mode and in production. *)
Theorem listener_exits_on_no_message (test : bool) (w : world) :
  poll E cfg c path_alerts path_tess datestr save_packets ([], None) w
    = (w, Raise AttributeError) ∧
  listener_step E cfg c path_alerts path_tess datestr save_packets test ([], None) w
    = (w, Exit).
Proof. split; reflexivity. Qed.

Lemma listener_step_error (test : bool) (m : message) (code : Z) (w : world) :
  msg_error m = Some code →
  listener_step E cfg c path_alerts path_tess datestr save_packets test ([], Some m) w
    = (w, if test then Exit else Continue).
Proof.
  destruct m as [err partition val decoded]. simpl. intros ->. by destruct test.
Qed.

(** C3, at the failing input.  A worker in production mode outlives every
    end-of-partition signal: whatever its state, and so however many
    partitions it was assigned, after any number of messages that carry an
    error it is still polling, and nothing of its state has changed, no
    counter of signals either.  In a test run the first such message ends
    the worker, whatever the other partitions have signalled. *)
Theorem production_worker_outlives_end_of_partitions (m : message) (eofs : list message)
    (w : world) :
  Forall (fun m => msg_error m ≠ None) (m :: eofs) →
  listener_loop E cfg c path_alerts path_tess datestr save_packets false
                (map (fun m => ([], Some m)) (m :: eofs)) w = (w, Continue) ∧
  listener_loop E cfg c path_alerts path_tess datestr save_packets true
                (map (fun m => ([], Some m)) (m :: eofs)) w = (w, Exit).
Proof.
  intros H. split.
  - induction H as [|m' eofs' Hm _ IH]; [done|].
    destruct (msg_error m') as [code|] eqn:Hc; [|done].
    cbn [map listener_loop]. by rewrite (listener_step_error false m' code w Hc).
  - apply Forall_cons in H as [Hm _].
    destruct (msg_error m) as [code|] eqn:Hc; [|done].
    cbn [map listener_loop]. by rewrite (listener_step_error true m code w Hc).
Qed.

End Listener.

Lemma production_worker_outlives_end_of_partitions_witness :
  let w := (run_callbacks [OnAssign [0; 1]] Demo.w0).1 in
  let eofs := [Demo.eof_message 0; Demo.eof_message 1] in
  num_partitions w = 2 ∧
  listener_loop Demo.E0 Demo.cfg0 Demo.c0 "/alerts" "/tess" "20200301" true false
                (map (fun m => ([], Some m)) eofs) w = (w, Continue) ∧
  listener_loop Demo.E0 Demo.cfg0 Demo.c0 "/alerts" "/tess" "20200301" true true
                (map (fun m => ([], Some m)) eofs) w = (w, Exit).
Proof.
  intros w eofs. split; [reflexivity|].
  apply (production_worker_outlives_end_of_partitions Demo.E0 Demo.cfg0 Demo.c0
           "/alerts" "/tess" "20200301" true (Demo.eof_message 0) [Demo.eof_message 1] w).
  repeat constructor; discriminate.
Defined.

(** ** The TESS dump *)

(** C5, at the failing input (scenario 4 of the specification, on an empty
    store): the file [<path_tess>/<datestr>/2000.json] is written, but its
    [cross_matches] still has the key [CLU_20190625]; the [pop] of line 458
    is applied to the projected auxiliary document, whose keys are [_id] and
    [cross_matches], and not to the [cross_matches] mapping. *)
Theorem tess_dump_keeps_clu_key :
  ∃ alert cross_matches,
    files (poll Demo.E0 Demo.cfg0 Demo.c0 "/alerts" "/tess" "20200301" true
                (Demo.one_message [Demo.tess_record]) Demo.w0).1
      !! "/tess/20200301/2000.json" = Some (FJson alert) ∧
    getitem alert "cross_matches" = Ok (VDict cross_matches) ∧
    dict_has "CLU_20190625" cross_matches = true.
Proof. do 2 eexists. repeat split; vm_compute; reflexivity. Qed.

(** ** Loading the filter templates *)

(** C7, at the failing input: with one stored template for science program
    1 and one for science program 2, a single template is loaded, the last
    one in the collection; the [$group] stage's [_id] is the constant string
    ['science_program_id'], so all templates fall into one group. *)
Theorem load_filter_templates_two_programs :
  coll "filters" Demo.filters_db
    = [Demo.stored_template 10 1 200; Demo.stored_template 11 2 100] ∧
  ∃ loaded,
    load_filter_templates Demo.E0 Demo.cfg0 Demo.filters_db = Ok [loaded] ∧
    getitem loaded "_id" = Ok (VInt 11) ∧
    getitem loaded "science_program_id" = Ok (VInt 2).
Proof. split; [reflexivity|]. eexists. repeat split; vm_compute; reflexivity. Qed.

(** Also within one science program the template kept is the last one
    stored, not the one with the greatest [created]. *)
Example load_filter_templates_not_latest :
  ∃ loaded,
    load_filter_templates Demo.E0 Demo.cfg0
      {[ "filters" := [Demo.stored_template 10 1 200; Demo.stored_template 11 1 100] ]}
      = Ok [loaded] ∧
    getitem loaded "created" = Ok (VInt 100).
Proof. eexists. split; vm_compute; reflexivity. Qed.

(** ** How the store evolves *)


Section Keeps.
Context (R : relation (gmap string (list value))) `{!PreOrder R}.

Lemma keeps_ret {A} (a : A) : keeps R (mret a).
Proof. intros w. simpl. reflexivity. Qed.

Lemma keeps_lift {A} (r : result A) : keeps R (lift r).
Proof. intros w. simpl. reflexivity. Qed.

Lemma keeps_reads {A} (f : world → A) : keeps R (reads f).
Proof. intros w. simpl. reflexivity. Qed.

Lemma keeps_bind {A B} (m : act A) (f : A → act B) :
  keeps R m → (∀ a, keeps R (f a)) → keeps R (m ≫= f).
Proof.
  intros Hm Hf w. unfold mbind, act_bind. specialize (Hm w).
  destruct (m w) as [w' [a|e]]; simpl in *; [|done].
  etrans; [exact Hm | apply Hf].
Qed.

Lemma keeps_try_except {A} (m : act A) (h : exn → act A) :
  keeps R m → (∀ e, keeps R (h e)) → keeps R (try_except m h).
Proof.
  intros Hm Hh w. unfold try_except. specialize (Hm w).
  destruct (m w) as [w' [a|e]]; simpl in *; [done|].
  destruct (is_Exception e); simpl; [|done].
  etrans; [exact Hm | apply Hh].
Qed.

Lemma keeps_modify (f : world → world) :
  (∀ w, db (f w) = db w) → keeps R (modify f).
Proof. intros Hf w. simpl. rewrite Hf. reflexivity. Qed.

Lemma keeps_write_file (path : string) (content : file) : keeps R (write_file path content).
Proof. by apply keeps_modify. Qed.

Lemma keeps_count_documents (name field : string) (v : value) :
  keeps R (count_documents name field v).
Proof. apply keeps_reads. Qed.

Lemma keeps_find_one_projected (name : string) (id : value) (field : string) :
  keeps R (find_one_projected name id field).
Proof. apply keeps_reads. Qed.

End Keeps.

Ltac keeps_step :=
  first
    [ apply keeps_ret; tc_solve | apply keeps_lift; tc_solve
    | apply keeps_reads; tc_solve
    | apply keeps_write_file; tc_solve | apply keeps_count_documents; tc_solve
    | apply keeps_find_one_projected; tc_solve
    | apply keeps_bind; [tc_solve| |intro]
    | apply keeps_try_except; [tc_solve| |intro]
    | match goal with
      | |- keeps _ (if ?b then _ else _) => destruct b
      | |- keeps _ (let '(_, _) := ?p in _) => destruct p
      | |- keeps _ (match ?x with _ => _ end) => destruct x
      end ].

Section KeepsModel.
Context (E : externals) (cfg : config).
Context (R : relation (gmap string (list value))) `{!PreOrder R}.

Lemma keeps_post (endpoint : string) (body : value) : keeps R (post E cfg endpoint body).
Proof. unfold post. repeat keeps_step. apply keeps_modify; [tc_solve | done]. Qed.

Lemma keeps_post_thumbnails (alert : value) (types : list (string * string)) :
  keeps R (post_thumbnails E cfg alert types).
Proof.
  induction types as [|[ttype ztftype] types IH]; simpl;
    repeat first [apply keeps_post; tc_solve | exact IH | keeps_step].
Qed.

Lemma keeps_post_to_portal (prv : list value) (alert : pydict) :
  keeps R (post_to_portal E cfg prv alert).
Proof.
  unfold post_to_portal.
  repeat first [apply keeps_post; tc_solve | apply keeps_post_thumbnails; tc_solve
               | keeps_step].
Qed.

Lemma keeps_tess_dump (objectId : value) (prv : list value) (alert : pydict)
    (path_tess datestr : string) (save_packets : bool) :
  keeps R (tess_dump E cfg objectId prv alert path_tess datestr save_packets).
Proof. unfold tess_dump. repeat keeps_step. Qed.

Lemma keeps_after_store (c : consumer) (objectId : value) (prv : list value)
    (alert : pydict) (path_tess datestr : string) (save_packets : bool) :
  keeps R (after_store E cfg c objectId prv alert path_tess datestr save_packets).
Proof.
  unfold after_store.
  repeat first [ apply keeps_tess_dump; tc_solve | apply keeps_post_to_portal; tc_solve
               | keeps_step ].
Qed.

Lemma keeps_run_callbacks (cbs : list callback) : keeps R (run_callbacks cbs).
Proof.
  induction cbs as [|[parts|code] cbs IH]; simpl.
  - apply keeps_ret; tc_solve.
  - apply keeps_bind; [tc_solve | apply keeps_modify; [tc_solve | done] | intros _; exact IH].
  - apply keeps_bind; [tc_solve | | intros _; exact IH].
    unfold error_cb. repeat first [apply keeps_modify; [tc_solve | done] | keeps_step].
Qed.

End KeepsModel.

Section Evolution.
Context (E : externals) (cfg : config).

Lemma db_steps_once (D : gmap string (list value)) (name : string) (docs' : list value) :
  docs_step (coll name D) docs' → db_steps D (<[name := docs']> D).
Proof. intros H. apply rtc_once. by econstructor. Qed.

Lemma insert_one_steps (name : string) (doc : pydict) :
  keeps db_steps (insert_one name doc).
Proof.
  intros w. unfold insert_one.
  destruct (dict_get "_id" doc) as [id|]; cbv [mbind act_bind reads modify lift mret act_ret]; simpl.
  - destruct (existsb (match_field "_id" id) (coll name (db w))); simpl; [reflexivity|].
    apply db_steps_once. constructor.
  - apply db_steps_once. constructor.
Qed.

Lemma insert_db_entry_steps (name : string) (entry : pydict) :
  keeps db_steps (insert_db_entry name entry).
Proof.
  unfold insert_db_entry. apply keeps_try_except; [tc_solve | apply insert_one_steps |].
  intros e. apply keeps_ret; tc_solve.
Qed.

Lemma update_one_addToSet_steps (name : string) (id : value) (items : list value) :
  keeps db_steps (update_one_addToSet name id "prv_candidates" items).
Proof.
  intros w. unfold update_one_addToSet.
  cbv [mbind act_bind reads modify lift mret act_ret]; simpl.
  destruct (update_first _ _ _) as [[docs'|e]|] eqn:Hu; simpl.
  - apply db_steps_once. by econstructor.
  - reflexivity.
  - apply db_steps_once. constructor.
Qed.

Lemma store_aux_steps (objectId : value) (alert : pydict) (prv : list value) :
  keeps db_steps (store_aux E cfg objectId alert prv).
Proof.
  unfold store_aux.
  repeat first [ apply insert_db_entry_steps | apply update_one_addToSet_steps
               | keeps_step ].
Qed.

Lemma ingest_record_steps (c : consumer) (path_alerts path_tess datestr : string)
    (save_packets : bool) (msg_value : string) (record : value) :
  keeps db_steps
    (ingest_record E cfg c path_alerts path_tess datestr save_packets msg_value record).
Proof.
  unfold ingest_record.
  repeat first [ apply insert_db_entry_steps | apply store_aux_steps
               | apply keeps_after_store; tc_solve | keeps_step ].
Qed.

Lemma ingest_records_steps (c : consumer) (path_alerts path_tess datestr : string)
    (save_packets : bool) (msg_value : string) (records : list value) :
  keeps db_steps
    (ingest_records E cfg c path_alerts path_tess datestr save_packets msg_value records).
Proof.
  induction records as [|record records IH]; simpl.
  - apply keeps_ret; tc_solve.
  - apply keeps_bind; [tc_solve | apply ingest_record_steps | intros _; exact IH].
Qed.

Lemma poll_steps (c : consumer) (path_alerts path_tess datestr : string)
    (save_packets : bool) (ev : poll_event) :
  keeps db_steps (poll E cfg c path_alerts path_tess datestr save_packets ev).
Proof.
  unfold poll, consumer_poll.
  repeat first [ apply keeps_run_callbacks; tc_solve | apply ingest_records_steps
               | keeps_step ].
Qed.

Lemma listener_loop_steps (c : consumer) (path_alerts path_tess datestr : string)
    (save_packets test : bool) (evs : list poll_event) (w : world) :
  db_steps (db w)
    (db (listener_loop E cfg c path_alerts path_tess datestr save_packets test evs w).1).
Proof.
  revert w. induction evs as [|ev evs IH]; intros w; simpl; [reflexivity|].
  unfold listener_step.
  pose proof (poll_steps c path_alerts path_tess datestr save_packets ev w) as Hp.
  destruct (poll E cfg c path_alerts path_tess datestr save_packets ev w) as [w' r].
  simpl in Hp.
  assert (Hgo : db_steps (db w)
            (db (listener_loop E cfg c path_alerts path_tess datestr save_packets
                   test evs w').1)) by (etrans; [exact Hp | apply IH]).
  destruct r as [[]|[]]; simpl; try done; by destruct test.
Qed.

End Evolution.

(** ** [$addToSet] and the auxiliary documents *)


Lemma addToSet_spec (l items : list value) :
  ∃ extra,
    addToSet l items = l ++ extra ∧ NoDup extra ∧
    (∀ x, x ∈ extra → x ∉ l) ∧
    (∀ x, x ∈ extra → x ∈ items) ∧
    (∀ x, x ∈ items → x ∈ l ++ extra).
Proof.
  unfold addToSet. revert l. induction items as [|x items IH]; intros l; simpl.
  - exists []. rewrite app_nil_r. repeat split; [constructor | set_solver..].
  - destruct (value_inb x l) eqn:Hx.
    + apply value_inb_In in Hx.
      destruct (IH l) as (extra & -> & Hnd & Hdis & Hsub & Hall).
      exists extra. repeat split; [done | done | set_solver | ].
      intros y [->|Hy]%elem_of_cons; [set_solver | by apply Hall].
    + assert (x ∉ l) as Hx' by (rewrite <- value_inb_In; congruence).
      destruct (IH (l ++ [x])) as (extra & -> & Hnd & Hdis & Hsub & Hall).
      exists (x :: extra). rewrite <- app_assoc. simpl. repeat split.
      * constructor; [|done]. intros Hin. apply (Hdis x Hin). set_solver.
      * intros y [->|Hy]%elem_of_cons; [done|]. specialize (Hdis y Hy). set_solver.
      * intros y [->|Hy]%elem_of_cons; set_solver.
      * intros y [->|Hy]%elem_of_cons; [set_solver|].
        specialize (Hall y Hy). rewrite <- app_assoc in Hall. exact Hall.
Qed.

Lemma addToSet_absorbs (l items : list value) :
  (∀ x, x ∈ items → x ∈ l) → addToSet l items = l.
Proof.
  unfold addToSet. induction items as [|x items IH]; intros Hsub; simpl; [done|].
  assert (value_inb x l = true) as -> by (apply value_inb_In, Hsub; set_solver).
  apply IH. set_solver.
Qed.

Lemma dict_set_same {V} (k : string) (v : V) (d : list (string * V)) :
  dict_get k d = Some v → dict_set k v d = d.
Proof.
  induction d as [|[k0 v0] d IH]; simpl; [done|].
  destruct (String.eqb_spec k k0) as [->|]; [by intros [= ->]|].
  intros H. by rewrite IH.
Qed.

Lemma addToSet_doc_Ok (items : list value) (doc doc' : value) :
  addToSet_doc "prv_candidates" items doc = Ok doc' →
  ∃ d l,
    doc = VDict d ∧
    (dict_get "prv_candidates" d = Some (VList l) ∨
     (dict_get "prv_candidates" d = None ∧ l = [])) ∧
    doc' = VDict (dict_set "prv_candidates" (VList (addToSet l items)) d).
Proof.
  destruct doc as [| | | | | | |d]; simpl; try discriminate.
  destruct (dict_get "prv_candidates" d) as [[| | | | | |l|]|] eqn:Hd; try discriminate;
    intros [= <-]; eauto 10.
Qed.

Lemma match_field_addToSet_doc (items : list value) (doc doc' : value)
    (field : string) (v : value) :
  addToSet_doc "prv_candidates" items doc = Ok doc' → field ≠ "prv_candidates" →
  match_field field v doc' = match_field field v doc.
Proof.
  intros (d & l & -> & _ & ->)%addToSet_doc_Ok Hf. simpl.
  by rewrite dict_get_set_ne.
Qed.

Lemma update_first_Ok (p : value → bool) (f : value → result value)
    (docs docs' : list value) :
  update_first p f docs = Some (Ok docs') →
  ∃ pre d d' post,
    docs = pre ++ d :: post ∧ docs' = pre ++ d' :: post ∧
    f d = Ok d' ∧ p d = true ∧ List.find p pre = None.
Proof.
  revert docs'. induction docs as [|doc docs IH]; intros docs'; simpl; [discriminate|].
  destruct (p doc) eqn:Hp.
  - intros [= H]. destruct (f doc) as [d'|] eqn:Hf; [|discriminate].
    injection H as <-. exists [], doc, d', docs. done.
  - destruct (update_first p f docs) as [[rest'|]|]; try discriminate.
    intros [= <-]. destruct (IH rest' eq_refl) as (pre & d & d' & post & -> & -> & ? & ? & ?).
    exists (doc :: pre), d, d', post. simpl. by rewrite Hp.
Qed.

Lemma update_first_None (p : value → bool) (f : value → result value) (docs : list value) :
  update_first p f docs = None ↔ List.find p docs = None.
Proof.
  induction docs as [|doc docs IH]; simpl; [done|].
  destruct (p doc); [done|].
  destruct (update_first p f docs) as [r|]; [|tauto].
  split; [discriminate|]. intros H. apply IH in H. discriminate.
Qed.

Lemma find_app {A} (p : A → bool) (l1 l2 : list A) :
  List.find p (l1 ++ l2) =
    match List.find p l1 with Some x => Some x | None => List.find p l2 end.
Proof. induction l1 as [|x l1 IH]; simpl; [done|]. by destruct (p x). Qed.

Lemma find_existsb {A} (p : A → bool) (l : list A) :
  existsb p l = true ↔ ∃ x, List.find p l = Some x.
Proof.
  induction l as [|x l IH]; simpl.
  - split; [discriminate | by intros [? ?]].
  - destruct (p x); simpl; [split; eauto | exact IH].
Qed.

(** Whatever matched a query goes on matching it. *)
Lemma docs_step_present (docs docs' : list value) (field : string) (v : value) :
  docs_step docs docs' → field ≠ "prv_candidates" →
  existsb (match_field field v) docs = true →
  existsb (match_field field v) docs' = true.
Proof.
  intros [docs0 doc | docs0 id items docs1 Hu] Hf Hex.
  - rewrite existsb_app, Hex. done.
  - apply update_first_Ok in Hu as (pre & d & d' & post & -> & -> & Hd & _ & _).
    rewrite existsb_app in *. simpl in *.
    by rewrite (match_field_addToSet_doc _ _ _ _ _ Hd Hf).
Qed.

(** The array of an auxiliary document only grows, by records that are new
    to it and pairwise different. *)
Lemma docs_step_prv (docs docs' : list value) (oid : value) (l : list value) :
  docs_step docs docs' → prv_of docs oid = Some l →
  ∃ extra, prv_of docs' oid = Some (l ++ extra) ∧ NoDup extra ∧ ∀ x, x ∈ extra → x ∉ l.
Proof.
  assert (Hsame : ∀ o : option (list value), o = Some l →
            ∃ extra, o = Some (l ++ extra) ∧ NoDup extra ∧ ∀ x, x ∈ extra → x ∉ l).
  { intros o ->. exists []. rewrite app_nil_r. repeat split; [constructor | set_solver]. }
  intros [docs0 doc | docs0 id items docs1 Hu] Hprv.
  - apply Hsame. unfold prv_of in *. rewrite find_app.
    by destruct (List.find (match_field "_id" oid) docs0).
  - apply update_first_Ok in Hu as (pre & d & d' & post & -> & -> & Hd & _ & _).
    unfold prv_of in *. rewrite find_app in *.
    destruct (List.find (match_field "_id" oid) pre) eqn:Hpre; [by apply Hsame|].
    simpl in *. rewrite (match_field_addToSet_doc _ _ _ _ _ Hd) by done.
    destruct (match_field "_id" oid d) eqn:Hm.
    + apply addToSet_doc_Ok in Hd as (dd & l0 & -> & Hl0 & ->).
      rewrite dict_get_set_eq.
      destruct Hl0 as [Hl0 | [Hl0 ->]]; rewrite Hl0 in Hprv; [|discriminate].
      injection Hprv as ->.
      destruct (addToSet_spec l items) as (extra & -> & Hnd & Hdis & _).
      eauto.
    + by apply Hsame.
Qed.

Lemma coll_insert_eq (D : gmap string (list value)) (name : string) (docs : list value) :
  coll name (<[name := docs]> D) = docs.
Proof. unfold coll. by rewrite lookup_insert_eq. Qed.

Lemma coll_insert_ne (D : gmap string (list value)) (name name' : string)
    (docs : list value) :
  name ≠ name' → coll name' (<[name := docs]> D) = coll name' D.
Proof. intros Hne. unfold coll. by rewrite lookup_insert_ne. Qed.

Lemma db_steps_present (D D' : gmap string (list value)) (name field : string) (v : value) :
  db_steps D D' → field ≠ "prv_candidates" →
  existsb (match_field field v) (coll name D) = true →
  existsb (match_field field v) (coll name D') = true.
Proof.
  intros Hsteps Hf. induction Hsteps as [D | D D1 D2 [n docs' Hstep ->] _ IH]; [done|].
  intros Hex. apply IH. destruct (decide (n = name)) as [->|Hne].
  - rewrite coll_insert_eq. by eapply docs_step_present.
  - by rewrite coll_insert_ne.
Qed.

Lemma db_steps_prv (cfg : config) (D D' : gmap string (list value)) (oid : value)
    (l : list value) :
  db_steps D D' → aux_prv cfg D oid = Some l →
  ∃ extra, aux_prv cfg D' oid = Some (l ++ extra) ∧ NoDup extra ∧ ∀ x, x ∈ extra → x ∉ l.
Proof.
  intros Hsteps. revert l.
  induction Hsteps as [D | D D1 D2 [n docs' Hstep ->] _ IH]; intros l Hl.
  - exists []. rewrite app_nil_r. repeat split; [done | constructor | set_solver].
  - assert (∃ e1, aux_prv cfg (<[n:=docs']> D) oid = Some (l ++ e1) ∧ NoDup e1
                  ∧ ∀ x, x ∈ e1 → x ∉ l) as (e1 & H1 & Hnd1 & Hdis1).
    { unfold aux_prv in *. destruct (decide (n = collection_alerts_aux cfg)) as [->|Hne].
      - rewrite coll_insert_eq. by eapply docs_step_prv.
      - rewrite coll_insert_ne by done. exists []. rewrite app_nil_r.
        repeat split; [done | constructor | set_solver]. }
    destruct (IH _ H1) as (e2 & H2 & Hnd2 & Hdis2).
    exists (e1 ++ e2). rewrite app_assoc. split; [done|]. split.
    + apply NoDup_app. repeat split; [done | | done].
      intros x Hx1 Hx2. apply (Hdis2 x Hx2). set_solver.
    + intros x [Hx|Hx]%elem_of_app; [by apply Hdis1|].
      specialize (Hdis2 x Hx). set_solver.
Qed.

Section Growth.
Context (E : externals) (cfg : config) (c : consumer).
Context (path_alerts path_tess datestr : string) (save_packets test : bool).


End Growth.

(** ** What depends on the store only *)

Section ByDb.

Lemma by_db_ret {A} (a : A) : by_db (mret a).
Proof. by intros w w' Hw. Qed.

Lemma by_db_lift {A} (r : result A) : by_db (lift r).
Proof. by intros w w' Hw. Qed.

Lemma by_db_reads {A} (g : gmap string (list value) → A) : by_db (reads (fun w => g (db w))).
Proof. intros w w' Hw. simpl. by rewrite Hw. Qed.

Lemma by_db_reads_db : by_db (reads db).
Proof. exact (by_db_reads (fun D => D)). Qed.

Lemma by_db_modify (g : world → world) :
  (∀ w w', db w = db w' → db (g w) = db (g w')) → by_db (modify g).
Proof. intros Hg w w' Hw. simpl. split; [done | by apply Hg]. Qed.

Lemma by_db_bind {A B} (m : act A) (f : A → act B) :
  by_db m → (∀ a, by_db (f a)) → by_db (m ≫= f).
Proof.
  intros Hm Hf w w' Hw. unfold mbind, act_bind. destruct (Hm w w' Hw) as [Hr Hd].
  destruct (m w) as [w1 [a|e]], (m w') as [w1' [a'|e']]; simpl in *; try discriminate.
  - injection Hr as ->. by apply Hf.
  - by injection Hr as ->.
Qed.

Lemma by_db_bind_lift {A B} (r : result A) (f : A → act B) :
  (∀ a, r = Ok a → by_db (f a)) → by_db (lift r ≫= f).
Proof.
  intros Hf w w' Hw. unfold mbind, act_bind, lift. destruct r as [a|e]; [by apply Hf | done].
Qed.

Lemma by_db_try_except {A} (m : act A) (h : exn → act A) :
  by_db m → (∀ e, by_db (h e)) → by_db (try_except m h).
Proof.
  intros Hm Hh w w' Hw. unfold try_except. destruct (Hm w w' Hw) as [Hr Hd].
  destruct (m w) as [w1 [a|e]], (m w') as [w1' [a'|e']]; simpl in *; try discriminate.
  - by injection Hr as ->.
  - injection Hr as ->. destruct (is_Exception e'); [by apply Hh | done].
Qed.

Lemma by_db_write_file (path : string) (content : file) : by_db (write_file path content).
Proof. unfold write_file. apply by_db_modify. by intros [] []. Qed.

Lemma by_db_count_documents (name field : string) (v : value) :
  by_db (count_documents name field v).
Proof.
  exact (by_db_reads (fun D => if existsb (match_field field v) (coll name D) then 1 else 0)).
Qed.

Lemma by_db_find_one_projected (name : string) (id : value) (field : string) :
  by_db (find_one_projected name id field).
Proof. intros w w' Hw. unfold find_one_projected, reads. simpl. by rewrite Hw. Qed.

End ByDb.

Ltac by_db_step :=
  first
    [ apply by_db_ret | apply by_db_lift | apply by_db_reads_db
    | apply by_db_write_file | apply by_db_count_documents
    | apply by_db_find_one_projected
    | apply by_db_bind; [|intro]
    | apply by_db_try_except; [|intro]
    | match goal with
      | |- by_db (if ?b then _ else _) => destruct b
      | |- by_db (let '(_, _) := ?p in _) => destruct p
      | |- by_db (match ?x with _ => _ end) => destruct x
      end ].

Section ByDbModel.
Context (E : externals) (cfg : config).

Lemma by_db_post (endpoint : string) (body : value) : by_db (post E cfg endpoint body).
Proof.
  unfold post. repeat first [ apply by_db_modify; by intros [] [] | by_db_step ].
Qed.

Lemma by_db_post_thumbnails (alert : value) (types : list (string * string)) :
  by_db (post_thumbnails E cfg alert types).
Proof.
  induction types as [|[ttype ztftype] types IH]; simpl.
  - apply by_db_ret.
  - repeat first [ apply by_db_post | exact IH | by_db_step ].
Qed.

Lemma by_db_post_to_portal (prv : list value) (alert : pydict) :
  by_db (post_to_portal E cfg prv alert).
Proof.
  unfold post_to_portal.
  repeat first [ apply by_db_post | apply by_db_post_thumbnails | by_db_step ].
Qed.

Lemma by_db_tess_dump (objectId : value) (prv : list value) (alert : pydict)
    (path_tess datestr : string) (save_packets : bool) :
  by_db (tess_dump E cfg objectId prv alert path_tess datestr save_packets).
Proof. unfold tess_dump. repeat by_db_step. Qed.

Lemma by_db_after_store (c : consumer) (objectId : value) (prv : list value)
    (alert : pydict) (path_tess datestr : string) (save_packets : bool) :
  by_db (after_store E cfg c objectId prv alert path_tess datestr save_packets).
Proof.
  unfold after_store.
  repeat first [ apply by_db_tess_dump | apply by_db_post_to_portal | by_db_step ].
Qed.

Lemma by_db_insert_one (name : string) (doc : pydict) :
  is_Some (dict_get "_id" doc) → by_db (insert_one name doc).
Proof.
  intros [id Hid]. unfold insert_one. rewrite Hid.
  apply by_db_bind.
  - exact (by_db_reads (fun D => existsb (match_field "_id" id) (coll name D))).
  - intros dup. destruct dup; [apply by_db_lift|].
    apply by_db_bind; [|intro; apply by_db_ret].
    apply by_db_modify. intros [] [] Hw. simpl in *. by rewrite Hw.
Qed.

Lemma by_db_insert_db_entry (name : string) (entry : pydict) :
  is_Some (dict_get "_id" entry) → by_db (insert_db_entry name entry).
Proof.
  intros Hid. unfold insert_db_entry.
  apply by_db_try_except; [by apply by_db_insert_one | intro; apply by_db_ret].
Qed.

Lemma by_db_update_one_addToSet (name : string) (id : value) (field : string)
    (items : list value) :
  by_db (update_one_addToSet name id field items).
Proof.
  unfold update_one_addToSet. apply by_db_bind.
  - exact (by_db_reads (fun D => coll name D)).
  - intros docs. destruct (update_first _ _ docs) as [r|].
    + apply by_db_bind; [apply by_db_lift|]. intros docs'.
      apply by_db_modify. intros [] [] Hw. simpl in *. by rewrite Hw.
    + apply by_db_modify. intros [] [] Hw. simpl in *. by rewrite Hw.
Qed.

Lemma by_db_store_aux (objectId : value) (alert : pydict) (prv : list value) :
  by_db (store_aux E cfg objectId alert prv).
Proof.
  unfold store_aux.
  repeat first [ apply by_db_update_one_addToSet
               | apply by_db_insert_db_entry; by eexists
               | by_db_step ].
Qed.

End ByDbModel.

(** ** Re-processing a message *)

Lemma act_bind_Ok {A B} (m : act A) (f : A → act B) (w w' : world) (b : B) :
  (m ≫= f) w = (w', Ok b) → ∃ a w1, m w = (w1, Ok a) ∧ f a w1 = (w', Ok b).
Proof.
  unfold mbind, act_bind. destruct (m w) as [w1 [a|e]]; [eauto | discriminate].
Qed.

Lemma lift_Ok {A} (r : result A) (w w' : world) (a : A) :
  lift r w = (w', Ok a) → w' = w ∧ r = Ok a.
Proof. by intros [= -> ->]. Qed.

Lemma keeps_eq_db {A} (m : act A) (w : world) : keeps eq m → db (m w).1 = db w.
Proof. intros H. symmetry. apply H. Qed.

Lemma bind_db {A B} (D : gmap string (list value)) (m : act A) (f : A → act B) (w : world) :
  db (m w).1 = D →
  (∀ a w', m w = (w', Ok a) → db w' = D → db (f a w').1 = D) →
  db ((m ≫= f) w).1 = D.
Proof.
  unfold mbind, act_bind. intros Hm Hf.
  destruct (m w) as [w' [a|e]]; simpl in *; [by apply Hf | done].
Qed.

Lemma insert_db_entry_cases (name : string) (entry : pydict) (w : world) :
  ∃ w' entry',
    insert_db_entry name entry w = (w', Ok entry') ∧
    (∀ k, k ≠ "_id" → dict_get k entry' = dict_get k entry) ∧
    (is_Some (dict_get "_id" entry) → entry' = entry) ∧
    ((db w' = <[name := coll name (db w) ++ [VDict entry']]> (db w) ∧
      (∀ id, dict_get "_id" entry = Some id →
             existsb (match_field "_id" id) (coll name (db w)) = false))
     ∨ (∃ id, dict_get "_id" entry = Some id ∧ entry' = entry ∧ w' = w ∧
              existsb (match_field "_id" id) (coll name (db w)) = true)).
Proof.
  unfold insert_db_entry, try_except, insert_one.
  destruct (dict_get "_id" entry) as [id|] eqn:Hid;
    cbv [mbind act_bind reads modify lift mret act_ret]; simpl.
  - destruct (existsb (match_field "_id" id) (coll name (db w))) eqn:Hdup; simpl.
    + exists w, entry. split; [done|]. split; [done|]. split; [done|]. right. eauto.
    + eexists _, entry. split; [done|]. split; [done|]. split; [done|]. left. simpl.
      split; [done|]. by intros ? [= <-].
  - eexists _, _. split; [done|]. split; [|split].
    + intros k Hk. by rewrite dict_get_set_ne.
    + by intros [? ?].
    + left. simpl. split; [done|]. done.
Qed.

Lemma update_first_absorbs (docs : list value) (oid : value) (l items : list value) :
  prv_of docs oid = Some l → (∀ x, x ∈ items → x ∈ l) →
  update_first (match_field "_id" oid) (addToSet_doc "prv_candidates" items) docs
    = Some (Ok docs).
Proof.
  unfold prv_of. intros Hl Hsub. induction docs as [|doc docs IH]; simpl in *; [done|].
  destruct (match_field "_id" oid doc) eqn:Hm.
  - destruct doc as [| | | | | | |d]; try discriminate. simpl.
    destruct (dict_get "prv_candidates" d) as [[| | | | | |l'|]|] eqn:Hd; try discriminate.
    injection Hl as ->. rewrite addToSet_absorbs by done. simpl.
    by rewrite dict_set_same.
  - by rewrite IH.
Qed.

Lemma coll_insert_id (D : gmap string (list value)) (name : string) :
  coll name D ≠ [] → <[name := coll name D]> D = D.
Proof.
  unfold coll. intros Hne. apply insert_id.
  destruct (D !! name); [done|]. by destruct Hne.
Qed.

Lemma prv_of_existsb (docs : list value) (oid : value) (l : list value) :
  prv_of docs oid = Some l → existsb (match_field "_id" oid) docs = true.
Proof.
  unfold prv_of. intros H. apply find_existsb.
  destruct (List.find (match_field "_id" oid) docs); [eauto | discriminate].
Qed.

Section Reprocessing.
Context (E : externals) (cfg : config) (c : consumer).
Context (path_alerts path_tess datestr : string) (save_packets : bool) (payload : string).


Lemma settled_steps (D D' : gmap string (list value)) (record : value) :
  db_steps D D' → settled E cfg D record → settled E cfg D' record.
Proof.
  intros Hsteps Hs candid Hc. destruct (Hs candid Hc) as [Hp | [Hdup Haux]].
  - left. unfold present in *. by eapply db_steps_present.
  - right. split.
    + intros alert prv Hm. destruct (Hdup alert prv Hm) as (id & Hid & Hex).
      exists id. split; [done|]. by eapply db_steps_present.
    + intros objectId alert prv items Ho Hm Hi.
      destruct (Haux objectId alert prv items Ho Hm Hi) as (l & Hl & Hsub).
      destruct (db_steps_prv cfg D D' objectId l Hsteps Hl) as (extra & Hl' & _).
      exists (l ++ extra). split; [done|]. intros x Hx. apply elem_of_app. auto.
Qed.

Lemma store_aux_noop (objectId : value) (alert : pydict) (items l : list value)
    (w : world) :
  aux_prv cfg (db w) objectId = Some l → (∀ x, x ∈ items → x ∈ l) →
  db (store_aux E cfg objectId alert items w).1 = db w.
Proof.
  intros Hl Hsub. unfold aux_prv in Hl. unfold store_aux, count_documents.
  cbv [mbind act_bind reads]. rewrite (prv_of_existsb _ _ _ Hl). simpl.
  unfold update_one_addToSet. cbv [mbind act_bind reads modify lift]. simpl.
  rewrite (update_first_absorbs _ _ _ _ Hl Hsub). simpl.
  apply coll_insert_id. intros Hnil. rewrite Hnil in Hl. discriminate.
Qed.

Lemma store_aux_Ok (objectId : value) (alert : pydict) (items : list value)
    (w w' : world) :
  store_aux E cfg objectId alert items w = (w', Ok tt) →
  ∃ l, aux_prv cfg (db w') objectId = Some l ∧ ∀ x, x ∈ items → x ∈ l.
Proof.
  unfold store_aux, count_documents. intros H.
  apply act_bind_Ok in H as (n & w1 & [= <- <-] & H).
  destruct (existsb (match_field "_id" objectId)
              (coll (collection_alerts_aux cfg) (db w))) eqn:Hex; simpl in H.
  - unfold update_one_addToSet in H. cbv [mbind act_bind reads modify lift] in H.
    simpl in H.
    destruct (update_first _ _ _) as [[docs'|e]|] eqn:Hu; simpl in H; try discriminate.
    + injection H as <-. simpl. unfold aux_prv. rewrite coll_insert_eq.
      apply update_first_Ok in Hu as (pre & d & d' & post & _ & -> & Hd & Hp & Hpre).
      unfold prv_of. rewrite find_app, Hpre. simpl.
      rewrite (match_field_addToSet_doc _ _ _ _ _ Hd) by done. rewrite Hp.
      apply addToSet_doc_Ok in Hd as (dd & l0 & -> & _ & ->).
      rewrite dict_get_set_eq. eexists. split; [done|].
      destruct (addToSet_spec l0 items) as (extra & -> & _ & _ & _ & Hall). done.
    + apply update_first_None in Hu. apply find_existsb in Hex as [x Hx]. congruence.
  - apply act_bind_Ok in H as (database & w1 & [= <- <-] & H).
    apply act_bind_Ok in H as (xm & w2 & [-> _]%lift_Ok & H).
    apply act_bind_Ok in H as (xmc & w3 & [-> _]%lift_Ok & H).
    apply act_bind_Ok in H as (entry'' & w4 & Hins & [= <-]).
    match type of Hins with insert_db_entry ?n ?e ?w0 = _ =>
      destruct (insert_db_entry_cases n e w0)
        as (w5 & entry' & Hins' & _ & Hsame & [[Hdb _] | (id & Hid & _ & _ & Hdup)])
    end.
    + rewrite Hins' in Hins. injection Hins as <- <-.
      rewrite (Hsame ltac:(by eexists)) in Hdb.
      unfold aux_prv. rewrite Hdb, coll_insert_eq. unfold prv_of. rewrite find_app.
      assert (List.find (match_field "_id" objectId)
                (coll (collection_alerts_aux cfg) (db w)) = None) as ->.
      { destruct (List.find _ _) eqn:Hf; [|done].
        assert (existsb (match_field "_id" objectId)
                  (coll (collection_alerts_aux cfg) (db w)) = true)
          by (apply find_existsb; eauto).
        congruence. }
      simpl. rewrite value_eqb_refl. eauto.
    + simpl in Hid. injection Hid as <-. congruence.
Qed.

Lemma alert_mongify_keeps (record : value) (alert : pydict) (prv : value) (k : string) :
  alert_mongify E record = Ok (alert, prv) →
  k ≠ "prv_candidates" → k ≠ "coordinates" → k ≠ "classifications" →
  ∃ d, py_dict record = Ok d ∧ dict_get k alert = dict_get k d.
Proof.
  intros Hm H1 H2 H3.
  apply alert_mongify_Ok in Hm as (d0 & d1 & v & Hd0 & Hco & _ & -> & _).
  apply mongify_coordinates_Ok in Hco
    as (? & ? & ? & ? & ? & ? & ? & ? & Hcand & _ & _ & _ & _ & _ & _ & ->).
  exists d0. split; [done|].
  rewrite dict_get_pop_ne by done. by rewrite !dict_get_set_ne.
Qed.

Lemma settled_after (record : value) (w w' : world) :
  ingest_record E cfg c path_alerts path_tess datestr save_packets payload record w
    = (w', Ok tt) →
  settled E cfg (db w') record.
Proof.
  intros H. unfold ingest_record in H.
  apply act_bind_Ok in H as (candid & ? & [-> Hc]%lift_Ok & H).
  apply act_bind_Ok in H as (objectId & ? & [-> Ho]%lift_Ok & H).
  apply act_bind_Ok in H as (n & ? & [= <- <-] & H).
  intros candid' Hc'. rewrite Hc in Hc'. injection Hc' as <-.
  destruct (existsb (match_field "candid" candid) (coll (collection_alerts cfg) (db w)))
    eqn:Hex; simpl in H.
  { injection H as <-. by left. }
  apply act_bind_Ok in H as ([] & w1 & Hsave & H).
  assert (db w1 = db w) as Hw1.
  { destruct save_packets; by injection Hsave as <-. }
  apply act_bind_Ok in H as ([alert prv] & ? & [-> Hm]%lift_Ok & H).
  apply act_bind_Ok in H as (scores & ? & [-> _]%lift_Ok & H).
  apply act_bind_Ok in H as (alert' & w2 & Hins & H).
  apply act_bind_Ok in H as (items & ? & [-> Hi]%lift_Ok & H).
  apply act_bind_Ok in H as ([] & w3 & Haux & H).
  assert (db w' = db w3) as Hw'.
  { pose proof (keeps_eq_db
      (after_store E cfg c objectId items alert' path_tess datestr save_packets) w3) as Hk.
    rewrite H in Hk. apply Hk. apply keeps_after_store; tc_solve. }
  assert (db_steps (db w2) (db w3)) as Hsteps.
  { pose proof (store_aux_steps E cfg objectId alert' items w2) as Hk.
    by rewrite Haux in Hk. }
  apply store_aux_Ok in Haux as (l & Hl & Hsub).
  rewrite Hw'.
  destruct (insert_db_entry_cases (collection_alerts cfg)
              (dict_set "classifications" (VDict scores) alert) w1)
    as (w2' & entry' & Hins' & Hkeys & _ & Hcase).
  rewrite Hins' in Hins. injection Hins as -> ->.
  destruct Hcase as [[Hdb _] | (id & Hid & -> & -> & Hdup)].
  - left. unfold present. eapply db_steps_present; [exact Hsteps | done |].
    rewrite Hdb, coll_insert_eq, existsb_app. simpl.
    rewrite Hkeys, dict_get_set_ne by done.
    destruct (alert_mongify_keeps record alert prv "candid" Hm) as (d & Hd & ->); try done.
    apply (getitem_py_dict _ _ _ _ Hc) in Hd as ->. simpl in Hc. destruct (dict_get "candid" d); [|discriminate].
    injection Hc as ->. rewrite value_eqb_refl. by rewrite orb_true_r.
  - right. split.
    + intros alert0 prv0 Hm0. rewrite Hm in Hm0. injection Hm0 as <- <-.
      rewrite dict_get_set_ne in Hid by done. exists id. split; [done|].
      by eapply db_steps_present.
    + intros objectId0 alert0 prv0 items0 Ho0 Hm0 Hi0.
      rewrite Ho in Ho0. injection Ho0 as <-.
      rewrite Hm in Hm0. injection Hm0 as <- <-.
      rewrite Hi in Hi0. injection Hi0 as <-. eauto.
Qed.

Lemma settled_noop (record : value) (w : world) :
  settled E cfg (db w) record →
  db (ingest_record E cfg c path_alerts path_tess datestr save_packets payload
        record w).1 = db w.
Proof.
  intros Hs. unfold ingest_record.
  apply bind_db; [done|]. intros candid w1 [-> Hc]%lift_Ok _.
  apply bind_db; [done|]. intros objectId w1 [-> Ho]%lift_Ok _.
  apply bind_db; [done|]. intros n w1 [= <- <-] _.
  destruct (Hs candid Hc) as [Hp | [Hdup Haux]].
  { unfold present in Hp. by rewrite Hp. }
  destruct (existsb _ _); simpl; [done|].
  apply bind_db; [by destruct save_packets|]. intros [] w1 _ Hw1.
  apply bind_db; [done|]. intros [alert prv] w2 [-> Hm]%lift_Ok _.
  apply bind_db; [done|]. intros scores w2 [-> _]%lift_Ok _.
  destruct (Hdup alert prv Hm) as (id & Hid & Hex).
  destruct (insert_db_entry_cases (collection_alerts cfg)
              (dict_set "classifications" (VDict scores) alert) w1)
    as (w2 & entry' & Hins & _ & _ & [[_ Hfresh] | (id' & Hid' & -> & -> & _)]).
  { rewrite dict_get_set_ne in Hfresh by done. specialize (Hfresh id Hid).
    rewrite Hw1 in Hfresh. congruence. }
  apply bind_db; [by rewrite Hins|]. rewrite Hins. intros ? ? [= <- <-] _.
  apply bind_db; [done|]. intros items w2 [-> Hi]%lift_Ok _.
  destruct (Haux objectId alert prv items Ho Hm Hi) as (l & Hl & Hsub).
  rewrite <- Hw1 in Hl.
  apply bind_db; [by rewrite (store_aux_noop _ _ _ _ _ Hl Hsub)|].
  intros [] w2 _ Hw2. rewrite keeps_eq_db; [done|].
  apply keeps_after_store; tc_solve.
Qed.

Lemma ingest_records_settled (records : list value) (w w' : world) :
  ingest_records E cfg c path_alerts path_tess datestr save_packets payload records w
    = (w', Ok tt) →
  Forall (settled E cfg (db w')) records.
Proof.
  revert w. induction records as [|record records IH]; intros w H; simpl in H; [done|].
  apply act_bind_Ok in H as ([] & w1 & Hr & H). constructor; [|by eapply IH].
  apply settled_steps with (db w1); [|by eapply settled_after].
  pose proof (ingest_records_steps E cfg c path_alerts path_tess datestr save_packets
                payload records w1) as Hk.
  by rewrite H in Hk.
Qed.

Lemma ingest_records_noop (records : list value) (w : world) :
  Forall (settled E cfg (db w)) records →
  db (ingest_records E cfg c path_alerts path_tess datestr save_packets payload
        records w).1 = db w.
Proof.
  revert w. induction records as [|record records IH]; intros w Hs; simpl; [done|].
  apply Forall_cons in Hs as [Hr Hs].
  apply bind_db; [by apply settled_noop|].
  intros [] w1 _ Hw1. rewrite <- Hw1. apply IH. by rewrite Hw1.
Qed.

Lemma poll_message (m : message) (records : list value) (w : world) :
  msg_error m = None → msg_decoded m = Ok records →
  (poll E cfg c path_alerts path_tess datestr save_packets ([], Some m) w).1
    = (ingest_records E cfg c path_alerts path_tess datestr save_packets
         (msg_value m) records w).1.
Proof.
  intros He Hd. unfold poll, consumer_poll. simpl.
  cbv [mbind act_bind mret act_ret]. simpl. rewrite He, Hd.
  unfold try_except. cbv [mbind act_bind lift]. simpl.
  destruct (ingest_records _ _ _ _ _ _ _ _ _) as [w' [[]|e]]; simpl; [done|].
  by destruct (is_Exception e).
Qed.

End Reprocessing.

Lemma act_bind_run {A B} (m : act A) (f : A → act B) (w : world) :
  (m ≫= f) w = match m w with
               | (w', Ok a) => f a w'
               | (w', Raise e) => (w', Raise e)
               end.
Proof. reflexivity. Qed.

Lemma insert_db_entry_refused (name : string) (entry : pydict) (id : value) (w : world) :
  dict_get "_id" entry = Some id →
  existsb (match_field "_id" id) (coll name (db w)) = true →
  insert_db_entry name entry w = (w, Ok entry).
Proof.
  intros Hid Hdup. unfold insert_db_entry, try_except, insert_one. rewrite Hid.
  cbv [mbind act_bind reads modify lift mret act_ret]. by rewrite Hdup.
Qed.

Section Rerun.
Context (E : externals) (cfg : config) (c : consumer).
Context (path_alerts path_tess datestr : string) (save_packets : bool) (payload : string).

Lemma store_aux_Raise (objectId : value) (alert : pydict) (items : list value)
    (w w' : world) (e : exn) :
  store_aux E cfg objectId alert items w = (w', Raise e) → db w' = db w.
Proof.
  unfold store_aux, count_documents. cbv [mbind act_bind reads lift]. cbv beta iota.
  destruct (existsb (match_field "_id" objectId)
              (coll (collection_alerts_aux cfg) (db w))).
  - change (1 =? 0) with false. cbv beta iota.
    unfold update_one_addToSet. cbv [mbind act_bind reads modify lift]. cbv beta iota.
    match goal with |- context [update_first ?p ?f ?d] =>
      destruct (update_first p f d) as [[docs'|e']|] end; cbv beta iota; try discriminate.
    by intros [= <- _].
  - change (0 =? 0) with true. cbv beta iota.
    destruct (alert_filter__xmatch E cfg (db w) alert) as [xm|e']; [|by intros [= <- _]].
    destruct (alert_filter__xmatch_clu E (db w) alert 3 "CLU_20190625") as [xc|e'];
      [|by intros [= <- _]].
    match goal with |- context [insert_db_entry ?n ?en w] =>
      destruct (insert_db_entry_cases n en w) as (w1 & en' & -> & _)
    end.
    discriminate.
Qed.

Lemma store_aux_absorbed (objectId : value) (alert : pydict) (items l : list value)
    (w : world) :
  aux_prv cfg (db w) objectId = Some l → (∀ x, x ∈ items → x ∈ l) →
  ∃ w', store_aux E cfg objectId alert items w = (w', Ok tt) ∧ db w' = db w.
Proof.
  intros Hl Hsub.
  pose proof (store_aux_noop E cfg objectId alert items l w Hl Hsub) as Hdb.
  destruct (store_aux E cfg objectId alert items w) as [w' [[]|e]] eqn:Hrun; [by eauto|].
  exfalso. revert Hrun. unfold aux_prv in Hl. unfold store_aux, count_documents.
  cbv [mbind act_bind reads]. rewrite (prv_of_existsb _ _ _ Hl). cbv beta iota.
  change (1 =? 0) with false. cbv beta iota.
  unfold update_one_addToSet. cbv [mbind act_bind reads modify lift]. cbv beta iota.
  by rewrite (update_first_absorbs _ _ _ _ Hl Hsub).
Qed.

(** What a second handling of a record does, after a first one that ended
    in [w1], well or not: it leaves the store as it is, and it ends as the
    first one did unless the record is in the primary collection by now. *)
Lemma ingest_record_again (record : value) (w w1 w2 : world) (r : result unit) :
  ingest_record E cfg c path_alerts path_tess datestr save_packets payload record w
    = (w1, r) →
  db w2 = db w1 →
  db (ingest_record E cfg c path_alerts path_tess datestr save_packets payload
        record w2).1 = db w2 ∧
  ((∀ candid, getitem record "candid" = Ok candid → present cfg (db w1) candid = false) →
   (ingest_record E cfg c path_alerts path_tess datestr save_packets payload
      record w2).2 = r).
Proof.
  intros Hrun Hw2.
  cut (∃ w3 r', ingest_record E cfg c path_alerts path_tess datestr save_packets payload
                  record w2 = (w3, r') ∧ db w3 = db w2 ∧
                ((∀ candid, getitem record "candid" = Ok candid →
                            present cfg (db w1) candid = false) → r' = r)).
  { intros (w3 & r' & -> & ? & ?). done. }
  revert Hrun. unfold ingest_record, count_documents.
  destruct (getitem record "candid") as [candid|e0] eqn:Hc.
  2: { intros [= <- <-]. by eauto. }
  destruct (getitem record "objectId") as [objectId|e0] eqn:Ho.
  2: { intros [= <- <-]. by eauto. }
  cbv [mbind act_bind lift reads mret act_ret]. cbv beta iota.
  fold (present cfg (db w) candid). fold (present cfg (db w2) candid).
  destruct (present cfg (db w2) candid) eqn:Hp2.
  { (* in the primary collection by now: skipped *)
    intros _. exists w2, (Ok tt). split; [reflexivity|]. split; [done|].
    intros Hnp. specialize (Hnp candid eq_refl). congruence. }
  destruct (present cfg (db w) candid) eqn:Hp0.
  { intros [= <- <-]. congruence. }
  change (0 =? 0) with true. cbv beta iota.
  assert (Hsave : ∀ w0 : world,
            ∃ w0', (if save_packets
                    then write_file (path_join (path_join path_alerts datestr)
                                               (py_str E candid +:+ ".avro"))
                                    (FBytes payload)
                    else fun w3 : world => (w3, Ok tt)) w0 = (w0', Ok tt) ∧
                   db w0' = db w0).
  { intros w0. destruct save_packets; eexists; split; reflexivity. }
  destruct (Hsave w) as (wa & -> & Hwa). destruct (Hsave w2) as (wa2 & -> & Hwa2).
  clear Hsave. cbv beta iota.
  destruct (alert_mongify E record) as [[alert prv]|e0] eqn:Hm.
  2: { intros [= <- <-]. by eauto. }
  cbv beta iota.
  destruct (alert_filter__ml E record (ml_models c)) as [scores|e0] eqn:Hml.
  2: { intros [= <- <-]. by eauto. }
  destruct (insert_db_entry_cases (collection_alerts cfg)
              (dict_set "classifications" (VDict scores) alert) wa)
    as (wb & entry' & -> & Hkeys & _ & Hcase).
  cbv beta iota.
  (* once inserted, the record is in the primary collection for good *)
  assert (Hin : ∀ D, db wb = <[collection_alerts cfg :=
                                 coll (collection_alerts cfg) (db wa) ++ [VDict entry']]>
                               (db wa) →
                     db_steps (db wb) D → D = db w2 → False).
  { intros D Hdb Hsteps ->.
    assert (present cfg (db w2) candid = true); [|congruence].
    unfold present. eapply db_steps_present; [exact Hsteps | done |].
    rewrite Hdb, coll_insert_eq, existsb_app. simpl.
    rewrite Hkeys, dict_get_set_ne by done.
    destruct (alert_mongify_keeps E record alert prv "candid" Hm) as (d & Hd & ->);
      try done.
    apply (getitem_py_dict _ _ _ _ Hc) in Hd as ->. simpl in Hc. destruct (dict_get "candid" d); [|discriminate].
    injection Hc as ->. rewrite value_eqb_refl. by rewrite orb_true_r. }
  (* a refused insert is refused again *)
  assert (Hre : ∀ D id, dict_get "_id" (dict_set "classifications" (VDict scores) alert)
                        = Some id →
                  existsb (match_field "_id" id) (coll (collection_alerts cfg) (db wa)) = true →
                  db_steps (db wa) D → D = db w2 →
                  insert_db_entry (collection_alerts cfg)
                    (dict_set "classifications" (VDict scores) alert) wa2
                  = (wa2, Ok (dict_set "classifications" (VDict scores) alert))).
  { intros D id Hid Hdup Hsteps ->. apply (insert_db_entry_refused _ _ id); [done|].
    rewrite Hwa2. by eapply db_steps_present. }
  match goal with |- context [result_bind ?A ?B ?f ?x] =>
    destruct (result_bind A B f x) as [items|e0] eqn:Hi
  end.
  2: { intros [= <- <-].
       destruct Hcase as [[Hdb _] | (id & Hid & -> & -> & Hdup)].
       - destruct (Hin (db wb) Hdb); [done | by symmetry].
       - rewrite (Hre (db wa) id Hid Hdup) by done. cbv beta iota.
         by eauto. }
  destruct (store_aux E cfg objectId entry' items wb) as [wc r2] eqn:Hst.
  assert (Hsteps : db_steps (db wb) (db wc)).
  { pose proof (store_aux_steps E cfg objectId entry' items wb) as Hk.
    by rewrite Hst in Hk. }
  destruct r2 as [[]|e0].
  - (* the auxiliary document was written; what came after decides *)
    intros Hafter.
    assert (Hw1 : db w1 = db wc).
    { pose proof (keeps_eq_db
        (after_store E cfg c objectId items entry' path_tess datestr save_packets) wc) as Hk.
      rewrite Hafter in Hk. apply Hk. apply keeps_after_store; tc_solve. }
    destruct Hcase as [[Hdb _] | (id & Hid & -> & -> & Hdup)].
    { destruct (Hin (db wc) Hdb Hsteps). congruence. }
    rewrite (Hre (db wc) id Hid Hdup Hsteps) by congruence. cbv beta iota.
    apply store_aux_Ok in Hst as (l & Hl & Hsub).
    assert (Hwc2 : db wa2 = db wc) by congruence.
    rewrite <- Hwc2 in Hl.
    destruct (store_aux_absorbed objectId
                (dict_set "classifications" (VDict scores) alert) items l wa2 Hl Hsub)
      as (wc2 & -> & Hdb2).
    destruct (by_db_after_store E cfg c objectId items
                (dict_set "classifications" (VDict scores) alert) path_tess datestr
                save_packets wc wc2 ltac:(congruence)) as [Hres Hdb].
    rewrite Hafter in Hres, Hdb. simpl in Hres, Hdb.
    destruct (after_store E cfg c objectId items _ path_tess datestr save_packets wc2)
      as [w3 r'].
    simpl in *. exists w3, r'. split; [done|]. split; [congruence|]. by intros _.
  - (* the auxiliary update was refused *)
    intros [= <- <-]. apply store_aux_Raise in Hst as Hdbc.
    destruct Hcase as [[Hdb _] | (id & Hid & -> & -> & Hdup)].
    { destruct (Hin (db wc) Hdb Hsteps). congruence. }
    rewrite (Hre (db wc) id Hid Hdup Hsteps) by congruence. cbv beta iota.
    destruct (by_db_store_aux E cfg objectId
                (dict_set "classifications" (VDict scores) alert) items wa wa2
                ltac:(congruence)) as [Hres Hdb].
    rewrite Hst in Hres, Hdb. simpl in Hres, Hdb.
    destruct (store_aux E cfg objectId _ items wa2) as [w3 r'].
    simpl in *. subst r'. exists w3, (Raise e0). split; [done|]. split; [congruence|].
    by intros _.
Qed.

End Rerun.

Section Again.
Context (E : externals) (cfg : config) (c : consumer).
Context (path_alerts path_tess datestr : string) (save_packets : bool) (payload : string).

Abbreviation run_record := (ingest_record E cfg c path_alerts path_tess datestr save_packets
                                      payload).
Abbreviation run_records := (ingest_records E cfg c path_alerts path_tess datestr save_packets
                                        payload).

(** A pass that raises stopped at a record, having handled the ones before. *)
Lemma ingest_records_Raise (records : list value) (w w1 : world) (e : exn) :
  run_records records w = (w1, Raise e) →
  ∃ pre record post w',
    records = pre ++ record :: post ∧
    run_records pre w = (w', Ok tt) ∧ run_record record w' = (w1, Raise e).
Proof.
  revert w. induction records as [|x records IH]; intros w H; simpl in H; [discriminate|].
  rewrite act_bind_run in H.
  destruct (run_record x w) as [w0 [[]|e0]] eqn:Hx.
  - destruct (IH w0 H) as (pre & record & post & w' & -> & Hpre & Hr).
    exists (x :: pre), record, post, w'. split; [done|]. split; [|done].
    simpl. rewrite act_bind_run. by rewrite Hx.
  - injection H as <- <-. by exists [], x, records, w.
Qed.

(** A pass over records none of which changes the store [D]. *)
Lemma ingest_records_quiet (D : gmap string (list value)) (records : list value)
    (w : world) :
  Forall (fun x => ∀ w2, db w2 = D → db (run_record x w2).1 = D) records →
  db w = D → db (run_records records w).1 = D.
Proof.
  intros H. revert w. induction H as [|x records Hx _ IH]; intros w Hw; simpl; [done|].
  apply bind_db; [by apply Hx|]. intros [] w' Hrun Hw'. by apply IH.
Qed.

(** The same when the pass is stopped by a record on the way. *)
Lemma ingest_records_quiet_stop (D : gmap string (list value))
    (pre post : list value) (record : value) (w : world) :
  Forall (fun x => ∀ w2, db w2 = D → db (run_record x w2).1 = D) pre →
  (∀ w2, db w2 = D → db (run_record record w2).1 = D ∧
                      ∃ e, (run_record record w2).2 = Raise e) →
  db w = D → db (run_records (pre ++ record :: post) w).1 = D.
Proof.
  intros H Hr. revert w. induction H as [|x pre Hx _ IH]; intros w Hw; simpl.
  - rewrite act_bind_run. destruct (Hr w Hw) as [Hdb [e He]].
    destruct (run_record record w) as [w' r]. simpl in *. by subst r.
  - apply bind_db; [by apply Hx|]. intros [] w' Hrun Hw'. by apply IH.
Qed.

Lemma settled_quiet (D : gmap string (list value)) (record : value) :
  settled E cfg D record → ∀ w2, db w2 = D → db (run_record record w2).1 = D.
Proof. intros Hs w2 <-. by apply settled_noop. Qed.

End Again.

Section Idempotence.
Context (E : externals) (cfg : config) (c : consumer).
Context (path_alerts path_tess datestr : string) (save_packets : bool).


End Idempotence.





(** ** More on the loading of filter templates and on the TESS dump *)

Lemma group_by_constant (k : value) (docs : list value) :
  group_by (ELit k) docs = match docs with [] => [] | _ => [(k, docs)] end.
Proof.
  unfold group_by.
  assert (H : ∀ ds pre, pre ≠ [] →
            fold_left (fun groups doc => group_add k doc groups)
                      ds [(k, pre)] = [(k, pre ++ ds)]).
  { intros ds. induction ds as [|doc ds IH]; intros pre Hpre; simpl.
    - by rewrite app_nil_r.
    - rewrite value_eqb_refl, IH, <- app_assoc; [done|]. by destruct pre. }
  destruct docs as [|doc docs]; [done|]. simpl. by rewrite (H docs [doc]).
Qed.

(** Whatever the [filters] collection holds, at most one template is
    loaded: the key of the [$group] stage is a constant. *)
Lemma load_filter_templates_at_most_one (E : externals) (cfg : config)
    (database : gmap string (list value)) (fts : list value) :
  load_filter_templates E cfg database = Ok fts → (length fts ≤ 1)%nat.
Proof.
  unfold load_filter_templates, group_max_last. intros H.
  change (expr_of (VStr "science_program_id")) with (ELit (VStr "science_program_id")) in H.
  rewrite group_by_constant in H.
  destruct (List.filter _ _) as [|doc docs]; simpl in H.
  - injection H as <-. simpl. lia.
  - inv_bind H. injection H as <-. simpl. lia.
Qed.

(** Line 458 pops a key of the projected auxiliary document; what line 460
    then reads from it is what it would have read without the [pop]. *)
Lemma pop_clu_leaves_cross_matches (xmatches : pydict) :
  getitem (VDict (dict_pop "CLU_20190625" xmatches)) "cross_matches"
    = getitem (VDict xmatches) "cross_matches".
Proof. simpl. by rewrite dict_get_pop_ne. Qed.

(** ** The invariant of the primary collection *)

Section PrimaryInvariant.
Context (E : externals) (cfg : config).

#[local] Instance geo_rel_po : PreOrder (geo_rel cfg).
Proof.
  split; [intros D H; exact H | intros D1 D2 D3 H12 H23 H; exact (H23 (H12 H))].
Qed.

Lemma radec_geojson_ok_ext (d d' : pydict) :
  dict_get "candidate" d' = dict_get "candidate" d →
  dict_get "coordinates" d' = dict_get "coordinates" d →
  radec_geojson_ok (VDict d) → radec_geojson_ok (VDict d').
Proof.
  intros Hc Hco Hok cand ra dec Hcand. simpl in *. rewrite Hc in Hcand. rewrite Hco.
  by apply Hok.
Qed.

Lemma radec_geojson_ok_no_candidate (d : pydict) :
  dict_get "candidate" d = None → radec_geojson_ok (VDict d).
Proof. intros Hd cand ra dec Hc. simpl in Hc. by rewrite Hd in Hc. Qed.

Lemma insert_db_entry_geo (name : string) (entry : pydict) :
  radec_geojson_ok (VDict entry) → keeps (geo_rel cfg) (insert_db_entry name entry).
Proof.
  intros Hok w Hall.
  destruct (insert_db_entry_cases name entry w)
    as (w' & entry' & -> & Hkeys & _ & [[Hdb _] | (_ & _ & _ & -> & _)]); [|done].
  simpl. rewrite Hdb. destruct (decide (name = collection_alerts cfg)) as [->|Hne].
  - rewrite coll_insert_eq. apply Forall_app. split; [done|]. constructor; [|done].
    apply (radec_geojson_ok_ext entry); [by apply Hkeys.. | done].
  - by rewrite coll_insert_ne.
Qed.

Lemma update_one_addToSet_geo (name : string) (id : value) (items : list value) :
  keeps (geo_rel cfg) (update_one_addToSet name id "prv_candidates" items).
Proof.
  intros w Hall. unfold update_one_addToSet.
  cbv [mbind act_bind reads modify lift mret act_ret]; simpl.
  destruct (update_first _ _ _) as [[docs'|e]|] eqn:Hu; simpl; [| done |].
  - destruct (decide (name = collection_alerts cfg)) as [->|Hne];
      [rewrite coll_insert_eq | by rewrite coll_insert_ne].
    apply update_first_Ok in Hu as (pre & d & d' & post & Hdocs & -> & Hd & _ & _).
    rewrite Hdocs in Hall. apply Forall_app in Hall as [Hpre Hpost].
    apply Forall_cons in Hpost as [Hd0 Hpost].
    apply Forall_app. split; [done|]. constructor; [|done].
    apply addToSet_doc_Ok in Hd as (dd & l & -> & _ & ->).
    apply (radec_geojson_ok_ext dd); [by rewrite dict_get_set_ne.. | done].
  - destruct (decide (name = collection_alerts cfg)) as [->|Hne];
      [rewrite coll_insert_eq | by rewrite coll_insert_ne].
    apply Forall_app. split; [done|]. constructor; [|done].
    by apply radec_geojson_ok_no_candidate.
Qed.

Lemma keeps_bind_lift {A B} (R : relation (gmap string (list value))) `{!PreOrder R}
    (r : result A) (f : A → act B) :
  (∀ a, r = Ok a → keeps R (f a)) → keeps R (lift r ≫= f).
Proof.
  intros Hf w. unfold mbind, act_bind, lift. destruct r as [a|e]; simpl; [|reflexivity].
  by apply Hf.
Qed.

Lemma alert_mongify_geo (record : value) (alert : pydict) (prv : value) :
  alert_mongify E record = Ok (alert, prv) → radec_geojson_ok (VDict alert).
Proof.
  intros Hm cand ra dec Hc Hra Hdec.
  destruct (alert_mongify_keeps E record alert prv "candidate" Hm) as (d & Hd & Hk);
    try done.
  apply alert_mongify_coordinates in Hm
    as (d' & cand' & ra' & dec' & hms & dms & ra180 & l & b
        & Hd' & Hc' & Hra' & Hdec' & Hsub & Hco).
  rewrite Hd in Hd'. injection Hd' as <-.
  simpl in Hc. rewrite Hk, Hc' in Hc. injection Hc as ->.
  assert (ra' = ra) as -> by congruence. assert (dec' = dec) as -> by congruence.
  exists ra180. split; [done|]. simpl. by rewrite Hco.
Qed.

Lemma store_aux_geo (objectId : value) (alert : pydict) (prv : list value) :
  keeps (geo_rel cfg) (store_aux E cfg objectId alert prv).
Proof.
  unfold store_aux.
  repeat first [ apply update_one_addToSet_geo
               | apply insert_db_entry_geo; by apply radec_geojson_ok_no_candidate
               | keeps_step ].
Qed.

Lemma ingest_record_geo (c : consumer) (path_alerts path_tess datestr : string)
    (save_packets : bool) (payload : string) (record : value) :
  keeps (geo_rel cfg)
    (ingest_record E cfg c path_alerts path_tess datestr save_packets payload record).
Proof.
  unfold ingest_record.
  repeat first [ apply store_aux_geo | apply keeps_after_store; tc_solve
               | apply insert_db_entry_geo
               | apply keeps_bind_lift; [tc_solve|]; intros ? ?
               | keeps_step ].
  match goal with H : alert_mongify _ _ = Ok _ |- _ => apply alert_mongify_geo in H end.
  eapply radec_geojson_ok_ext; [| |eassumption]; by rewrite dict_get_set_ne.
Qed.

Lemma ingest_records_geo (c : consumer) (path_alerts path_tess datestr : string)
    (save_packets : bool) (payload : string) (records : list value) :
  keeps (geo_rel cfg)
    (ingest_records E cfg c path_alerts path_tess datestr save_packets payload records).
Proof.
  induction records as [|record records IH]; simpl.
  - apply keeps_ret; tc_solve.
  - apply keeps_bind; [tc_solve | apply ingest_record_geo | intros _; exact IH].
Qed.

Lemma poll_geo (c : consumer) (path_alerts path_tess datestr : string)
    (save_packets : bool) (ev : poll_event) :
  keeps (geo_rel cfg) (poll E cfg c path_alerts path_tess datestr save_packets ev).
Proof.
  unfold poll, consumer_poll.
  repeat first [ apply keeps_run_callbacks; tc_solve | apply ingest_records_geo
               | keeps_step ].
Qed.


End PrimaryInvariant.

(** * Further properties *)

(** ** What a worker leaves alone *)

Section Stable.
Context {X : Type} (f : world → X).

Lemma stable_ret {A} (a : A) : stable f (mret a).
Proof. by intros w. Qed.

Lemma stable_lift {A} (r : result A) : stable f (lift r).
Proof. by intros w. Qed.

Lemma stable_reads {A} (g : world → A) : stable f (reads g).
Proof. by intros w. Qed.

Lemma stable_bind {A B} (m : act A) (k : A → act B) :
  stable f m → (∀ a, stable f (k a)) → stable f (m ≫= k).
Proof.
  intros Hm Hk w. unfold mbind, act_bind. specialize (Hm w).
  destruct (m w) as [w' [a|e]]; simpl in *; [|done]. by rewrite Hk.
Qed.

Lemma stable_try_except {A} (m : act A) (h : exn → act A) :
  stable f m → (∀ e, stable f (h e)) → stable f (try_except m h).
Proof.
  intros Hm Hh w. unfold try_except. specialize (Hm w).
  destruct (m w) as [w' [a|e]]; simpl in *; [done|].
  destruct (is_Exception e); simpl; [|done]. by rewrite Hh.
Qed.

Lemma stable_modify (g : world → world) : (∀ w, f (g w) = f w) → stable f (modify g).
Proof. intros Hg w. apply Hg. Qed.

End Stable.

Ltac stable_step :=
  first
    [ apply stable_ret | apply stable_lift | apply stable_reads
    | apply stable_bind; [|intro]
    | apply stable_try_except; [|intro]
    | match goal with
      | |- stable _ (if ?b then _ else _) => destruct b
      | |- stable _ (let '(_, _) := ?p in _) => destruct p
      | |- stable _ (match ?x with _ => _ end) => destruct x
      end ].

Section StableModel.
Context (E : externals) (cfg : config) {X : Type} (f : world → X).
Hypothesis f_db : ∀ d w, f (set_db d w) = f w.
Hypothesis f_oid : ∀ n w, f (set_next_oid n w) = f w.

Lemma stable_insert_one (name : string) (doc : pydict) : stable f (insert_one name doc).
Proof.
  unfold insert_one. repeat stable_step; apply stable_modify; intros w;
    by rewrite ?f_oid, ?f_db.
Qed.

Lemma stable_insert_db_entry (name : string) (entry : pydict) :
  stable f (insert_db_entry name entry).
Proof.
  unfold insert_db_entry. apply stable_try_except; [apply stable_insert_one|].
  intros e. apply stable_ret.
Qed.

Lemma stable_update_one_addToSet (name : string) (id : value) (field : string)
    (items : list value) :
  stable f (update_one_addToSet name id field items).
Proof.
  unfold update_one_addToSet, count_documents.
  repeat stable_step; apply stable_modify; intros w; by rewrite f_db.
Qed.

Lemma stable_store_aux (objectId : value) (alert : pydict) (prv : list value) :
  stable f (store_aux E cfg objectId alert prv).
Proof.
  unfold store_aux, count_documents.
  repeat first [ apply stable_insert_db_entry | apply stable_update_one_addToSet
               | stable_step ].
Qed.

End StableModel.

Lemma stable_run_callbacks {X} (f : world → X) (cbs : list callback) :
  (∀ n w, f (set_num_partitions n w) = f w) →
  (∀ n w, f (set_num_disconnected_partitions n w) = f w) →
  stable f (run_callbacks cbs).
Proof.
  intros Hp Hd. induction cbs as [|[parts|code] cbs IH]; simpl.
  - apply stable_ret.
  - apply stable_bind; [|intros _; exact IH]. apply stable_modify. intros w. apply Hp.
  - apply stable_bind; [|intros _; exact IH]. unfold error_cb.
    repeat first [apply stable_modify; intros w; apply Hd | stable_step].
Qed.

Lemma stable_listener_loop {X} (f : world → X) (E : externals) (cfg : config)
    (c : consumer) (path_alerts path_tess datestr : string) (save_packets test : bool)
    (evs : list poll_event) (w : world) :
  (∀ ev, stable f (poll E cfg c path_alerts path_tess datestr save_packets ev)) →
  f (listener_loop E cfg c path_alerts path_tess datestr save_packets test evs w).1 = f w.
Proof.
  intros Hpoll. revert w. induction evs as [|ev evs IH]; intros w; simpl; [done|].
  unfold listener_step. specialize (Hpoll ev w).
  destruct (poll E cfg c path_alerts path_tess datestr save_packets ev w) as [w' r].
  simpl in Hpoll. rewrite <- Hpoll.
  destruct r as [[]|[]]; simpl; try done; try apply IH; destruct test; simpl; try done;
    apply IH.
Qed.

Section NoIO.
Context (E : externals) (cfg : config) (c : consumer).
Context (path_alerts path_tess datestr : string).

Lemma ingest_record_noio (payload : string) (record : value) :
  stable files
    (ingest_record E cfg c path_alerts path_tess datestr false payload record).
Proof.
  unfold ingest_record, after_store, tess_dump, post_to_portal, post, count_documents,
    find_one_projected. simpl.
  repeat first [ apply stable_insert_db_entry; done | apply stable_store_aux; done
               | apply stable_modify; done | stable_step ].
Qed.

Lemma ingest_records_noio (payload : string) (records : list value) :
  stable files
    (ingest_records E cfg c path_alerts path_tess datestr false payload records).
Proof.
  induction records as [|record records IH]; simpl; [apply stable_ret|].
  apply stable_bind; [apply ingest_record_noio | intros _; exact IH].
Qed.

Lemma poll_noio (ev : poll_event) :
  stable files (poll E cfg c path_alerts path_tess datestr false ev).
Proof.
  unfold poll, consumer_poll.
  repeat first [ apply stable_run_callbacks; done | apply ingest_records_noio
               | stable_step ].
Qed.

(** With [save_packets] off (the [--noio] switch), a worker writes no file:
    neither a raw packet nor a TESS dump, whatever it is sent. *)
Theorem noio_writes_no_file (test : bool) (evs : list poll_event) (w : world) :
  files (listener_loop E cfg c path_alerts path_tess datestr false test evs w).1
    = files w.
Proof. apply (stable_listener_loop files). apply poll_noio. Qed.

End NoIO.

Section NoPost.
Context (E : externals) (cfg : config) (c : consumer).
Context (path_alerts path_tess datestr : string) (save_packets : bool).
Hypothesis post_off : post_to_skyportal cfg = false.

Lemma ingest_record_nopost (payload : string) (record : value) :
  stable posts
    (ingest_record E cfg c path_alerts path_tess datestr save_packets payload record).
Proof.
  unfold ingest_record, after_store, tess_dump, count_documents, find_one_projected,
    write_file.
  rewrite post_off.
  repeat first [ apply stable_insert_db_entry; done | apply stable_store_aux; done
               | apply stable_modify; done | stable_step ].
Qed.

Lemma ingest_records_nopost (payload : string) (records : list value) :
  stable posts
    (ingest_records E cfg c path_alerts path_tess datestr save_packets payload records).
Proof.
  induction records as [|record records IH]; simpl; [apply stable_ret|].
  apply stable_bind; [apply ingest_record_nopost | intros _; exact IH].
Qed.

Lemma poll_nopost (ev : poll_event) :
  stable posts (poll E cfg c path_alerts path_tess datestr save_packets ev).
Proof.
  unfold poll, consumer_poll.
  repeat first [ apply stable_run_callbacks; done | apply ingest_records_nopost
               | stable_step ].
Qed.

End NoPost.

(** With [misc.post_to_skyportal] off, a worker sends nothing to the
    portal, whatever it is sent. *)
Theorem post_off_posts_nothing (E : externals) (cfg : config) (c : consumer)
    (path_alerts path_tess datestr : string) (save_packets test : bool)
    (evs : list poll_event) (w : world) :
  post_to_skyportal cfg = false →
  posts (listener_loop E cfg c path_alerts path_tess datestr save_packets test evs w).1
    = posts w.
Proof.
  intros Hoff. apply (stable_listener_loop posts). intros ev. by apply poll_nopost.
Qed.

Lemma post_off_posts_nothing_witness :
  post_to_skyportal Demo.cfg0 = false ∧
  posts (listener_loop Demo.E0 Demo.cfg0 Demo.c0 "/alerts" "/tess" "20200301" true false
           [Demo.one_message [Demo.fresh_record]] Demo.w0).1 = posts Demo.w0.
Proof.
  split; [reflexivity|].
  apply (post_off_posts_nothing Demo.E0 Demo.cfg0 Demo.c0 "/alerts" "/tess" "20200301"
           true false [Demo.one_message [Demo.fresh_record]] Demo.w0).
  reflexivity.
Defined.

(** ** Records that are already in the store *)

Section Skip.
Context (E : externals) (cfg : config) (c : consumer).
Context (path_alerts path_tess datestr : string) (save_packets : bool).

Lemma ingest_record_present (payload : string) (record : value) (w : world) :
  (∀ candid, getitem record "candid" = Ok candid → present cfg (db w) candid = true) →
  (ingest_record E cfg c path_alerts path_tess datestr save_packets payload record w).1
    = w ∧
  ∀ e, (ingest_record E cfg c path_alerts path_tess datestr save_packets payload
          record w).2 = Raise e → is_Exception e = true.
Proof.
  intros Hp. unfold ingest_record, count_documents.
  cbv [mbind act_bind lift reads mret act_ret].
  destruct (getitem record "candid") as [candid|e] eqn:Hc; simpl.
  2: { split; [done|]. intros ? [= <-]. destruct record; simpl in Hc; try by injection Hc as <-.
       destruct (dict_get "candid" d); [discriminate | by injection Hc as <-]. }
  destruct (getitem record "objectId") as [objectId|e] eqn:Ho; simpl.
  2: { split; [done|]. intros ? [= <-]. destruct record; simpl in Ho; try by injection Ho as <-.
       destruct (dict_get "objectId" d); [discriminate | by injection Ho as <-]. }
  specialize (Hp candid eq_refl). unfold present in Hp. rewrite Hp. simpl.
  split; [done | discriminate].
Qed.

(** A message whose records are all in the primary collection already
    changes nothing at all: no collection, no file, no post, no counter. *)
Theorem poll_known_message_changes_nothing (m : message) (records : list value)
    (w : world) :
  msg_error m = None → msg_decoded m = Ok records →
  Forall (fun record => ∀ candid, getitem record "candid" = Ok candid →
                                  present cfg (db w) candid = true) records →
  poll E cfg c path_alerts path_tess datestr save_packets ([], Some m) w = (w, Ok tt).
Proof.
  intros He Hd Hall. unfold poll, consumer_poll. simpl.
  cbv [mbind act_bind mret act_ret]. simpl. rewrite He, Hd.
  unfold try_except. cbv [mbind act_bind lift]. simpl.
  assert (H : (ingest_records E cfg c path_alerts path_tess datestr save_packets
                 (msg_value m) records w).1 = w ∧
              ∀ e, (ingest_records E cfg c path_alerts path_tess datestr save_packets
                      (msg_value m) records w).2 = Raise e → is_Exception e = true).
  { clear He Hd. induction Hall as [|record records Hr _ IH]; simpl; [by split|].
    destruct (ingest_record_present (msg_value m) record w Hr) as [Hw Hex].
    unfold mbind, act_bind.
    destruct (ingest_record _ _ _ _ _ _ _ _ _ _) as [w1 [[]|e]]; simpl in *; subst w1.
    - exact IH.
    - split; [done|]. intros ? [= <-]. by apply Hex. }
  destruct H as [Hw Hex].
  destruct (ingest_records _ _ _ _ _ _ _ _ _ _) as [w1 [[]|e]]; simpl in *; subst w1;
    [done|]. by rewrite (Hex e eq_refl).
Qed.

End Skip.

Lemma poll_known_message_changes_nothing_witness :
  let w1 := (poll Demo.E0 Demo.cfg0 Demo.c0 "/alerts" "/tess" "20200301" true
               (Demo.one_message [Demo.fresh_record]) Demo.w0).1 in
  poll Demo.E0 Demo.cfg0 Demo.c0 "/alerts" "/tess" "20200301" true
       (Demo.one_message [Demo.fresh_record]) w1 = (w1, Ok tt).
Proof.
  apply (poll_known_message_changes_nothing Demo.E0 Demo.cfg0 Demo.c0 "/alerts" "/tess"
           "20200301" true (Demo.message_of [Demo.fresh_record]) [Demo.fresh_record]);
    [reflexivity | reflexivity |].
  repeat constructor. intros candid [= <-]. vm_compute. reflexivity.
Defined.

(** ** Documents are never deleted and only [prv_candidates] changes *)

Lemma addToSet_doc_same_but_prv (items : list value) (doc doc' : value) :
  addToSet_doc "prv_candidates" items doc = Ok doc' → same_but_prv doc doc'.
Proof.
  intros (d & l & -> & _ & ->)%addToSet_doc_Ok k Hk. simpl.
  by rewrite dict_get_set_ne.
Qed.

Lemma docs_step_lookup (docs docs' : list value) (i : nat) (doc : value) :
  docs_step docs docs' → docs !! i = Some doc →
  ∃ doc', docs' !! i = Some doc' ∧ same_but_prv doc doc'.
Proof.
  intros [docs0 new | docs0 id items docs1 Hu] Hi.
  - exists doc. split; [by apply lookup_app_l_Some | done].
  - apply update_first_Ok in Hu as (pre & d & d' & post & -> & -> & Hd & _ & _).
    destruct (decide (i = length pre)) as [->|Hne].
    + rewrite list_lookup_middle in Hi by done. injection Hi as <-.
      exists d'. split; [by rewrite list_lookup_middle|].
      by eapply addToSet_doc_same_but_prv.
    + exists doc. split; [|done].
      destruct (decide (i < length pre)%nat).
      * rewrite lookup_app_l in * by done. done.
      * rewrite lookup_app_r in * by lia.
        destruct (i - length pre)%nat as [|j] eqn:Hj; [lia|]. done.
Qed.

Lemma db_steps_lookup (D D' : gmap string (list value)) (name : string) (i : nat)
    (doc : value) :
  db_steps D D' → coll name D !! i = Some doc →
  ∃ doc', coll name D' !! i = Some doc' ∧ same_but_prv doc doc'.
Proof.
  intros Hsteps. revert doc.
  induction Hsteps as [D | D D1 D2 [n docs' Hstep ->] _ IH]; intros doc Hi.
  - exists doc. by split.
  - assert (∃ doc1, coll name (<[n:=docs']> D) !! i = Some doc1 ∧ same_but_prv doc doc1)
      as (doc1 & H1 & Hs1).
    { destruct (decide (n = name)) as [->|Hne].
      - rewrite coll_insert_eq. by eapply docs_step_lookup.
      - rewrite coll_insert_ne by done. exists doc. by split. }
    destruct (IH doc1 H1) as (doc2 & H2 & Hs2).
    exists doc2. split; [done|]. intros k Hk. by rewrite Hs2, Hs1.
Qed.

Lemma docs_step_find (docs docs' : list value) (oid doc : value) :
  docs_step docs docs' → List.find (match_field "_id" oid) docs = Some doc →
  ∃ doc', List.find (match_field "_id" oid) docs' = Some doc' ∧ same_but_prv doc doc'.
Proof.
  intros [docs0 new | docs0 id items docs1 Hu] Hf.
  - exists doc. split; [|done]. by rewrite find_app, Hf.
  - apply update_first_Ok in Hu as (pre & d & d' & post & -> & -> & Hd & _ & _).
    rewrite find_app in *.
    destruct (List.find (match_field "_id" oid) pre); [by exists doc|].
    simpl in *. rewrite (match_field_addToSet_doc _ _ _ _ _ Hd) by done.
    destruct (match_field "_id" oid d).
    + injection Hf as <-. exists d'. split; [done|]. by eapply addToSet_doc_same_but_prv.
    + by exists doc.
Qed.

Lemma db_steps_find (D D' : gmap string (list value)) (name : string) (oid doc : value) :
  db_steps D D' → List.find (match_field "_id" oid) (coll name D) = Some doc →
  ∃ doc', List.find (match_field "_id" oid) (coll name D') = Some doc'
          ∧ same_but_prv doc doc'.
Proof.
  intros Hsteps. revert doc.
  induction Hsteps as [D | D D1 D2 [n docs' Hstep ->] _ IH]; intros doc Hf.
  - exists doc. by split.
  - assert (∃ doc1, List.find (match_field "_id" oid) (coll name (<[n:=docs']> D))
                      = Some doc1 ∧ same_but_prv doc doc1) as (doc1 & H1 & Hs1).
    { destruct (decide (n = name)) as [->|Hne].
      - rewrite coll_insert_eq. by eapply docs_step_find.
      - rewrite coll_insert_ne by done. exists doc. by split. }
    destruct (IH doc1 H1) as (doc2 & H2 & Hs2).
    exists doc2. split; [done|]. intros k Hk. by rewrite Hs2, Hs1.
Qed.

Section NeverDeleted.
Context (E : externals) (cfg : config) (c : consumer).
Context (path_alerts path_tess datestr : string) (save_packets test : bool).



End NeverDeleted.



(** ** The raw packet on disk *)

Lemma last_char_app (a b : string) : b ≠ "" → last_char (a +:+ b) = last_char b.
Proof.
  intros Hb. induction a as [|c a IH]; simpl; [done|].
  destruct (a +:+ b) eqn:Hab; [|done].
  destruct a; [destruct Hb; exact Hab | discriminate Hab].
Qed.

Lemma append_nonempty (a b : string) : b ≠ "" → a +:+ b ≠ "".
Proof. intros Hb Hab. destruct a; [by destruct Hb | discriminate Hab]. Qed.

Lemma last_char_path_join (a b : string) : b ≠ "" → last_char (path_join a b) = last_char b.
Proof.
  intros Hb. unfold path_join. destruct (String.prefix "/" b); [done|].
  destruct (_ || _)%bool.
  - by apply last_char_app.
  - rewrite last_char_app; [by apply last_char_app|]. by apply append_nonempty.
Qed.

Lemma avro_json_paths_differ (dir dir' name name' : string) :
  path_join dir (name +:+ ".avro") ≠ path_join dir' (name' +:+ ".json").
Proof.
  intros Heq. apply (f_equal last_char) in Heq.
  rewrite !last_char_path_join in Heq by (by apply append_nonempty).
  rewrite !last_char_app in Heq by done. discriminate.
Qed.

Lemma bind_lift_Ok {A B} (a : A) (k : A → act B) (w : world) :
  (lift (Ok a) ≫= k) w = k a w.
Proof. reflexivity. Qed.

Lemma bind_reads {A B} (g : world → A) (k : A → act B) (w : world) :
  (reads g ≫= k) w = k (g w) w.
Proof. reflexivity. Qed.

Lemma stable_after {X A B} (f : world → X) (m : act A) (k : A → act B) (w : world) :
  (∀ a, stable f (k a)) → f ((m ≫= k) w).1 = f (m w).1.
Proof.
  intros Hk. cbv [mbind act_bind]. destruct (m w) as [w' [a|e]]; simpl; [apply Hk | done].
Qed.

Section Packet.
Context (E : externals) (cfg : config) (c : consumer).
Context (path_alerts path_tess datestr : string).

Lemma stable_tess_dump_other (p : string) (objectId : value) (prv : list value)
    (alert : pydict) (save_packets : bool) :
  (∀ dir name, p ≠ path_join dir (name +:+ ".json")) →
  stable (fun w => files w !! p)
    (tess_dump E cfg objectId prv alert path_tess datestr save_packets).
Proof.
  intros Hp. unfold tess_dump, find_one_projected, write_file.
  repeat first [ apply stable_modify; intros w; simpl; by rewrite lookup_insert_ne
               | stable_step ].
Qed.

Lemma stable_post_other {X} (f : world → X) (endpoint : string) (body : value) :
  (∀ p w, f (set_posts p w) = f w) → stable f (post E cfg endpoint body).
Proof.
  intros Hf. unfold post. repeat first [apply stable_modify; intros w; apply Hf | stable_step].
Qed.

Lemma stable_after_store_other (p : string) (objectId : value) (prv : list value)
    (alert : pydict) (save_packets : bool) :
  (∀ dir name, p ≠ path_join dir (name +:+ ".json")) →
  stable (fun w => files w !! p)
    (after_store E cfg c objectId prv alert path_tess datestr save_packets).
Proof.
  intros Hp. unfold after_store, post_to_portal. simpl.
  repeat first [ apply stable_tess_dump_other; exact Hp
               | apply stable_post_other; done | stable_step ].
Qed.

(** When a record is new to the primary collection and packets are saved,
    the message's bytes are in [<path_alerts>/<datestr>/<candid>.avro] after
    the record has been handled, whatever else happened to the record. *)
Theorem new_record_packet_on_disk (payload : string) (record candid objectId : value)
    (w : world) :
  getitem record "candid" = Ok candid →
  getitem record "objectId" = Ok objectId →
  present cfg (db w) candid = false →
  files (ingest_record E cfg c path_alerts path_tess datestr true payload record w).1
    !! path_join (path_join path_alerts datestr) (py_str E candid +:+ ".avro")
    = Some (FBytes payload).
Proof.
  intros Hc Ho Hp. unfold ingest_record, count_documents.
  set (p := path_join (path_join path_alerts datestr) (py_str E candid +:+ ".avro")).
  assert (Hother : ∀ dir name, p ≠ path_join dir (name +:+ ".json"))
    by (intros dir name; apply avro_json_paths_differ).
  rewrite Hc, Ho. unfold present in Hp.
  rewrite !bind_lift_Ok, bind_reads, Hp. change (0 =? 0) with true. cbv iota.
  rewrite (stable_after (fun w => files w !! p)); [apply lookup_insert_eq|].
  intros [].
  repeat first [ apply stable_insert_db_entry; done | apply stable_store_aux; done
               | apply stable_after_store_other; exact Hother | stable_step ].
Qed.

End Packet.

Lemma new_record_packet_on_disk_witness :
  present Demo.cfg0 (db Demo.w0) (VInt 1001) = false ∧
  files (ingest_record Demo.E0 Demo.cfg0 Demo.c0 "/alerts" "/tess" "20200301" true
           "avro-bytes" Demo.fresh_record Demo.w0).1
    !! path_join (path_join "/alerts" "20200301") (py_str Demo.E0 (VInt 1001) +:+ ".avro")
    = Some (FBytes "avro-bytes").
Proof.
  split; [reflexivity|].
  apply (new_record_packet_on_disk Demo.E0 Demo.cfg0 Demo.c0 "/alerts" "/tess" "20200301"
           "avro-bytes" Demo.fresh_record (VInt 1001) (VStr "ZTF01") Demo.w0);
    reflexivity.
Defined.

(** ** More on the auth middleware *)

Lemma append_nil_r (s : string) : s +:+ "" = s.
Proof. induction s as [|c s IH]; [done|]. change (String c (s +:+ "") = String c s). by f_equal. Qed.

Lemma append_cons_assoc (a : string) (c : ascii) (s : string) :
  (a +:+ String c "") +:+ s = a +:+ String c s.
Proof.
  induction a as [|x a IH]; [done|].
  change (String x ((a +:+ String c "") +:+ s) = String x (a +:+ String c s)). by f_equal.
Qed.

Lemma split_go_no_blank (cur s : string) :
  no_blank s = true →
  split_go cur s = if String.eqb (cur +:+ s) "" then [] else [cur +:+ s].
Proof.
  revert cur. induction s as [|ch s IH]; intros cur Hs; simpl in *.
  - by rewrite append_nil_r.
  - apply andb_true_iff in Hs as [Hc Hs]. apply negb_true_iff in Hc. rewrite Hc.
    rewrite IH by done. by rewrite append_cons_assoc.
Qed.

Lemma split_no_blank (t : string) : no_blank t = true → t ≠ "" → split t = [t].
Proof.
  intros Ht Hne. unfold split. rewrite split_go_no_blank by done.
  change ("" +:+ t) with t. by apply String.eqb_neq in Hne as ->.
Qed.

(** Lines 21-22.  A token without white space is accepted after [Bearer],
    whatever it contains, and on its own when it does not itself contain
    [bearer] in any letter case: both headers hand the same token to
    [jwt.decode]. *)
Theorem bearer_prefix_is_optional (t : string) :
  no_blank t = true → t ≠ "" →
  bearer_token ("Bearer " +:+ t) = Ok t ∧
  (substringb "bearer" (lower t) = false → bearer_token t = Ok t).
Proof.
  intros Ht Hne. split.
  - unfold bearer_token.
    change (substringb "bearer" (lower ("Bearer " +:+ t))) with true.
    change (split ("Bearer " +:+ t)) with ("Bearer" :: split t).
    by rewrite split_no_blank.
  - intros Hb. unfold bearer_token. by rewrite Hb.
Qed.

Lemma bearer_prefix_is_optional_witness :
  bearer_token ("Bearer " +:+ "theBearerToken") = Ok "theBearerToken" ∧
  bearer_token ("Bearer " +:+ "good") = Ok "good" ∧ bearer_token "good" = Ok "good".
Proof.
  split; [apply (bearer_prefix_is_optional "theBearerToken"); [reflexivity | discriminate]|].
  destruct (bearer_prefix_is_optional "good") as [H1 H2]; [reflexivity | discriminate|].
  split; [exact H1 | apply H2; reflexivity].
Defined.

Section MiddlewareEdges.
Context (E : externals).

(** A token sent on its own that contains [bearer] in any letter case (and
    no white space) is taken for a [Bearer] header: its second word is asked for,
    and the [IndexError] leaves the middleware; no response is made and the
    handler is not called, whether the token is valid or not. *)
Theorem bare_token_containing_bearer_raises (req : request)
    (handler : request → result response) (t : string) :
  header_get "authorization" (headers req) = Some t →
  no_blank t = true → substringb "bearer" (lower t) = true →
  auth_middleware E req handler = Raise IndexError.
Proof.
  intros Hh Ht Hb. unfold auth_middleware. simpl. rewrite Hh.
  assert (t ≠ "") as Hne by (intros ->; discriminate).
  apply String.eqb_neq in Hne as Hne'. rewrite Hne'.
  unfold bearer_token. rewrite Hb, split_no_blank by done. reflexivity.
Qed.

(** A gated handler runs only for the user a decoded token names.  Either
    the outcome of a request does not depend on the handler at all, or it is
    the handler's outcome on the request with [user] set to the truthy
    [user_id] of the payload that [jwt.decode] returned for the presented
    token; behind [admin_required] that [user_id] is the admin name. *)
Theorem gated_handler_runs_only_for_decoded_user (req : request) (admin : string) :
  ((∃ r, ∀ func, auth_middleware E req (auth_required func) = r) ∨
   (∃ header token payload user_id,
      header_get "authorization" (headers req) = Some header ∧
      bearer_token header = Ok token ∧
      jwt_decode E token (jwt_secret req) (jwt_algorithm req) = Ok payload ∧
      getitem payload "user_id" = Ok user_id ∧ truthy user_id = true ∧
      ∀ func, auth_middleware E req (auth_required func) = func (set_user user_id req))) ∧
  ((∃ r, ∀ func, auth_middleware E req (admin_required admin func) = r) ∨
   (∃ header token payload,
      header_get "authorization" (headers req) = Some header ∧
      bearer_token header = Ok token ∧
      jwt_decode E token (jwt_secret req) (jwt_algorithm req) = Ok payload ∧
      getitem payload "user_id" = Ok (VStr admin) ∧ truthy (VStr admin) = true ∧
      ∀ func, auth_middleware E req (admin_required admin func)
              = func (set_user (VStr admin) req))).
Proof.
  unfold auth_middleware, auth_required, admin_required. simpl.
  destruct (header_get "authorization" (headers req)) as [header|] eqn:Hh;
    [|split; left; eauto].
  destruct (String.eqb header "") eqn:Hne; [split; left; eauto|].
  destruct (bearer_token header) as [token|e] eqn:Htok; simpl;
    [|split; left; destruct e; eauto].
  destruct (jwt_decode E token (jwt_secret req) (jwt_algorithm req)) as [payload|e] eqn:Hd;
    [|split; left; destruct e; eauto].
  destruct (getitem payload "user_id") as [user_id|e] eqn:Hu; simpl;
    [|split; left; eauto].
  destruct (truthy user_id) eqn:Ht; simpl; [|split; left; eauto].
  split.
  - right. exists header, token, payload, user_id. eauto 10.
  - destruct (value_eqb user_id (VStr admin)) eqn:Heq; simpl; [|left; eauto].
    apply value_eqb_eq in Heq as ->. right. exists header, token, payload. eauto 10.
Qed.

End MiddlewareEdges.

Lemma bare_token_containing_bearer_raises_witness :
  auth_middleware Demo.E0 (Demo.request_with (Some "goodBeaRerToken"))
                  (auth_required Demo.whoami) = Raise IndexError.
Proof.
  apply (bare_token_containing_bearer_raises Demo.E0
           (Demo.request_with (Some "goodBeaRerToken")) (auth_required Demo.whoami)
           "goodBeaRerToken"); reflexivity.
Defined.

(** ** Cross-matching and scoring *)

Section Annotators.
Context (E : externals) (cfg : config).

Lemma xmatch_loop_keys (D : gmap string (list value)) (ra dec : float)
    (catalogs : list (string * (pydict * pydict))) (acc : pydict) (k : string) (v : value) :
  dict_get k (xmatch_loop E cfg D ra dec catalogs acc).1 = Some v →
  dict_get k acc = Some v ∨
  ∃ flt prj s, (k, (flt, prj)) ∈ catalogs ∧ v = VList s ∧
               find_geo E (coll k D) flt prj ra dec (cone_search_radius cfg) = Ok s.
Proof.
  revert acc. induction catalogs as [|[catalog [flt prj]] rest IH]; intros acc; simpl.
  - auto.
  - destruct (find_geo E (coll catalog D) flt prj ra dec (cone_search_radius cfg))
      as [s|e] eqn:Hf; simpl; [|auto].
    intros H. destruct (IH _ H) as [Hacc | (flt' & prj' & s' & Hin & -> & Hs)].
    + destruct (String.eqb k catalog) eqn:Hk.
      * apply String.eqb_eq in Hk as ->. rewrite dict_get_set_eq in Hacc.
        injection Hacc as <-. right. exists flt, prj, s. split; [left|]; done.
      * apply String.eqb_neq in Hk. rewrite dict_get_set_ne in Hacc by done. auto.
    + right. exists flt', prj', s'. split; [by right|done].
Qed.

(** [alert_filter__xmatch] never raises an [Exception]: whatever goes wrong
    in reading the coordinates or in a catalog query is swallowed.  What it
    returns has entries only under configured catalog names, and each entry
    is the list the cone search on that catalog returned. *)
Theorem alert_filter__xmatch_only_catalogs (D : gmap string (list value)) (alert : pydict) :
  match alert_filter__xmatch E cfg D alert with
  | Ok xmatches =>
      ∀ k v, dict_get k xmatches = Some v →
        ∃ flt prj ra dec s,
          (k, (flt, prj)) ∈ xmatch_catalogs cfg ∧ v = VList s ∧
          find_geo E (coll k D) flt prj ra dec (cone_search_radius cfg) = Ok s
  | Raise e => is_Exception e = false
  end.
Proof.
  unfold alert_filter__xmatch.
  destruct (_ ≫= _) as [[ra dec]|e] eqn:Hc.
  - pose proof (xmatch_loop_keys D ra dec (xmatch_catalogs cfg) []) as Hk.
    destruct (xmatch_loop E cfg D ra dec (xmatch_catalogs cfg) []) as [xm [[]|e]];
      simpl in Hk.
    + intros k v Hv. destruct (Hk k v Hv) as [? | (flt & prj & s & ?)]; [done|].
      exists flt, prj, ra, dec, s. done.
    + destruct (is_Exception e) eqn:He; [|done].
      intros k v Hv. destruct (Hk k v Hv) as [? | (flt & prj & s & ?)]; [done|].
      exists flt, prj, ra, dec, s. done.
  - destruct (is_Exception e) eqn:He; [|done]. intros k v Hv. discriminate.
Qed.

Lemma xmatch_loop_complete (D : gmap string (list value)) (ra dec : float)
    (catalogs : list (string * (pydict * pydict))) (acc : pydict) :
  NoDup catalogs.*1 →
  (∀ catalog flt prj, (catalog, (flt, prj)) ∈ catalogs →
     is_Ok (find_geo E (coll catalog D) flt prj ra dec (cone_search_radius cfg)) = true) →
  ∃ xm, xmatch_loop E cfg D ra dec catalogs acc = (xm, Ok tt) ∧
        ∀ catalog flt prj, (catalog, (flt, prj)) ∈ catalogs →
          ∃ s, find_geo E (coll catalog D) flt prj ra dec (cone_search_radius cfg) = Ok s ∧
               dict_get catalog xm = Some (VList s).
Proof.
  revert acc. induction catalogs as [|[catalog [flt prj]] rest IH]; intros acc Hnd Hok; simpl.
  - exists acc. split; [done|]. intros ? ? ? Hin. by apply elem_of_nil in Hin.
  - apply NoDup_cons in Hnd as [Hnotin Hnd].
    pose proof (Hok catalog flt prj ltac:(left)) as Hf.
    destruct (find_geo E (coll catalog D) flt prj ra dec (cone_search_radius cfg))
      as [s|e] eqn:Hfs; [|discriminate].
    destruct (IH (dict_set catalog (VList s) acc) Hnd) as (xm & Hxm & Hall).
    { intros. apply Hok. by right. }
    exists xm. split; [done|]. intros catalog' flt' prj' Hin.
    apply elem_of_cons in Hin as [[= -> -> ->] | Hin]; [|by apply Hall].
    exists s. split; [done|].
    pose proof (xmatch_loop_keys D ra dec rest (dict_set catalog (VList s) acc)) as Hk.
    rewrite Hxm in Hk. simpl in Hk.
    assert (Hget : ∀ cats acc0 v, catalog ∉ cats.*1 → dict_get catalog acc0 = Some v →
              dict_get catalog (xmatch_loop E cfg D ra dec cats acc0).1 = Some v).
    { clear. intros cats. induction cats as [|[c0 [f0 p0]] cats IHc]; intros acc0 v Hn Hg;
        simpl; [done|].
      apply not_elem_of_cons in Hn as [Hne Hn]. simpl in Hne.
      destruct (find_geo _ _ _ _ _ _ _); simpl; [|done].
      apply IHc; [done|]. by rewrite dict_get_set_ne. }
    specialize (Hget rest (dict_set catalog (VList s) acc) (VList s) Hnotin
                  (dict_get_set_eq _ _ _)).
    by rewrite Hxm in Hget.
Qed.

(** When the alert's coordinates are floats and every configured catalog
    answers its cone search, the cross-matches have an entry for every
    configured catalog: the list that its search around
    [[ra - 180.0, dec]] returned. *)
Theorem alert_filter__xmatch_complete (D : gmap string (list value)) (alert : pydict)
    (cand : value) (ra dec : float) :
  getitem (VDict alert) "candidate" = Ok cand →
  getitem cand "ra" = Ok (VFloat ra) → getitem cand "dec" = Ok (VFloat dec) →
  NoDup (xmatch_catalogs cfg).*1 →
  (∀ catalog flt prj, (catalog, (flt, prj)) ∈ xmatch_catalogs cfg →
     is_Ok (find_geo E (coll catalog D) flt prj (ra - 180)%float dec
              (cone_search_radius cfg)) = true) →
  ∃ xmatches,
    alert_filter__xmatch E cfg D alert = Ok xmatches ∧
    ∀ catalog flt prj, (catalog, (flt, prj)) ∈ xmatch_catalogs cfg →
      ∃ s, find_geo E (coll catalog D) flt prj (ra - 180)%float dec
             (cone_search_radius cfg) = Ok s ∧
           dict_get catalog xmatches = Some (VList s).
Proof.
  intros Hc Hra Hdec Hnd Hok. unfold alert_filter__xmatch.
  rewrite Hc. simpl. rewrite Hra. simpl. rewrite ?Hc. simpl. rewrite Hdec. simpl.
  destruct (xmatch_loop_complete D (ra - 180)%float dec (xmatch_catalogs cfg) [] Hnd Hok)
    as (xm & -> & Hall).
  eauto.
Qed.

Lemma clu_match_annotated (ra dec : float) (size_margin : Z) (galaxy g : value) :
  clu_match E ra dec size_margin galaxy = Ok (Some g) →
  ∃ alpha1 delta01 dist coordinates,
    getitem galaxy "ra" = Ok alpha1 ∧ getitem galaxy "dec" = Ok delta01 ∧
    great_circle_distance E ra dec alpha1 delta01 = Ok dist ∧
    getitem galaxy "coordinates" = Ok (VDict coordinates) ∧
    getitem g "coordinates"
      = Ok (VDict (dict_set "distance_arcsec" (VFloat (round2 E (dist * 3600)%float))
                            coordinates)) ∧
    ∀ k, k ≠ "coordinates" → getitem g k = getitem galaxy k.
Proof.
  unfold clu_match. intros H.
  apply bind_Ok in H as (alpha1 & Hra & H). apply bind_Ok in H as (delta01 & Hdec & H).
  inv_bind H.
  match type of H with (if ?b then _ else _) = _ => destruct b; [|discriminate] end.
  apply bind_Ok in H as (dist & Hdist & H).
  apply bind_Ok in H as (g0 & Hg0 & H). apply bind_Ok in H as (g1 & Hg1 & H).
  injection H as <-.
  exists alpha1, delta01, dist.
  apply setitem2_Ok in Hg1 as (i & Hi & ->).
  assert (galaxy = VDict g0) as ->.
  { destruct galaxy as [| | | | | |[|]|d]; try discriminate. by injection Hg0 as <-. }
  exists i. split; [done|]. split; [done|]. split; [done|]. simpl. rewrite Hi.
  split; [done|]. split; [by rewrite dict_get_set_eq|].
  intros k Hk. by rewrite dict_get_set_ne.
Qed.

Lemma clu_matches_distance (ra dec : float) (size_margin : Z) (galaxies matches : list value) :
  clu_matches E ra dec size_margin galaxies = Ok matches →
  Forall (fun g => ∃ galaxy, galaxy ∈ galaxies ∧
                    clu_match E ra dec size_margin galaxy = Ok (Some g)) matches.
Proof.
  revert matches. induction galaxies as [|galaxy rest IH]; intros matches H; simpl in H.
  - injection H as <-. constructor.
  - inv_bind H. injection H as <-. specialize (IH _ Ha0).
    assert (Hrest : Forall (fun g => ∃ galaxy0, galaxy0 ∈ galaxy :: rest ∧
                      clu_match E ra dec size_margin galaxy0 = Ok (Some g)) a0).
    { eapply Forall_impl; [exact IH|]. intros g (g0 & Hin & Hm). exists g0.
      split; [by right|done]. }
    destruct a as [g|]; [|done]. constructor; [|done]. exists galaxy. split; [left|]; done.
Qed.

(** [alert_filter__xmatch_clu] never raises an [Exception] either.  It
    returns the empty dictionary, or one entry under the catalog version.
    In that case the alert's position read as floats, [ra] and [dec], is
    what the coarse search was centred on, at [ra - 180] and [dec], and every
    match listed is a galaxy of the coarse search, or M31 or M33, that is the
    same but for [distance_arcsec] in its [coordinates], which is the great
    circle distance between [ra], [dec] and the galaxy's own [ra], [dec],
    times 3600 and rounded. *)
Theorem alert_filter__xmatch_clu_matches (D : gmap string (list value)) (alert : pydict)
    (size_margin : Z) (clu_version : string) :
  match alert_filter__xmatch_clu E D alert size_margin clu_version with
  | Ok xmatches =>
      xmatches = [] ∨
      ∃ candidate ra_v dec_v ra dec galaxies matches,
        getitem (VDict alert) "candidate" = Ok candidate ∧
        getitem candidate "ra" = Ok ra_v ∧ py_float (parse_float E) ra_v = Ok ra ∧
        getitem candidate "dec" = Ok dec_v ∧ py_float (parse_float E) dec_v = Ok dec ∧
        find_geo E (coll clu_version D) [] clu_projection (ra - 180)%float dec
                 cone_search_radius_clu = Ok galaxies ∧
        xmatches = [(clu_version, VList matches)] ∧
        Forall (fun g =>
                  ∃ galaxy alpha1 delta01 dist coordinates,
                    galaxy ∈ galaxies ++ [M31; M33] ∧
                    getitem galaxy "ra" = Ok alpha1 ∧ getitem galaxy "dec" = Ok delta01 ∧
                    great_circle_distance E ra dec alpha1 delta01 = Ok dist ∧
                    getitem galaxy "coordinates" = Ok (VDict coordinates) ∧
                    getitem g "coordinates"
                      = Ok (VDict (dict_set "distance_arcsec"
                                            (VFloat (round2 E (dist * 3600)%float))
                                            coordinates)) ∧
                    ∀ k, k ≠ "coordinates" → getitem g k = getitem galaxy k) matches
  | Raise e => is_Exception e = false
  end.
Proof.
  unfold alert_filter__xmatch_clu.
  match goal with |- context [try_pure ?b _] => destruct b as [xm|e] eqn:Hb end; simpl.
  - right.
    apply bind_Ok in Hb as (candidate & Hc & Hb). apply bind_Ok in Hb as (ra_v & Hrv & Hb).
    apply bind_Ok in Hb as (ra & Hra & Hb). apply bind_Ok in Hb as (candidate' & Hc' & Hb).
    rewrite Hc in Hc'. injection Hc' as <-.
    apply bind_Ok in Hb as (dec_v & Hdv & Hb). apply bind_Ok in Hb as (dec & Hdec & Hb).
    cbv zeta in Hb.
    apply bind_Ok in Hb as (galaxies & Hfind & Hb).
    apply bind_Ok in Hb as (matches & Hms & Hb). injection Hb as <-.
    exists candidate, ra_v, dec_v, ra, dec, galaxies, matches.
    repeat (split; [done|]).
    apply clu_matches_distance in Hms.
    eapply Forall_impl; [exact Hms|]. intros g (galaxy & Hin & Hm).
    apply clu_match_annotated in Hm
      as (alpha1 & delta01 & dist & coordinates & ? & ? & ? & ? & ? & ?).
    by exists galaxy, alpha1, delta01, dist, coordinates.
  - destruct (is_Exception e) eqn:He; [by left | done].
Qed.

(** [alert_filter__ml] never raises an [Exception].  The scores are empty,
    or hold the [braai] score as a float, alone or followed by the version of
    the loaded model: there is no version without a score. *)
Theorem alert_filter__ml_scores (alert : value) (ml_models : pydict) :
  match alert_filter__ml E alert ml_models with
  | Ok scores =>
      scores = [] ∨
      ∃ braai, ml_predict E "braai" alert = Ok braai ∧
        (scores = [("braai", VFloat braai)] ∨
         ∃ m v, dict_get "braai" ml_models = Some m ∧ getitem m "version" = Ok v ∧
                scores = [("braai", VFloat braai); ("braai_version", v)])
  | Raise e => is_Exception e = false
  end.
Proof.
  unfold alert_filter__ml.
  destruct (ml_predict E "braai" alert) as [braai|e] eqn:Hp; simpl.
  - destruct (dict_get "braai" ml_models) as [m|] eqn:Hm; simpl; [|by left].
    destruct (getitem m "version") as [v|e] eqn:Hv; simpl.
    + right. exists braai. split; [done|]. right. by exists m, v.
    + destruct (is_Exception e) eqn:He; [|done]. right. exists braai. auto.
  - destruct (is_Exception e) eqn:He; [by left | done].
Qed.

End Annotators.

Lemma alert_filter__xmatch_complete_witness :
  ∃ xmatches,
    alert_filter__xmatch Demo.E0 Demo.cfg0 ∅ Demo.fresh_doc = Ok xmatches ∧
    ∀ catalog flt prj, (catalog, (flt, prj)) ∈ xmatch_catalogs Demo.cfg0 →
      ∃ s, find_geo Demo.E0 (coll catalog ∅) flt prj (10 - 180)%float 20
             (cone_search_radius Demo.cfg0) = Ok s ∧
           dict_get catalog xmatches = Some (VList s).
Proof.
  apply (alert_filter__xmatch_complete Demo.E0 Demo.cfg0 ∅ Demo.fresh_doc
           (VDict [("ra", VFloat 10); ("dec", VFloat 20);
                   ("programpi", VStr "ZTF"); ("rb", VFloat 0.9)]) 10 20);
    [reflexivity | reflexivity | reflexivity | | reflexivity].
  simpl. repeat constructor. by apply not_elem_of_nil.
Defined.

(** ** What a handled record leaves in the store *)

Section Stored.
Context (E : externals) (cfg : config) (c : consumer).
Context (path_alerts path_tess datestr : string) (save_packets : bool) (payload : string).

Lemma alert_filter__xmatch_Raise (D : gmap string (list value)) (alert : pydict) (e : exn) :
  alert_filter__xmatch E cfg D alert = Raise e → is_Exception e = false.
Proof.
  unfold alert_filter__xmatch.
  destruct (_ ≫= _) as [[ra dec]|e0].
  - destruct (xmatch_loop _ _ _ _ _ _ _) as [xm [[]|e1]]; [discriminate|].
    destruct (is_Exception e1) eqn:He; [discriminate|]. by intros [= <-].
  - destruct (is_Exception e0) eqn:He; [discriminate|]. by intros [= <-].
Qed.

Lemma try_pure_Raise {A} (body : result A) (a : A) (e : exn) :
  try_pure body (fun _ => Ok a) = Raise e → is_Exception e = false.
Proof.
  destruct body as [|e0]; simpl; [discriminate|].
  destruct (is_Exception e0) eqn:He; [discriminate|]. by intros [= <-].
Qed.

(** The first alert of an object creates the object's auxiliary document:
    exactly [_id], [cross_matches] and [prv_candidates], appended to the
    auxiliary collection.  A failing cross-match does not prevent it; only
    an exception that is no [Exception] does, and then the store is as it
    was. *)
Theorem new_object_gets_aux_document (objectId : value) (alert : pydict)
    (prv_candidates : list value) (w : world) :
  existsb (match_field "_id" objectId) (coll (collection_alerts_aux cfg) (db w)) = false →
  match store_aux E cfg objectId alert prv_candidates w with
  | (w', Ok _) =>
      ∃ xmatches,
        coll (collection_alerts_aux cfg) (db w')
        = coll (collection_alerts_aux cfg) (db w)
          ++ [VDict [("_id", objectId); ("cross_matches", VDict xmatches);
                     ("prv_candidates", VList prv_candidates)]]
  | (w', Raise e) => is_Exception e = false ∧ w' = w
  end.
Proof.
  intros Hnew. unfold store_aux, count_documents.
  cbv [mbind act_bind reads lift]. rewrite Hnew. cbv beta iota.
  change (0 =? 0) with true. cbv iota.
  destruct (alert_filter__xmatch E cfg (db w) alert) as [xm|e] eqn:Hx;
    rewrite ?Hx; cbv beta iota.
  2: { split; [by eapply alert_filter__xmatch_Raise | done]. }
  destruct (alert_filter__xmatch_clu E (db w) alert 3 "CLU_20190625") as [xmc|e] eqn:Hc;
    rewrite ?Hc; cbv beta iota.
  2: { split; [by eapply try_pure_Raise | done]. }
  match goal with |- context [insert_db_entry ?n ?e w] =>
    destruct (insert_db_entry_cases n e w)
      as (w' & entry' & -> & _ & Hsame & [[Hdb _] | (id & Hid & _ & _ & Hdup)])
  end.
  - cbv [mret act_ret]. rewrite Hdb, coll_insert_eq.
    rewrite (Hsame ltac:(by eexists)). eauto.
  - simpl in Hid. injection Hid as <-. congruence.
Qed.


(** The [try] of [poll] is around the whole loop over the records of a
    message: when the handling of a record raises an [Exception], the
    records after it in the message are not handled at all, and the poll
    returns as if nothing had gone wrong. *)
Theorem failing_record_drops_the_rest (m : message) (pre post : list value)
    (record : value) (w w1 w2 : world) (e : exn) :
  msg_error m = None → msg_decoded m = Ok (pre ++ record :: post) →
  ingest_records E cfg c path_alerts path_tess datestr save_packets (msg_value m) pre w
    = (w1, Ok tt) →
  ingest_record E cfg c path_alerts path_tess datestr save_packets (msg_value m) record w1
    = (w2, Raise e) →
  is_Exception e = true →
  poll E cfg c path_alerts path_tess datestr save_packets ([], Some m) w = (w2, Ok tt).
Proof.
  intros He Hd Hpre Hrec Hexc. unfold poll, consumer_poll. simpl.
  cbv [mbind act_bind mret act_ret]. simpl. rewrite He, Hd.
  unfold try_except. cbv [mbind act_bind lift]. cbv beta iota.
  assert (Hall : ingest_records E cfg c path_alerts path_tess datestr save_packets
                   (msg_value m) (pre ++ record :: post) w = (w2, Raise e)).
  { clear Hd. revert w Hpre. induction pre as [|r pre IH]; intros w Hpre; simpl in *.
    - injection Hpre as ->. cbv [mbind act_bind]. by rewrite Hrec.
    - cbv [mbind act_bind] in *.
      destruct (ingest_record _ _ _ _ _ _ _ _ r w) as [w0 [[]|e0]]; [|discriminate].
      by apply IH. }
  rewrite Hall. by rewrite Hexc.
Qed.

End Stored.

Lemma new_object_gets_aux_document_witness :
  ∃ xmatches,
    coll "ZTF_alerts_aux"
         (db (store_aux Demo.E0 Demo.cfg0 (VStr "ZTF01") Demo.fresh_doc [] Demo.w0).1)
    = coll "ZTF_alerts_aux" (db Demo.w0)
      ++ [VDict [("_id", VStr "ZTF01"); ("cross_matches", VDict xmatches);
                 ("prv_candidates", VList [])]].
Proof.
  pose proof (new_object_gets_aux_document Demo.E0 Demo.cfg0 (VStr "ZTF01") Demo.fresh_doc
                [] Demo.w0 eq_refl) as H.
  destruct (store_aux Demo.E0 Demo.cfg0 (VStr "ZTF01") Demo.fresh_doc [] Demo.w0)
    as [w' [[]|e]] eqn:Hs; [exact H|].
  vm_compute in Hs. discriminate Hs.
Defined.


Lemma failing_record_drops_the_rest_witness :
  poll Demo.E0 Demo.cfg0 Demo.c0 "/alerts" "/tess" "20200301" false
       (Demo.one_message [Demo.other_record; Demo.record_without_prv; Demo.second_alert])
       Demo.w0
  = ((ingest_records Demo.E0 Demo.cfg0 Demo.c0 "/alerts" "/tess" "20200301" false
        "avro-bytes" [Demo.other_record] Demo.w0).1, Ok tt).
Proof.
  apply (failing_record_drops_the_rest Demo.E0 Demo.cfg0 Demo.c0 "/alerts" "/tess"
           "20200301" false
           (Demo.message_of [Demo.other_record; Demo.record_without_prv; Demo.second_alert])
           [Demo.other_record] [Demo.second_alert] Demo.record_without_prv Demo.w0
           (ingest_records Demo.E0 Demo.cfg0 Demo.c0 "/alerts" "/tess" "20200301" false
              "avro-bytes" [Demo.other_record] Demo.w0).1
           (ingest_records Demo.E0 Demo.cfg0 Demo.c0 "/alerts" "/tess" "20200301" false
              "avro-bytes" [Demo.other_record] Demo.w0).1
           KeyError);
    vm_compute; reflexivity.
Defined.

(** ** Start-up: the date of a topic, the models and the templates *)

Lemma split_on_go_free (sep : ascii) (cur a rest : string) :
  free_of sep a = true →
  split_on_go sep cur (a +:+ String sep rest) = (cur +:+ a) :: split_on_go sep "" rest.
Proof.
  revert cur. induction a as [|ch a IH]; intros cur Ha.
  - change ("" +:+ String sep rest) with (String sep rest). simpl.
    rewrite Ascii.eqb_refl. f_equal.
    clear. induction cur as [|x cur IH]; [done|].
    change (String x cur = String x (cur +:+ "")). by f_equal.
  - simpl in Ha. apply andb_true_iff in Ha as [Hc Ha]. apply negb_true_iff in Hc.
    change (String ch a +:+ String sep rest) with (String ch (a +:+ String sep rest)).
    simpl. rewrite Hc, IH by done. by rewrite append_cons_assoc.
Qed.

Lemma split_on_go_free_all (sep : ascii) (cur a : string) :
  free_of sep a = true → split_on_go sep cur a = [cur +:+ a].
Proof.
  revert cur. induction a as [|ch a IH]; intros cur Ha; simpl.
  - f_equal. clear. induction cur as [|x cur IH]; [done|].
    change (String x cur = String x (cur +:+ "")). by f_equal.
  - simpl in Ha. apply andb_true_iff in Ha as [Hc Ha]. apply negb_true_iff in Hc.
    rewrite Hc, IH by done. by rewrite append_cons_assoc.
Qed.

Section StartUp.
Context (E : externals) (cfg : config).

(** [topic.split('_')[1]]: the date of a listener is what stands between
    the first and the second underscore of its topic (or after the first,
    when there is no second), whatever date the watchdog looked for.  On a
    topic without an underscore the listener ends at start-up, before it
    has touched anything. *)
Theorem datestr_is_the_second_field (a d rest : string) :
  free_of "_" a = true → free_of "_" d = true →
  datestr_of (a +:+ "_" +:+ d) = Ok d ∧
  datestr_of (a +:+ "_" +:+ d +:+ "_" +:+ rest) = Ok d ∧
  datestr_of a = Raise IndexError ∧
  ∀ path_alerts path_tess save_packets test evs w,
    listener E cfg a path_alerts path_tess save_packets test evs w = (w, Exit).
Proof.
  intros Ha Hd.
  assert (H1 : split_on_go "_" "" (a +:+ "_" +:+ d) = [a; d]).
  { change ("_" +:+ d) with (String "_" d).
    rewrite split_on_go_free by done. by rewrite split_on_go_free_all. }
  assert (H2 : ∃ l, split_on_go "_" "" (a +:+ "_" +:+ d +:+ "_" +:+ rest) = a :: d :: l).
  { change ("_" +:+ d +:+ "_" +:+ rest) with (String "_" (d +:+ String "_" rest)).
    rewrite split_on_go_free by done. rewrite split_on_go_free by done. eauto. }
  assert (H3 : split_on_go "_" "" a = [a]) by by apply split_on_go_free_all.
  destruct H2 as [l H2]. unfold datestr_of. rewrite H1, H2, H3.
  repeat split. intros. unfold listener, datestr_of. cbv [mbind act_bind lift].
  by rewrite H3.
Qed.

Lemma load_ml_models_spec (models : list (string * value)) (acc : pydict) :
  NoDup models.*1 →
  (∀ m m_v e, (m, m_v) ∈ models → load_model E m m_v = Raise e → is_Exception e = true) →
  ∃ ml_models,
    load_ml_models E models acc = Ok ml_models ∧
    (∀ m m_v, (m, m_v) ∈ models →
       dict_get m ml_models
       = match load_model E m m_v with
         | Ok _ => Some (VDict [("version", m_v)])
         | Raise _ => dict_get m acc
         end) ∧
    (∀ m, m ∉ models.*1 → dict_get m ml_models = dict_get m acc).
Proof.
  revert acc. induction models as [|[m0 v0] models IH]; intros acc Hnd Hexc.
  - exists acc. split; [done|]. split; [|done]. intros m m_v Hin. by apply elem_of_nil in Hin.
  - rewrite fmap_cons in Hnd. apply NoDup_cons in Hnd as [Hm0 Hnd]. cbn [fst] in Hm0.
    assert (Hexc' : ∀ m m_v e, (m, m_v) ∈ models → load_model E m m_v = Raise e →
                                is_Exception e = true).
    { intros m m_v e Hin. apply Hexc. by right. }
    assert (Hne : ∀ m m_v, (m, m_v) ∈ models → m ≠ m0).
    { intros m m_v Hin ->. apply Hm0. by apply (list_elem_of_fmap_2' fst _ (m0, m_v)). }
    cbn [load_ml_models]. destruct (load_model E m0 v0) as [[]|e] eqn:Hl.
    + destruct (IH (dict_set m0 (VDict [("version", v0)]) acc) Hnd Hexc')
        as (ms & -> & Hin & Hout).
      exists ms. split; [done|]. split.
      * intros m m_v [[= -> ->] | Hm]%elem_of_cons.
        -- rewrite Hl, (Hout m0 Hm0). apply dict_get_set_eq.
        -- rewrite (Hin m m_v Hm). destruct (load_model E m m_v); [done|].
           apply dict_get_set_ne. intros Heq. by apply (Hne m m_v Hm).
      * rewrite fmap_cons. intros m [Hm Hnot]%not_elem_of_cons. rewrite (Hout m Hnot).
        apply dict_get_set_ne. intros Heq. by apply Hm.
    + rewrite (Hexc m0 v0 e ltac:(by left) Hl).
      destruct (IH acc Hnd Hexc') as (ms & -> & Hin & Hout).
      exists ms. split; [done|]. split.
      * intros m m_v [[= -> ->] | Hm]%elem_of_cons.
        -- rewrite Hl. by apply Hout.
        -- by apply Hin.
      * rewrite fmap_cons. intros m [Hm Hnot]%not_elem_of_cons. by apply Hout.
Qed.

(** Lines 199-210.  Each configured model is tried, and start-up goes on
    past one that fails to load with an [Exception]: the consumer is made,
    given that its filter templates load, and its [ml_models] has exactly
    the configured models whose file loaded, each with the version the
    configuration names for it, and no entry for any other name. *)
Theorem only_loaded_models (topic : string) (w : world) :
  NoDup (cfg_ml_models cfg).*1 →
  (∀ m m_v e, (m, m_v) ∈ cfg_ml_models cfg → load_model E m m_v = Raise e →
              is_Exception e = true) →
  ∃ ml_models,
    load_ml_models E (cfg_ml_models cfg) [] = Ok ml_models ∧
    (∀ m m_v, (m, m_v) ∈ cfg_ml_models cfg →
       dict_get m ml_models
       = match load_model E m m_v with
         | Ok _ => Some (VDict [("version", m_v)])
         | Raise _ => None
         end) ∧
    (∀ m, m ∉ (cfg_ml_models cfg).*1 → dict_get m ml_models = None) ∧
    ∀ filter_templates,
      load_filter_templates E cfg (db w) = Ok filter_templates →
      (AlertConsumer_init E cfg topic w).2 = Ok (Consumer topic ml_models filter_templates).
Proof.
  intros Hnd Hexc.
  destruct (load_ml_models_spec (cfg_ml_models cfg) [] Hnd Hexc) as (ms & Hms & Hin & Hout).
  exists ms. split; [done|]. split; [exact Hin|]. split; [exact Hout|].
  intros fts Hfts. unfold AlertConsumer_init.
  cbv [mbind act_bind modify reads lift mret act_ret]. simpl.
  rewrite Hms. simpl. by rewrite Hfts.
Qed.

(** Load, then evaluate.  When the configured upstream pipeline starts
    with a [$match] stage and the templates load, what is loaded is nothing,
    if the [filters] collection has no template for the alert collection, and
    otherwise one template: the last stored one, with its [pipeline] replaced
    and its other fields as stored.  That template can be bound to an alert,
    and the pipeline evaluated for the alert is the upstream pipeline, with
    the alert's [candid] in its first stage's [$match], followed by the
    stages that [loads] reads from the stored [pipeline] text. *)
Theorem loaded_templates_rebind (database : gmap string (list value)) (fts : list value)
    (s0 md : pydict) (up : list value) :
  filter_pipeline_upstream cfg = VList (VDict s0 :: up) →
  dict_get "$match" s0 = Some (VDict md) →
  load_filter_templates E cfg database = Ok fts →
  let stored := List.filter (match_field "catalog" (VStr (collection_alerts cfg)))
                            (coll (collection_filters cfg) database) in
  (stored = [] ∧ fts = []) ∨
  ∃ pipeline stages ft,
    stored ≠ [] ∧
    getitem (List.last stored VNone) "pipeline" = Ok pipeline ∧
    loads E pipeline = Ok (VList stages) ∧
    fts = [ft] ∧
    (∀ k, k ≠ "pipeline" → getitem ft k = getitem (List.last stored VNone) k) ∧
    ∀ candid,
      rebind_candid ft candid
      = Ok (VList (VDict (dict_set "$match" (VDict (dict_set "candid" candid md)) s0)
                   :: up ++ stages)).
Proof.
  intros Hup Hm H stored. unfold load_filter_templates, group_max_last in H.
  change (expr_of (VStr "science_program_id")) with (ELit (VStr "science_program_id")) in H.
  rewrite group_by_constant in H. fold stored in H.
  destruct stored as [|doc docs] eqn:Hs.
  - left. simpl in H. by injection H as <-.
  - right. rewrite <- Hs in *.
    assert (Hne : stored ≠ []) by (rewrite Hs; discriminate).
    clear Hs. simpl in H. destruct stored as [|doc' docs'] eqn:Hs; [done|].
    rewrite <- Hs in *. clear Hs. simpl in H.
    apply bind_Ok in H as (ft & Hft & H). injection H as <-.
    unfold prepend_upstream in Hft.
    apply bind_Ok in Hft as (pipeline & Hp & Hft).
    apply bind_Ok in Hft as (parsed & Hl & Hft).
    rewrite Hup in Hft.
    destruct parsed as [| | | | | |stages|]; try discriminate.
    destruct (List.last stored VNone) as [| | | | | | |d] eqn:Hlast; try discriminate.
    injection Hft as <-.
    exists pipeline, stages, (VDict (dict_set "pipeline" (VList ((VDict s0 :: up) ++ stages)) d)).
    split; [done|]. split; [done|]. split; [done|]. split; [done|]. split.
    + intros k Hk. simpl. by rewrite dict_get_set_ne.
    + intros candid. unfold rebind_candid. simpl. rewrite dict_get_set_eq. simpl.
      by rewrite Hm.
Qed.

End StartUp.

(** ** Disconnected partitions *)

Lemma run_callbacks_disconnects (k : nat) (w : world) :
  let d := num_disconnected_partitions w in
  let n := num_partitions w in
  let r := run_callbacks (replicate k (ErrorCb (-195))) w in
  num_partitions r.1 = n ∧ db r.1 = db w ∧
  if decide (d < n ≤ d + Z.of_nat k)
  then r.2 = Raise SystemExit ∧ num_disconnected_partitions r.1 = n
  else r.2 = Ok tt ∧ num_disconnected_partitions r.1 = d + Z.of_nat k.
Proof.
  revert w. induction k as [|k IH]; intros w; cbv zeta.
  - simpl. split; [done|]. split; [done|]. destruct (decide _); [lia|]. split; [done|lia].
  - simpl. unfold error_cb. change (-195 =? -195) with true. cbv iota.
    cbv [mbind act_bind modify reads lift mret act_ret]. cbv beta iota.
    destruct w as [D F P o n d]. simpl.
    destruct (d + 1 =? n) eqn:Heq.
    + apply Z.eqb_eq in Heq. simpl. split; [done|]. split; [done|].
      destruct (decide _); [split; [done|lia] | lia].
    + apply Z.eqb_neq in Heq.
      specialize (IH (World D F P o n (d + 1))). cbv zeta in IH. simpl in IH.
      destruct IH as (Hn & HD & IH).
      destruct (run_callbacks _ _) as [w' r]. simpl in *.
      split; [done|]. split; [done|].
      destruct (decide (d + 1 < n ≤ d + 1 + Z.of_nat k)), (decide (d < n ≤ d + Z.of_nat (S k)));
        try lia; destruct IH as [-> IH]; (split; [done|lia]).
Qed.

(** Disconnects end a worker exactly when their count reaches the number
    of assigned partitions.  Of [k] disconnect reports in a row, handled by a
    consumer that had counted [d] disconnects and [n] partitions, the one
    that makes the count equal to [n] raises [SystemExit]; if the count is
    already at or beyond [n] (as when a disconnect is reported before any
    partition is assigned), no number of disconnects ends the worker. *)
Theorem disconnects_end_the_worker (k : nat) (w : world) :
  (run_callbacks (replicate k (ErrorCb (-195))) w).2
  = if decide (num_disconnected_partitions w < num_partitions w
               ≤ num_disconnected_partitions w + Z.of_nat k)
    then Raise SystemExit else Ok tt.
Proof.
  pose proof (run_callbacks_disconnects k w) as H. cbv zeta in H.
  destruct H as (_ & _ & H). by destruct (decide _); destruct H as [-> _].
Qed.

Lemma datestr_is_the_second_field_witness :
  datestr_of ("ztf" +:+ "_" +:+ "20200301") = Ok "20200301" ∧
  datestr_of ("ztf" +:+ "_" +:+ "20200301" +:+ "_" +:+ "programid1") = Ok "20200301" ∧
  datestr_of "ztf" = Raise IndexError ∧
  ∀ path_alerts path_tess save_packets test evs w,
    listener Demo.E0 Demo.cfg0 "ztf" path_alerts path_tess save_packets test evs w = (w, Exit).
Proof.
  apply (datestr_is_the_second_field Demo.E0 Demo.cfg0 "ztf" "20200301" "programid1");
    reflexivity.
Defined.

Lemma only_loaded_models_witness :
  let E := Demo.with_load_model Demo.only_braai_loads Demo.E0 in
  let cfg := Demo.with_ml_models [("acai", VStr "d1_dnn"); ("braai", VStr "d6_m9")] Demo.cfg0 in
  ∃ ml_models,
    load_ml_models E (cfg_ml_models cfg) [] = Ok ml_models ∧
    (∀ m m_v, (m, m_v) ∈ cfg_ml_models cfg →
       dict_get m ml_models
       = match load_model E m m_v with
         | Ok _ => Some (VDict [("version", m_v)])
         | Raise _ => None
         end) ∧
    (∀ m, m ∉ (cfg_ml_models cfg).*1 → dict_get m ml_models = None) ∧
    ∀ filter_templates,
      load_filter_templates E cfg (db Demo.w0) = Ok filter_templates →
      (AlertConsumer_init E cfg "ztf_20200301_programid1" Demo.w0).2
      = Ok (Consumer "ztf_20200301_programid1" ml_models filter_templates).
Proof.
  intros E cfg.
  apply (only_loaded_models E cfg "ztf_20200301_programid1" Demo.w0).
  - apply (bool_decide_unpack _). by vm_compute.
  - intros m m_v e Hin. unfold E, Demo.only_braai_loads. simpl.
    destruct (String.eqb m "braai"); [discriminate|]. by intros [= <-].
Defined.

Lemma loaded_templates_rebind_witness :
  let stored := List.filter (match_field "catalog" (VStr (collection_alerts Demo.cfg0)))
                            (coll (collection_filters Demo.cfg0) Demo.filters_db) in
  ∃ fts,
    load_filter_templates Demo.E0 Demo.cfg0 Demo.filters_db = Ok fts ∧
    ((stored = [] ∧ fts = []) ∨
     ∃ pipeline stages ft,
       stored ≠ [] ∧
       getitem (List.last stored VNone) "pipeline" = Ok pipeline ∧
       loads Demo.E0 pipeline = Ok (VList stages) ∧
       fts = [ft] ∧
       (∀ k, k ≠ "pipeline" → getitem ft k = getitem (List.last stored VNone) k) ∧
       ∀ candid,
         rebind_candid ft candid
         = Ok (VList (VDict (dict_set "$match"
                               (VDict (dict_set "candid" candid [("candid", VNone)]))
                               [("$match", VDict [("candid", VNone)])])
                      :: [] ++ stages))).
Proof.
  intros stored.
  destruct (load_filter_templates Demo.E0 Demo.cfg0 Demo.filters_db) as [fts|e] eqn:Hl;
    [|vm_compute in Hl; discriminate Hl].
  exists fts. split; [reflexivity|].
  apply (loaded_templates_rebind Demo.E0 Demo.cfg0 Demo.filters_db fts
           [("$match", VDict [("candid", VNone)])] [("candid", VNone)] []);
    [reflexivity | reflexivity | exact Hl].
Defined.

(** ** The watchdog *)

Lemma watch_started (env : pass_env) (t : string) (s : watchdog) :
  started (watch env t s).1 = started s ∨
  started (watch env t s).1 = started s ++ [(next_pid s, t)].
Proof.
  unfold watch. destruct (dict_get t (topics_on_watch s)) as [p|].
  - destruct (is_alive env p) as [[]|e]; simpl; auto. destruct (is_Exception e); auto.
  - destruct (start env (next_pid s) t) as [[]|e]; simpl; auto.
Qed.

Lemma watch_all_started (P : N * string → Prop) (Q : string → Prop) (env : pass_env)
    (ts : list string) (s : watchdog) :
  (∀ p t, Q t → P (p, t)) →
  Forall Q ts → Forall P (started s) → Forall P (started (watch_all env ts s).1).
Proof.
  intros HPQ Hts. revert s. induction Hts as [|t ts Ht _ IH]; intros s Hs; simpl; [done|].
  assert (Forall P (started (watch env t s).1)) as Hw.
  { destruct (watch_started env t s) as [-> | ->]; [done|].
    apply Forall_app. split; [done|]. constructor; [by apply HPQ | constructor]. }
  destruct (watch env t s) as [s' [[]|e]]; simpl in *; [by apply IH | done].
Qed.

Lemma ingester_pass_started (P : N * string → Prop) (obs_date : option string)
    (test : bool) (env : pass_env) (s : watchdog) :
  (∀ p t, tonight (match obs_date with None => utcnow env | Some d => d end) t = true →
          P (p, t)) →
  Forall P (started s) → Forall P (started (ingester_pass obs_date test env s).1).
Proof.
  intros HP Hs. unfold ingester_pass.
  destruct (kafka_topics env test) as [out|e]; [|by destruct (is_Exception e)].
  cbv zeta.
  match goal with |- context [watch_all env ?ts s] =>
    pose proof (watch_all_started P _ env ts s HP) as Hw
  end.
  specialize (Hw ltac:(apply Forall_forall; intros t Ht%list_elem_of_In;
                        by apply filter_In in Ht as [_ Ht]) Hs).
  destruct (watch_all env _ s) as [s' [[]|e]]; simpl in *.
  - by destruct test.
  - by destruct (is_Exception e).
Qed.

Lemma ingester_loop_started (P : N * string → Prop) (obs_date : option string)
    (test : bool) (envs : list pass_env) (s : watchdog) :
  (∀ env p t, tonight (match obs_date with None => utcnow env | Some d => d end) t = true →
              P (p, t)) →
  Forall P (started s) → Forall P (started (ingester_loop obs_date test envs s).1).
Proof.
  intros HP. revert s. induction envs as [|env envs IH]; intros s Hs; simpl; [done|].
  pose proof (ingester_pass_started P obs_date test env s (HP env) Hs) as Hp.
  destruct (ingester_pass obs_date test env s) as [s' [[]|e]]; simpl in *;
    [by apply IH | done | done].
Qed.

(** The watchdog never starts a listener on a topic that is not one of
    tonight's: whatever the brokers list and however the processes fare,
    every topic a listener was started on contains [programid], does not
    contain [zuds], and contains the observing date when one was given. *)
Theorem watchdog_starts_only_tonight_topics (obs_date : option string) (test : bool)
    (envs : list pass_env) :
  Forall (fun pt : N * string =>
            substringb "programid" pt.2 = true ∧ substringb "zuds" pt.2 = false ∧
            match obs_date with
            | Some d => substringb d pt.2 = true
            | None => True
            end)
         (started (ingester obs_date test envs).1).
Proof.
  unfold ingester. apply ingester_loop_started; [|constructor].
  intros env p t Ht. unfold tonight in Ht.
  apply andb_true_iff in Ht as [[Hd Hp]%andb_true_iff Hz]. apply negb_true_iff in Hz.
  simpl. split; [done|]. split; [done|]. by destruct obs_date.
Qed.

(** A dead listener is restarted, but not at once.  The visit that finds
    the process of a topic dead only takes the topic off the watch list; it
    is the next visit to the topic that starts a new process for it. *)
Theorem dead_listener_restarts_on_the_next_visit (env env' : pass_env) (t : string)
    (p : N) (s : watchdog) :
  dict_get t (topics_on_watch s) = Some p → is_alive env p = Ok false →
  start env' (next_pid s) t = Ok tt →
  dict_get t (topics_on_watch (watch env t s).1) = None ∧
  started (watch env t s).1 = started s ∧
  dict_get t (topics_on_watch (watch env' t (watch env t s).1).1) = Some (next_pid s) ∧
  started (watch env' t (watch env t s).1).1 = started s ++ [(next_pid s, t)].
Proof.
  intros Hp Hdead Hstart.
  assert (Hw : watch env t s
               = (Watchdog (dict_pop t (topics_on_watch s)) (next_pid s) (started s)
                           (killed s), Ok tt)).
  { unfold watch. by rewrite Hp, Hdead. }
  rewrite Hw. simpl. split; [apply dict_get_pop_eq|]. split; [done|].
  unfold watch. simpl. rewrite dict_get_pop_eq. simpl. rewrite Hstart. simpl.
  split; [apply dict_get_set_eq | done].
Qed.

Lemma watch_other (env : pass_env) (t t' : string) (s : watchdog) :
  t' ≠ t →
  dict_get t (topics_on_watch (watch env t' s).1) = dict_get t (topics_on_watch s).
Proof.
  intros Hne. unfold watch. destruct (dict_get t' (topics_on_watch s)) as [p|].
  - destruct (is_alive env p) as [[]|e]; simpl; [done | by apply dict_get_pop_ne |].
    by destruct (is_Exception e).
  - destruct (start env (next_pid s) t') as [[]|e]; simpl; by apply dict_get_set_ne.
Qed.

Lemma watch_all_other (env : pass_env) (t : string) (ts : list string) (s : watchdog) :
  t ∉ ts →
  dict_get t (topics_on_watch (watch_all env ts s).1) = dict_get t (topics_on_watch s).
Proof.
  revert s. induction ts as [|t' ts IH]; intros s Hnotin; simpl; [done|].
  apply not_elem_of_cons in Hnotin as [Hne Hnotin].
  pose proof (watch_other env t t' s ltac:(done)) as Hw.
  destruct (watch env t' s) as [s' [[]|e]]; simpl in *; [|done].
  by rewrite IH.
Qed.

Lemma ingester_pass_production (obs_date : option string) (env : pass_env) (s : watchdog) :
  killed (ingester_pass obs_date false env s).1 = killed s ∧
  (ingester_pass obs_date false env s).2 ≠ Ok Exit.
Proof.
  unfold ingester_pass.
  destruct (kafka_topics env false) as [out|e]; [|by destruct (is_Exception e)].
  cbv zeta.
  assert (Hk : ∀ ts s0, killed (watch_all env ts s0).1 = killed s0).
  { intros ts. induction ts as [|t ts IH]; intros s0; simpl; [done|].
    assert (killed (watch env t s0).1 = killed s0) as Hw.
    { unfold watch. destruct (dict_get t (topics_on_watch s0)) as [p|].
      - destruct (is_alive env p) as [[]|e]; simpl; try done. by destruct (is_Exception e).
      - by destruct (start env (next_pid s0) t) as [[]|e]. }
    destruct (watch env t s0) as [s' [[]|e]]; simpl in *; [by rewrite IH | done]. }
  match goal with |- context [watch_all env ?ts s] => specialize (Hk ts s) end.
  destruct (watch_all env _ s) as [s' [[]|e]]; simpl in *; [done|].
  by destruct (is_Exception e).
Qed.

Lemma dict_get_elem_of {V} (k : string) (v : V) (d : list (string * V)) :
  dict_get k d = Some v → (k, v) ∈ d.
Proof.
  induction d as [|[k' v'] d IH]; simpl; [done|].
  destruct (String.eqb k k') eqn:Hk.
  - apply String.eqb_eq in Hk as ->. intros [= ->]. by left.
  - intros H. right. by apply IH.
Qed.

(** A topic that is not one of tonight's (yesterday's, say) is not touched
    by a turn of the watchdog: its entry of [topics_on_watch] stays what it
    was, with the process it had, dead or alive, or stays absent, and no
    process is started for it.  In production its process is not killed
    either.  A test run is different: the turn that ends the run kills every
    process on watch, the one of such a topic too. *)
Theorem other_topics_on_watch (obs_date : option string) (test : bool)
    (env : pass_env) (s : watchdog) (t : string) :
  tonight (match obs_date with None => utcnow env | Some d => d end) t = false →
  let r := ingester_pass obs_date test env s in
  dict_get t (topics_on_watch r.1) = dict_get t (topics_on_watch s) ∧
  (∀ p, (p, t) ∈ started r.1 → (p, t) ∈ started s) ∧
  (test = false → killed r.1 = killed s) ∧
  (∀ p, r.2 = Ok Exit → dict_get t (topics_on_watch s) = Some p → p ∈ killed r.1).
Proof.
  intros Ht r.
  assert (Hentry : dict_get t (topics_on_watch r.1) = dict_get t (topics_on_watch s)).
  { subst r. unfold ingester_pass.
    destruct (kafka_topics env test) as [out|e]; [|by destruct (is_Exception e)].
    cbv zeta.
    match goal with |- context [watch_all env ?ts s] =>
      pose proof (watch_all_other env t ts s) as Hw
    end.
    assert (dict_get t (topics_on_watch (watch_all env
              (List.filter (tonight (match obs_date with None => utcnow env | Some d => d end))
                           (lines out)) s).1)
            = dict_get t (topics_on_watch s)) as Hs'.
    { apply Hw. intros Hin%list_elem_of_In. apply filter_In in Hin as [_ Hin]. congruence. }
    destruct (watch_all env _ s) as [s' [[]|e]]; simpl in *.
    - by destruct test.
    - by destruct (is_Exception e). }
  split; [exact Hentry|]. split; [|split].
  - intros p Hp.
    assert (Forall (fun pt => pt.2 = t → pt ∈ started s) (started r.1)) as Hs.
    { apply ingester_pass_started.
      - intros p' t' Ht' Heq. simpl in Heq. congruence.
      - by apply Forall_forall. }
    rewrite Forall_forall in Hs. exact (Hs (p, t) Hp eq_refl).
  - intros ->. apply (proj1 (ingester_pass_production obs_date env s)).
  - intros p Hexit Hp. rewrite <- Hentry in Hp. clear Hentry. subst r.
    unfold ingester_pass in *.
    destruct (kafka_topics env test) as [out|e];
      [|by destruct (is_Exception e)].
    cbv zeta in *.
    destruct (watch_all env _ s) as [s' [[]|e]]; simpl in *.
    + destruct test; [|done]. simpl in *. apply elem_of_app. right.
      apply dict_get_elem_of, list_elem_of_In in Hp. apply list_elem_of_In. exact (in_map snd _ (t, p) Hp).
    + by destruct (is_Exception e).
Qed.

Lemma removelast_snoc {A} (l : list A) (x : A) : removelast (l ++ [x]) = l.
Proof.
  induction l as [|y l IH]; [done|]. simpl. rewrite IH.
  destruct (l ++ [x]) eqn:H; [by destruct l | done].
Qed.

Lemma split_on_go_lines (ts : list string) (last : string) :
  Forall (fun t => free_of "010" t = true) ts → free_of "010" last = true →
  split_on_go "010" "" (fold_right (fun t acc => t +:+ String "010" acc) last ts)
  = ts ++ [last].
Proof.
  intros Hts Hl. induction Hts as [|t ts Ht _ IH]; simpl.
  - by rewrite split_on_go_free_all.
  - rewrite split_on_go_free by done. by rewrite IH.
Qed.

(** [split('\n')[:-1]] gives back the topics of a listing that ends each
    line with a newline; of a listing whose last line is not ended, the last
    topic is lost. *)
Theorem lines_drops_what_follows_the_last_newline (ts : list string) (last : string) :
  Forall (fun t => free_of "010" t = true) ts → free_of "010" last = true →
  lines (fold_right (fun t acc => t +:+ String "010" acc) last ts) = ts.
Proof.
  intros Hts Hl. unfold lines. rewrite split_on_go_lines by done. apply removelast_snoc.
Qed.

(** When the topics cannot be listed, the watchdog changes nothing and
    goes on, in a test run too: a test run ends only after a listing has
    succeeded. *)
Theorem failed_listing_changes_nothing (obs_date : option string) (test : bool)
    (envs : list pass_env) (s : watchdog) :
  Forall (fun env => ∃ e, kafka_topics env test = Raise e ∧ is_Exception e = true) envs →
  ingester_loop obs_date test envs s = (s, Ok Continue).
Proof.
  intros H. induction H as [|env envs (e & He & Hexc) _ IH]; simpl; [done|].
  unfold ingester_pass. by rewrite He, Hexc.
Qed.

(** Outside a test run the watchdog never kills a listener and never
    leaves its loop by [break]. *)
Theorem production_watchdog_never_kills (obs_date : option string) (envs : list pass_env)
    (s : watchdog) :
  killed (ingester_loop obs_date false envs s).1 = killed s ∧
  (ingester_loop obs_date false envs s).2 ≠ Ok Exit.
Proof.
  revert s. induction envs as [|env envs IH]; intros s; simpl; [done|].
  destruct (ingester_pass_production obs_date env s) as [Hk Hne].
  destruct (ingester_pass obs_date false env s) as [s' [[]|e]]; simpl in *; try done.
  destruct (IH s') as [Hk' Hne']. by rewrite Hk', Hk.
Qed.

Lemma dead_listener_restarts_on_the_next_visit_witness :
  let s := (ingester_pass None false (Demo.watch_env true) (Watchdog [] 0 [] [])).1 in
  let t := "ztf_20200301_programid1" in
  dict_get t (topics_on_watch (watch (Demo.watch_env false) t s).1) = None ∧
  started (watch (Demo.watch_env false) t s).1 = started s ∧
  dict_get t (topics_on_watch (watch (Demo.watch_env true) t (watch (Demo.watch_env false) t s).1).1)
    = Some (next_pid s) ∧
  started (watch (Demo.watch_env true) t (watch (Demo.watch_env false) t s).1).1
    = started s ++ [(next_pid s, t)].
Proof.
  intros s t.
  apply (dead_listener_restarts_on_the_next_visit (Demo.watch_env false) (Demo.watch_env true) t 0%N s);
    reflexivity.
Defined.

Lemma other_topics_on_watch_witness :
  let s := Watchdog [("ztf_20200229_programid1", 7%N)] 8 [] [] in
  let t := "ztf_20200229_programid1" in
  let r := ingester_pass None true (Demo.watch_env true) s in
  dict_get t (topics_on_watch r.1) = dict_get t (topics_on_watch s) ∧
  (∀ p, (p, t) ∈ started r.1 → (p, t) ∈ started s) ∧
  (true = false → killed r.1 = killed s) ∧
  (∀ p, r.2 = Ok Exit → dict_get t (topics_on_watch s) = Some p → p ∈ killed r.1).
Proof.
  intros s t.
  apply (other_topics_on_watch None true (Demo.watch_env true) s t). reflexivity.
Defined.

Lemma lines_drops_what_follows_the_last_newline_witness :
  lines (fold_right (fun t acc => t +:+ String "010" acc) "ztf_20200301_programid3"
           ["ztf_20200301_programid1"; "ztf_20200301_programid2"])
  = ["ztf_20200301_programid1"; "ztf_20200301_programid2"].
Proof.
  apply (lines_drops_what_follows_the_last_newline
           ["ztf_20200301_programid1"; "ztf_20200301_programid2"] "ztf_20200301_programid3");
    [repeat constructor | reflexivity].
Defined.

Lemma failed_listing_changes_nothing_witness :
  ingester_loop None true
    [PassEnv (fun _ => Raise UnicodeDecodeError) "20200301" (fun _ _ => Ok tt)
             (fun _ => Ok true)]
    (Watchdog [] 0 [] [])
  = (Watchdog [] 0 [] [], Ok Continue).
Proof.
  apply (failed_listing_changes_nothing None true
           [PassEnv (fun _ => Raise UnicodeDecodeError) "20200301" (fun _ _ => Ok tt)
                    (fun _ => Ok true)]
           (Watchdog [] 0 [] [])).
  repeat constructor. exists UnicodeDecodeError. split; reflexivity.
Defined.

(** ** No null is stored with a prior candidate *)

Lemma pop_nulls_null_free (p p' : value) : pop_nulls p = Ok p' → null_free p' = true.
Proof.
  destruct p; try discriminate. intros [= <-]. simpl.
  apply forallb_forall. intros kv Hin. by apply filter_In in Hin as [_ Hin].
Qed.

Lemma pop_nulls_all_null_free (l l' : list value) :
  pop_nulls_all l = Ok l' → Forall (fun p => null_free p = true) l'.
Proof.
  revert l'. induction l as [|p l IH]; intros l' H; simpl in H.
  - injection H as <-. constructor.
  - inv_bind H. injection H as <-. constructor; [by eapply pop_nulls_null_free | by apply IH].
Qed.

Lemma addToSet_null_free (l items : list value) :
  Forall (fun p => null_free p = true) l → Forall (fun p => null_free p = true) items →
  Forall (fun p => null_free p = true) (addToSet l items).
Proof.
  intros Hl Hi. destruct (addToSet_spec l items) as (extra & -> & _ & _ & Hsub & _).
  apply Forall_app. split; [done|]. apply Forall_forall. intros x Hx.
  rewrite Forall_forall in Hi. apply Hi, Hsub, Hx.
Qed.

Lemma prv_null_free_no_prv (d : pydict) :
  dict_get "prv_candidates" d = None → prv_null_free (VDict d).
Proof. intros Hd l Hl. simpl in Hl. by rewrite Hd in Hl. Qed.

Section NullFree.
Context (E : externals) (cfg : config) (name : string).

#[local] Instance null_rel_po : PreOrder (null_rel name).
Proof.
  split; [intros D H; exact H | intros D1 D2 D3 H12 H23 H; exact (H23 (H12 H))].
Qed.

Lemma insert_db_entry_null (name' : string) (entry : pydict) :
  prv_null_free (VDict entry) → keeps (null_rel name) (insert_db_entry name' entry).
Proof.
  intros Hok w Hall.
  destruct (insert_db_entry_cases name' entry w)
    as (w' & entry' & -> & Hkeys & _ & [[Hdb _] | (_ & _ & _ & -> & _)]); [|done].
  simpl. rewrite Hdb. destruct (decide (name' = name)) as [->|Hne].
  - rewrite coll_insert_eq. apply Forall_app. split; [done|]. constructor; [|done].
    intros l Hl. apply Hok. simpl in *. by rewrite <- Hkeys.
  - by rewrite coll_insert_ne.
Qed.

Lemma update_one_addToSet_null (name' : string) (id : value) (items : list value) :
  Forall (fun p => null_free p = true) items →
  keeps (null_rel name) (update_one_addToSet name' id "prv_candidates" items).
Proof.
  intros Hitems w Hall. unfold update_one_addToSet.
  cbv [mbind act_bind reads modify lift mret act_ret]; simpl.
  destruct (update_first _ _ _) as [[docs'|e]|] eqn:Hu; simpl; [| done |].
  - destruct (decide (name' = name)) as [->|Hne];
      [rewrite coll_insert_eq | by rewrite coll_insert_ne].
    apply update_first_Ok in Hu as (pre & d & d' & post & Hdocs & -> & Hd & _ & _).
    rewrite Hdocs in Hall. apply Forall_app in Hall as [Hpre Hpost].
    apply Forall_cons in Hpost as [Hd0 Hpost].
    apply Forall_app. split; [done|]. constructor; [|done].
    apply addToSet_doc_Ok in Hd as (dd & l & -> & Hl & ->).
    intros l' Hl'. simpl in Hl'. rewrite dict_get_set_eq in Hl'. injection Hl' as <-.
    apply addToSet_null_free; [|done].
    destruct Hl as [Hl | [_ ->]]; [|constructor].
    apply Hd0. simpl. by rewrite Hl.
  - destruct (decide (name' = name)) as [->|Hne];
      [rewrite coll_insert_eq | by rewrite coll_insert_ne].
    apply Forall_app. split; [done|]. constructor; [|done].
    intros l' Hl'. simpl in Hl'. injection Hl' as <-.
    apply addToSet_null_free; [constructor | done].
Qed.

Lemma store_aux_null (objectId : value) (alert : pydict) (prv : list value) :
  Forall (fun p => null_free p = true) prv →
  keeps (null_rel name) (store_aux E cfg objectId alert prv).
Proof.
  intros Hprv. unfold store_aux.
  repeat first [ by apply update_one_addToSet_null
               | apply insert_db_entry_null; intros l [= <-]; exact Hprv
               | keeps_step ].
Qed.

Lemma ingest_record_null (c : consumer) (path_alerts path_tess datestr : string)
    (save_packets : bool) (payload : string) (record : value) :
  keeps (null_rel name)
    (ingest_record E cfg c path_alerts path_tess datestr save_packets payload record).
Proof.
  unfold ingest_record.
  repeat first [ apply keeps_after_store; tc_solve
               | apply keeps_bind_lift; [tc_solve|]; intros ? ?
               | match goal with
                 | |- keeps _ (store_aux _ _ _ _ _) => apply store_aux_null
                 | |- keeps _ (insert_db_entry _ _) => apply insert_db_entry_null
                 end
               | keeps_step ].
  - match goal with H : alert_mongify _ _ = Ok _ |- _ =>
      apply alert_mongify_Ok in H as (? & ? & ? & _ & _ & _ & -> & _) end.
    apply prv_null_free_no_prv. rewrite dict_get_set_ne by done. apply dict_get_pop_eq.
  - match goal with H : _ ≫= _ = Ok _ |- _ => inv_bind H; by eapply pop_nulls_all_null_free end.
Qed.

Lemma ingest_records_null (c : consumer) (path_alerts path_tess datestr : string)
    (save_packets : bool) (payload : string) (records : list value) :
  keeps (null_rel name)
    (ingest_records E cfg c path_alerts path_tess datestr save_packets payload records).
Proof.
  induction records as [|record records IH]; simpl.
  - apply keeps_ret; tc_solve.
  - apply keeps_bind; [tc_solve | apply ingest_record_null | intros _; exact IH].
Qed.

Lemma poll_null (c : consumer) (path_alerts path_tess datestr : string)
    (save_packets : bool) (ev : poll_event) :
  keeps (null_rel name) (poll E cfg c path_alerts path_tess datestr save_packets ev).
Proof.
  unfold poll, consumer_poll.
  repeat first [ apply keeps_run_callbacks; tc_solve | apply ingest_records_null
               | keeps_step ].
Qed.


End NullFree.



Lemma load_filter_templates_at_most_one_witness :
  ∃ fts, load_filter_templates Demo.E0 Demo.cfg0 Demo.filters_db = Ok fts ∧
         (length fts ≤ 1)%nat.
Proof.
  destruct (load_filter_templates Demo.E0 Demo.cfg0 Demo.filters_db) as [fts|e] eqn:Hl;
    [|vm_compute in Hl; discriminate Hl].
  exists fts. split; [reflexivity|].
  apply (load_filter_templates_at_most_one Demo.E0 Demo.cfg0 Demo.filters_db fts Hl).
Defined.
